(** * Reconciliation engine of the kubernetes iteration toolkit

    A shallow embedding of the Go sources

    - [operator/pkg/controllers/controlplane/controlplane.go]
      (the dependency composer: [Reconcile], [Finalize]);
    - [operator/pkg/controllers/master/endpoint.go] ([GetClusterEndpoint]);
    - [pkg/resource/securitygroup.go] ([SecurityGroup.Create]);
    - package [cluster] of the substrate ([Config.Create], [Config.Delete],
      [ensureBucket], the generators of the configuration,
      [DefaultClusterConfig], [DirectoryIterator]);
    - [operator/pkg/controllers/addons/kubeproxy.go] ([KubeProxy.Reconcile]
      and the objects it hands to the cluster);

    together with the properties the specification states about them, and
    further properties of the same code.

    Go code that talks to the outside (the object store of the cluster, S3,
    STS, the file system, the kubeadm generators) is embedded in a state
    monad over an arbitrary world: every outside call is answered by the
    world and recorded, with its answer, in a trace.  Properties are stated
    for every world; small concrete worlds at the end of the definitions show
    that the hypotheses used can be met. *)

From Stdlib Require Import String Ascii List ZArith NArith Bool Lia.
From stdpp Require Import base option list gmap strings.

Import ListNotations.
Local Open Scope string_scope.
Local Open Scope list_scope.

(* ===================================================================== *)
(** * Part I: definitions                                                 *)
(* ===================================================================== *)

(** ** Go strings *)

(** [strings.Contains(s, substr)]. *)
Fixpoint strings_Contains (s substr : string) : bool :=
  if String.prefix substr s then true
  else match s with
       | EmptyString => false
       | String _ s' => strings_Contains s' substr
       end.

(** [aws.StringValue]: the value of a [*string], the empty string for nil. *)
Definition aws_StringValue (p : option string) : string :=
  match p with
  | Some s => s
  | None => ""
  end.

(** ** Go errors *)

Module awserr.

(** The [awserr.Error] interface, by what its methods return.  Every
    implementation of the SDK prints [Code: Message] first and then its own
    detail (request id, causes, the failed keys of a batch). *)
Record Error := mkError {
  Code : string;
  Message : string;
  Detail : string
}.

Definition Error_text (e : Error) : string :=
  Code e ++ ": " ++ Message e ++ Detail e.

End awserr.

(** The values of the Go interface [error] that this code meets. *)
Inductive error : Type :=
| ErrAws (e : awserr.Error)                 (* an awserr.Error *)
| ErrStatus (reason message : string)       (* a Kubernetes API status error *)
| ErrOs (notExist : bool) (text : string)   (* an *os.PathError and the like *)
| ErrText (text : string)                   (* errors.New, fmt.Errorf without %w *)
| ErrWrap (pre : string) (cause : error)    (* fmt.Errorf(pre + "%w", cause) *).

(** The method [Error()]. *)
Fixpoint error_Error (e : error) : string :=
  match e with
  | ErrAws a => awserr.Error_text a
  | ErrStatus _ m => m
  | ErrOs _ t => t
  | ErrText t => t
  | ErrWrap p c => p ++ error_Error c
  end.

(** [errors.Unwrap]. *)
Definition errors_Unwrap (e : error) : option error :=
  match e with
  | ErrWrap _ c => Some c
  | _ => None
  end.

Definition error_eq_dec (a b : error) : {a = b} + {a <> b}.
Proof.
  revert b; induction a as [e|r m|n t|t|p c IH]; intros [e'|r' m'|n' t'|t'|p' c'];
    try (right; discriminate).
  - destruct e as [c m d], e' as [c' m' d'].
    destruct (string_dec c c'), (string_dec m m'), (string_dec d d');
      subst; try (right; congruence). now left.
  - destruct (string_dec r r'), (string_dec m m');
      subst; try (right; congruence). now left.
  - destruct (Bool.bool_dec n n'), (string_dec t t');
      subst; try (right; congruence). now left.
  - destruct (string_dec t t'); subst; [now left | right; congruence].
  - destruct (string_dec p p'), (IH c');
      subst; try (right; congruence). now left.
Defined.

(** [errors.Is(err, target)]: [target] occurs on the chain of [err]. *)
Fixpoint errors_Is (err target : error) : bool :=
  if error_eq_dec err target then true
  else match err with
       | ErrWrap _ c => errors_Is c target
       | _ => false
       end.

(** [fmt.Errorf(pre + "%w", err)]: the new error wraps [err]. *)
Definition Errorf_w (pre : string) (err : error) : error := ErrWrap pre err.

(** [fmt.Errorf(pre + "%v", err)]: only the text of [err] is kept. *)
Definition Errorf_v (pre : string) (err : error) : error :=
  ErrText (pre ++ error_Error err).

(** [os.IsNotExist]. *)
Definition os_IsNotExist (e : error) : bool :=
  match e with
  | ErrOs b _ => b
  | _ => false
  end.

(** ** [reconcile.Result] *)

Record Result := mkResult {
  Requeue : bool;
  RequeueAfter : Z
}.

(** The zero value [reconcile.Result{}]. *)
Definition Result_zero : Result := mkResult false 0.

(** ** A state monad with a trace *)

Section Monad.
Context {S : Type}.

Definition M (A : Type) : Type := S -> S * A.

Definition ret {A} (a : A) : M A := fun s => (s, a).

Definition bind {A B} (m : M A) (k : A -> M B) : M B :=
  fun s => let (s', a) := m s in k a s'.

(** The Go idiom [if err := m; err != nil { return h err }; k]. *)
Definition on_err {A} (m : M (option error)) (h : error -> A) (k : M A) : M A :=
  bind m (fun r => match r with
                   | Some e => ret (h e)
                   | None => k
                   end).

End Monad.

Arguments M : clear implicits.

Declare Scope go_scope.
Delimit Scope go_scope with go.
Notation "x <- m ;; k" := (bind m (fun x => k))
  (at level 100, m at next level, right associativity) : go_scope.
Notation "'check!' m 'orelse' e => h ;; k" := (on_err m (fun e => h) k)
  (at level 100, m at next level, e name, h at next level, right associativity) : go_scope.
Local Open Scope go_scope.

(* ===================================================================== *)
(** ** Package [cluster]: data                                            *)
(* ===================================================================== *)

Module cluster.

(** *** [v1alpha1.Substrate] *)

Record SubnetSpec := mkSubnetSpec {
  Zone : string;
  Subnet_CIDR : string;
  Public : bool
}.

Record SubstrateSpec := mkSubstrateSpec {
  VPC : option string;               (* VPCSpec.CIDR *)
  Subnets : list SubnetSpec;
  InstanceType : option string
}.

(** The fields of [Status.Cluster] that the package reads and writes. *)
Record ClusterStatus := mkClusterStatus {
  Address : option string;
  KubeConfig : option string
}.

Record SubstrateStatus := mkSubstrateStatus {
  Cluster : ClusterStatus;
  Conditions : list (string * bool)
}.

Record Substrate := mkSubstrate {
  Name : string;
  Namespace : string;
  Spec : SubstrateSpec;
  Status : SubstrateStatus
}.

(** [substrate.Status.Cluster.KubeConfig = p]. *)
Definition set_KubeConfig (p : option string) (s : Substrate) : Substrate :=
  {| Name := Name s;
     Namespace := Namespace s;
     Spec := Spec s;
     Status := {| Cluster := {| Address := Address (Cluster (Status s));
                                KubeConfig := p |};
                  Conditions := Conditions (Status s) |} |}.

(** *** [kubeadm.InitConfiguration], the fields the package touches *)

Record LocalEtcd := mkLocalEtcd {
  Etcd_ImageRepository : string;
  Etcd_ImageTag : string;
  ServerCertSANs : list string;
  PeerCertSANs : list string;
  DataDir : string;
  Etcd_ExtraArgs : gmap string string
}.

Record HostPathMount := mkHostPathMount {
  Mount_Name : string;
  HostPath : string;
  MountPath : string;
  ReadOnly : bool;
  PathType : string
}.

Record InitConfiguration := mkInitConfiguration {
  KubernetesVersion : string;
  ImageRepository : string;
  Etcd_Local : option LocalEtcd;
  AdvertiseAddress : string;
  BindPort : Z;
  ControlPlaneEndpoint : string;
  APIServer_CertSANs : list string;
  APIServer_ExtraArgs : option (gmap string string);
  APIServer_ExtraVolumes : list HostPathMount;
  Scheduler_ExtraArgs : option (gmap string string);
  ControllerManager_ExtraArgs : option (gmap string string);
  NodeRegistration_Name : string;
  KubeletExtraArgs : option (gmap string string);
  CertificatesDir : string
}.

(** [cfg.CertificatesDir = dir]. *)
Definition set_CertificatesDir (dir : string) (c : InitConfiguration) : InitConfiguration :=
  {| KubernetesVersion := KubernetesVersion c;
     ImageRepository := ImageRepository c;
     Etcd_Local := Etcd_Local c;
     AdvertiseAddress := AdvertiseAddress c;
     BindPort := BindPort c;
     ControlPlaneEndpoint := ControlPlaneEndpoint c;
     APIServer_CertSANs := APIServer_CertSANs c;
     APIServer_ExtraArgs := APIServer_ExtraArgs c;
     APIServer_ExtraVolumes := APIServer_ExtraVolumes c;
     Scheduler_ExtraArgs := Scheduler_ExtraArgs c;
     ControllerManager_ExtraArgs := ControllerManager_ExtraArgs c;
     NodeRegistration_Name := NodeRegistration_Name c;
     KubeletExtraArgs := KubeletExtraArgs c;
     CertificatesDir := dir |}.

(** *** [v1.PodTemplateSpec], the fields the package touches *)

Record Volume := mkVolume {
  Volume_Name : string;
  Volume_HostPath : string
}.

Record PodTemplateSpec := mkPodTemplateSpec {
  Pod_Name : string;
  Pod_Namespace : string;
  Pod_Volumes : list Volume;
  Pod_Containers : list string
}.

(** *** The outside world *)

(** An open [*os.File]. *)
Definition File := nat.

(** What [filepath.Walk] hands to its callback for one entry. *)
Record WalkEntry := mkWalkEntry {
  we_path : string;
  we_IsDir : bool;
  we_err : option error
}.

(** The calls that leave the package. *)
Inductive Call : Type :=
| S3_CreateBucket (bucket region : option string)
| S3_BatchDelete (bucket : option string)
| S3_DeleteBucket (bucket : option string)
| S3_Upload (bucket key : string) (body : option File)
| STS_GetCallerIdentity
| Certs_CertTree
| Certs_CreateTree (cfg : InitConfiguration)
| Certs_CreateServiceAccountKeyAndPublicKeyFiles (dir : string) (cfg : InitConfiguration)
| Kubeconfig_CreateKubeConfigFile (name dir : string) (cfg : InitConfiguration)
| Etcd_CreateLocalEtcdStaticPodManifestFile (dir node : string) (cfg : InitConfiguration)
| Controlplane_CreateStaticPodFiles (dir : string) (cfg : InitConfiguration) (component : string)
| Iamauthenticator_Config (name ns role account : string)
| Kubeadmutil_MarshalToYaml (pod : PodTemplateSpec)
| Os_Stat (path : string)
| Os_MkdirAll (path : string) (perm : N)
| Ioutil_WriteFile (path data : string) (perm : N)
| Os_RemoveAll (path : string)
| Os_Open (path : string)
| File_Close (f : File)
| Filepath_Walk (root : string).

(** The type of the answer to each call. *)
Definition Resp (c : Call) : Type :=
  match c with
  | S3_CreateBucket _ _ | S3_BatchDelete _ | S3_DeleteBucket _ => option awserr.Error
  | STS_GetCallerIdentity => (option string + error)%type   (* identity.Account *)
  | Iamauthenticator_Config _ _ _ _ => (gmap string string + error)%type  (* configMap.Data *)
  | Kubeadmutil_MarshalToYaml _ => (string + error)%type
  | Os_Open _ => (File + error)%type
  | Filepath_Walk _ => list WalkEntry
  | _ => option error
  end.

(** One call with its answer. *)
Inductive Event : Type :=
| Ev (c : Call) (r : Resp c).

(** The outside world, and what the package takes from other packages. *)
Class Env := mkEnv {
  World : Type;
  (** the world answers a call and moves on *)
  ext : forall c : Call, World -> World * Resp c;
  (** [c.S3.Config.Region] *)
  Region : option string;
  (** [discovery.Name(substrate, suffixes...)] *)
  discovery_Name : Substrate -> list string -> option string;
  (** [path.Join] *)
  path_Join : list string -> string;
  (** the package constant [kubeconfigFile] *)
  kubeconfigFile : string;
  (** the value of [config.DefaultedStaticInitConfiguration()] *)
  DefaultedStaticInitConfiguration : InitConfiguration;
  (** [iamauthenticator.PodSpec(opts...)] *)
  iamauthenticator_PodSpec : (PodTemplateSpec -> PodTemplateSpec) -> PodTemplateSpec;
  (** [os.ErrInvalid], the answer of [Close] on a nil file *)
  os_ErrInvalid : error
}.

Section WithEnv.
Context `{E : Env}.

(** The state of a run: the world and the calls made so far, oldest first. *)
Definition State : Type := World * list Event.

Definition Go (A : Type) : Type := M State A.

(** Make a call: the world answers, the trace grows by one event. *)
Definition call (c : Call) : Go (Resp c) :=
  fun '(w, tr) => let (w', r) := ext c w in ((w', tr ++ [Ev c r]), r).


(** [for _, x := range l { if err := body(x); err != nil { return err } };
    return nil]. *)
Fixpoint range_err {A} (l : list A) (body : A -> Go (option error)) : Go (option error) :=
  match l with
  | [] => ret None
  | x :: l' => check! body x orelse err => Some err ;; range_err l' body
  end.

(** *** Constants *)

Definition ClusterCertsBasePath := "/tmp/".
Definition kubeconfigPath := "/etc/kubernetes".
Definition certPKIPath := "/etc/kubernetes/pki".
Definition clusterManifestPath := "/etc/kubernetes/manifests".
Definition kubeletSystemdPath := "/etc/systemd/system".
Definition kubeletConfigPath := "/var/lib/kubelet/".
Definition authenticatorConfigDir := "/etc/aws-iam-authenticator".
Definition kubernetesVersionTag := "v1.21.2-eks-1-21-4".
Definition imageRepository := "public.ecr.aws/eks-distro/kubernetes".
Definition etcdVersionTag := "v3.4.16-eks-1-21-7".
Definition etcdImageRepository := "public.ecr.aws/eks-distro/etcd-io".
Definition tenantControlPlaneNodeRole := "tenant-controlplane-node-role".

(** Constants of the AWS SDK and of kubeadm that the package names. *)
Definition s3_ErrCodeBucketAlreadyOwnedByYou := "BucketAlreadyOwnedByYou".
Definition s3_ErrCodeNoSuchBucket := "NoSuchBucket".
Definition AdminKubeConfigFileName := "admin.conf".
Definition KubeletKubeConfigFileName := "kubelet.conf".
Definition ControllerManagerKubeConfigFileName := "controller-manager.conf".
Definition SchedulerKubeConfigFileName := "scheduler.conf".
Definition KubeAPIServer := "kube-apiserver".
Definition KubeControllerManager := "kube-controller-manager".
Definition KubeScheduler := "kube-scheduler".
Definition HostPathFileOrCreate := "FileOrCreate".

(** [aws.StringValue(discovery.Name(substrate))], the name of the bucket and
    of the staging directory. *)
Definition bucketName (substrate : Substrate) : string :=
  aws_StringValue (discovery_Name substrate []).

(** *** [ensureBucket] *)

Definition ensureBucket (substrate : Substrate) : Go (option error) :=
  r <- call (S3_CreateBucket (discovery_Name substrate []) Region) ;;
  match r with
  | Some err =>
      if negb (String.eqb (awserr.Code err) s3_ErrCodeBucketAlreadyOwnedByYou)
      then ret (Some (Errorf_w "creating S3 bucket, " (ErrAws err)))
      else ret None
  | None => ret None
  end.

(** *** The generators of the configuration files *)

Definition generateCerts (cfg : InitConfiguration) (substrate : Substrate)
  : Go (InitConfiguration * option error) :=
  let cfg := set_CertificatesDir
               (path_Join [ClusterCertsBasePath; bucketName substrate; certPKIPath]) cfg in
  r <- call Certs_CertTree ;;
  match r with
  | Some err => ret (cfg, Some err)
  | None =>
      r <- call (Certs_CreateTree cfg) ;;
      match r with
      | Some err => ret (cfg, Some (Errorf_w "error creating cert tree, " err))
      | None =>
          r <- call (Certs_CreateServiceAccountKeyAndPublicKeyFiles (CertificatesDir cfg) cfg) ;;
          ret (cfg, r)
      end
  end.

Definition kubeConfigs (cfg : InitConfiguration) (substrate : Substrate) : Go (option error) :=
  let kubeConfigDir := path_Join [ClusterCertsBasePath; bucketName substrate; kubeconfigPath] in
  range_err [AdminKubeConfigFileName; KubeletKubeConfigFileName;
             ControllerManagerKubeConfigFileName; SchedulerKubeConfigFileName]
    (fun kubeConfigFileName =>
       check! call (Kubeconfig_CreateKubeConfigFile kubeConfigFileName kubeConfigDir cfg)
       orelse err => Some (Errorf_w ("creating " +:+ kubeConfigFileName +:+ ", ") err) ;;
       ret None).

Definition generateStaticPodManifests (cfg : InitConfiguration) (substrate : Substrate)
  : Go (InitConfiguration * option error) :=
  let manifestDir := path_Join [ClusterCertsBasePath; bucketName substrate; clusterManifestPath] in
  let cfg := set_CertificatesDir certPKIPath cfg in
  r <- call (Etcd_CreateLocalEtcdStaticPodManifestFile manifestDir (NodeRegistration_Name cfg) cfg) ;;
  match r with
  | Some err =>
      ret (cfg, Some (Errorf_w "error creating local etcd static pod manifest file " err))
  | None =>
      r <- range_err [KubeAPIServer; KubeControllerManager; KubeScheduler]
             (fun componentName =>
                check! call (Controlplane_CreateStaticPodFiles
                               (path_Join [ClusterCertsBasePath; bucketName substrate;
                                           clusterManifestPath]) cfg componentName)
                orelse err =>
                  Some (Errorf_w ("creating static pod file for " +:+ componentName +:+ ", ") err) ;;
                ret None) ;;
      ret (cfg, r)
  end.

(** The unit file written by [kubeletSystemService]. *)
Definition kubeletService (name : string) : string :=
  "[Unit]
After=docker.service iptables-restore.service
Requires=docker.service

[Service]
ExecStart=/usr/bin/kubelet --hostname-override=" ++ name ++
  " --address=127.0.0.1 --pod-manifest-path=/etc/kubernetes/manifests --kubeconfig=/etc/kubernetes/kubelet.conf  --cgroup-driver=systemd  --container-runtime=docker --network-plugin=cni --pod-infra-container-image=public.ecr.aws/eks-distro/kubernetes/pause:v1.18.9-eks-1-18-1 --node-labels=kit.aws/substrate=control-plane
Restart=always".

Definition kubeletSystemService (cfg : InitConfiguration) (substrate : Substrate)
  : Go (option error) :=
  let localDir := path_Join [ClusterCertsBasePath; bucketName substrate; kubeletSystemdPath] in
  let write : Go (option error) :=
    check! call (Ioutil_WriteFile (path_Join [localDir; "kubelet.service"])
                   (kubeletService (Name substrate)) 420 (* 0644 *))
    orelse err => Some (Errorf_w "writing kubelet configuration, " err) ;;
    ret None in
  r <- call (Os_Stat localDir) ;;
  match r with
  | Some err =>
      if negb (os_IsNotExist err) then ret (Some err)
      else check! call (Os_MkdirAll localDir 511 (* 0777 *)) orelse err => Some err ;;
           write
  | None => write
  end.

Definition DefaultClusterConfig (substrate : Substrate) : InitConfiguration :=
  let defaultStaticConfig := DefaultedStaticInitConfiguration in
  let masterElasticIP := aws_StringValue (Address (Cluster (Status substrate))) in
  {| KubernetesVersion := kubernetesVersionTag;
     ImageRepository := imageRepository;
     Etcd_Local := Some
       {| Etcd_ImageRepository := etcdImageRepository;
          Etcd_ImageTag := etcdVersionTag;
          ServerCertSANs := ["localhost"; "127.0.0.1"];
          PeerCertSANs := ["localhost"; "127.0.0.1"];
          DataDir := "/var/lib/etcd";
          Etcd_ExtraArgs := list_to_map
            [("initial-cluster", Name substrate +:+ "=https://127.0.0.1:2380");
             ("initial-cluster-state", "new");
             ("name", Name substrate);
             ("listen-peer-urls", "https://127.0.0.1:2380");
             ("listen-client-urls", "https://127.0.0.1:2379");
             ("advertise-client-urls", "https://127.0.0.1:2379");
             ("initial-advertise-peer-urls", "https://127.0.0.1:2380")] |};
     AdvertiseAddress := masterElasticIP;
     BindPort := 443;
     ControlPlaneEndpoint := masterElasticIP +:+ ":443";
     APIServer_CertSANs :=
       [masterElasticIP; Name substrate; "kubernetes"; "kubernetes.default";
        "kubernetes.default.svc"; "kubernetes.default.svc.cluster.local"; "10.96.0.1"];
     APIServer_ExtraArgs := Some (list_to_map
       [("advertise-address", masterElasticIP);
        ("secure-port", "443");
        ("authentication-token-webhook-config-file",
         "/var/aws-iam-authenticator/kubeconfig/kubeconfig.yaml")]);
     APIServer_ExtraVolumes :=
       [{| Mount_Name := "authenticator-config";
           HostPath := "/var/aws-iam-authenticator/kubeconfig/kubeconfig.yaml";
           MountPath := "/var/aws-iam-authenticator/kubeconfig/kubeconfig.yaml";
           ReadOnly := true;
           PathType := HostPathFileOrCreate |}];
     Scheduler_ExtraArgs :=
       match Scheduler_ExtraArgs defaultStaticConfig with
       | None => Some ∅
       | Some m => Some m
       end;
     ControllerManager_ExtraArgs :=
       match ControllerManager_ExtraArgs defaultStaticConfig with
       | None => Some ∅
       | Some m => Some m
       end;
     NodeRegistration_Name := Name substrate;
     KubeletExtraArgs := Some (list_to_map
       [("cgroup-driver", "systemd"); ("network-plugin", "cni");
        ("pod-infra-container-image", imageRepository +:+ "/pause:" +:+ kubernetesVersionTag)]);
     CertificatesDir := CertificatesDir defaultStaticConfig |}.

Definition ensureAuthenticatorConfig (substrate : Substrate) : Go (option error) :=
  r <- call STS_GetCallerIdentity ;;
  match r with
  | inr err => ret (Some (Errorf_w "getting caller identity, " err))
  | inl account =>
      r <- call (Iamauthenticator_Config (Name substrate) (Namespace substrate)
                   (aws_StringValue (discovery_Name substrate [tenantControlPlaneNodeRole]))
                   (aws_StringValue account)) ;;
      match r with
      | inr err => ret (Some (Errorf_w "creating authenticator config, " err))
      | inl data =>
          let configDir :=
            path_Join [ClusterCertsBasePath; bucketName substrate; authenticatorConfigDir] in
          check! call (Os_MkdirAll configDir 448 (* 0700 *))
          orelse err => Some (Errorf_w "failed to create directory, " err) ;;
          check! call (Ioutil_WriteFile (path_Join [configDir; "config.yaml"])
                         (default "" (data !! "config.yaml")) 420)
          orelse err => Some (Errorf_w "writing authenticator config, " err) ;;
          ret None
      end
  end.

Definition staticPodSpecForAuthenticator (substrate : Substrate) : Go (option error) :=
  let podTemplateSpec := iamauthenticator_PodSpec (fun template =>
    {| Pod_Name := Pod_Name template;
       Pod_Namespace := "kube-system";
       Pod_Volumes := Pod_Volumes template ++
         [{| Volume_Name := "config"; Volume_HostPath := authenticatorConfigDir |}];
       Pod_Containers := Pod_Containers template |}) in
  r <- call (Kubeadmutil_MarshalToYaml podTemplateSpec) ;;
  match r with
  | inr err => ret (Some (Errorf_w "failed to marshal config map manifest, " err))
  | inl serialized =>
      check! call (Ioutil_WriteFile
                     (path_Join [ClusterCertsBasePath; bucketName substrate;
                                 clusterManifestPath; "aws-iam-authenticator.yaml"])
                     serialized 420)
      orelse err => Some (Errorf_w "writing authenticator pod yaml, " err) ;;
      ret None
  end.

(** *** The upload pipeline of the S3 manager *)

Record UploadInput := mkUploadInput {
  Bucket : string;
  Key : string;
  Body : option File
}.

(** [s3manager.BatchUploadObject]: what to upload, and what to run after it. *)
Record BatchUploadObject := mkBatchUploadObject {
  Object : UploadInput;
  After : option (Go (option error))
}.

(** The interface [s3manager.BatchUploadIterator]; [Next] works on the
    iterator in place, so here it returns the iterator it leaves behind. *)
Class BatchUploadIterator (I : Type) := mkBatchUploadIterator {
  iter_Next : I -> Go (I * bool);
  iter_Err : I -> option error;
  iter_UploadObject : I -> BatchUploadObject
}.

(** [s3manager.NewBatchError(code, message, errs)]. *)
Definition NewBatchError (code message : string) (errs : list error) : error :=
  ErrAws {| awserr.Code := code;
            awserr.Message := message;
            awserr.Detail := String.concat "" (map error_Error errs) |}.

(** Modelled from the spec: the batched upload pipeline that consumes the
    iterator, [s3manager.UploadWithIterator] of the AWS SDK, which is not part
    of the sources.  As the specification describes it: ask the iterator for
    the next unit until it says there is none; upload each unit; run the
    unit's cleanup after its upload whatever the outcome; collect the
    failures and report them together at the end.

    The loop is generic in the iterator, so it runs on fuel: [None] means the
    fuel ran out before [Next] answered false. *)
Fixpoint UploadWithIterator_loop {I} `{BatchUploadIterator I}
    (fuel : nat) (iter : I) (errs : list error) : Go (option (I * list error)) :=
  match fuel with
  | 0 => ret None
  | S fuel' =>
      bind (iter_Next iter) (fun '(iter, more) =>
        if (more : bool) then
          let object := iter_UploadObject iter in
          r <- call (S3_Upload (Bucket (Object object)) (Key (Object object))
                       (Body (Object object))) ;;
          let errs := match r with Some err => errs ++ [err] | None => errs end in
          match After object with
          | None => UploadWithIterator_loop fuel' iter errs
          | Some after =>
              r <- after ;;
              let errs := match r with Some err => errs ++ [err] | None => errs end in
              UploadWithIterator_loop fuel' iter errs
          end
        else ret (Some (iter, errs)))
  end.

Definition UploadWithIterator {I} `{BatchUploadIterator I} (fuel : nat) (iter : I)
  : Go (option (I * option error)) :=
  r <- UploadWithIterator_loop fuel iter [] ;;
  match r with
  | None => ret None
  | Some (iter, []) => ret (Some (iter, None))
  | Some (iter, errs) =>
      ret (Some (iter, Some (NewBatchError "BatchedUploadIncomplete"
                               "some objects have failed to upload." errs)))
  end.

(** *** [DirectoryIterator] *)

(** DirectoryIterator represents an iterator of a specified directory. *)
Record DirectoryIterator := mkDirectoryIterator {
  filePaths : list string;
  bucket : string;
  next_path : string;
  next_f : option File;
  err : option error
}.

(** The callback handed to [filepath.Walk]: an error stops the walk, a file
    that is no directory is recorded. *)
Definition walkFn (paths : list string) (e : WalkEntry) : list string * option error :=
  match we_err e with
  | Some err => (paths, Some err)
  | None => if negb (we_IsDir e) then (paths ++ [we_path e], None) else (paths, None)
  end.

(** [filepath.Walk] over the entries of the tree: it stops at the first
    entry for which the callback returns an error. *)
Fixpoint walk (entries : list WalkEntry) (paths : list string) : list string :=
  match entries with
  | [] => paths
  | e :: entries' =>
      match walkFn paths e with
      | (paths', Some _) => paths'
      | (paths', None) => walk entries' paths'
      end
  end.

(** NewDirectoryIterator builds a new DirectoryIterator. *)
Definition NewDirectoryIterator (bucket dir : string) : Go DirectoryIterator :=
  entries <- call (Filepath_Walk dir) ;;
  ret {| filePaths := walk entries [];
         bucket := bucket;
         next_path := "";
         next_f := None;
         err := None |}.

(** Err returns error of DirectoryIterator. *)
Definition Err (d : DirectoryIterator) : option error := err d.

(** Next returns whether next file exists or not. *)
Definition Next (d : DirectoryIterator) : Go (DirectoryIterator * bool) :=
  match filePaths d with
  | [] =>
      ret ({| filePaths := filePaths d; bucket := bucket d;
              next_path := next_path d; next_f := None; err := err d |}, false)
  | p :: rest =>
      r <- call (Os_Open p) ;;
      let d := {| filePaths := rest; bucket := bucket d;
                  next_path := p;
                  next_f := match r with inl f => Some f | inr _ => None end;
                  err := match r with inl _ => None | inr e => Some e end |} in
      ret (d, true && bool_decide (Err d = None))
  end.

(** The method value [f.Close] of an [*os.File] that may be nil. *)
Definition Close (f : option File) : Go (option error) :=
  match f with
  | Some h => call (File_Close h)
  | None => ret (Some os_ErrInvalid)
  end.

(** UploadObject uploads a file. *)
Definition UploadObject (d : DirectoryIterator) : BatchUploadObject :=
  {| Object := {| Bucket := bucket d; Key := next_path d; Body := next_f d |};
     After := Some (Close (next_f d)) |}.

#[export] Instance DirectoryIterator_BatchUploadIterator
  : BatchUploadIterator DirectoryIterator :=
  {| iter_Next := Next; iter_Err := Err; iter_UploadObject := UploadObject |}.

(** *** [Config.Create] and [Config.Delete] *)

(** The call [c.S3Uploader.UploadWithIterator(ctx, NewDirectoryIterator(..))]
    of [Create].  One more unit of fuel than there are paths is enough for the
    loop to finish (lemma [UploadWithIterator_loop_finishes]), so the [None]
    case is never met. *)
Definition uploadDirectory (bucket dir : string) : Go (option error) :=
  iter <- NewDirectoryIterator bucket dir ;;
  r <- UploadWithIterator (S (length (filePaths iter))) iter ;;
  match r with
  | Some (_, err) => ret err
  | None => ret (Some (ErrText "upload did not finish"))
  end.

Definition Create (substrate : Substrate) : Go (Substrate * (Result * option error)) :=
  match Address (Cluster (Status substrate)) with
  | None => ret (substrate, ({| Requeue := true; RequeueAfter := 0 |}, None))
  | Some _ =>
  (* ensure S3 bucket *)
  check! ensureBucket substrate
  orelse err => (substrate, (Result_zero, Some (Errorf_w "ensuring S3 bucket, " err))) ;;
  (* create all configs file *)
  let cfg := DefaultClusterConfig substrate in
  bind (generateCerts cfg substrate) (fun '(cfg, r) =>
  check! ret r
  orelse err => (substrate, (Result_zero, Some (Errorf_w "generating certs, " err))) ;;
  check! kubeConfigs cfg substrate
  orelse err => (substrate, (Result_zero, Some (Errorf_w "generating kube config, " err))) ;;
  bind (generateStaticPodManifests cfg substrate) (fun '(cfg, r) =>
  check! ret r
  orelse err => (substrate, (Result_zero, Some (Errorf_w "generating manifests, " err))) ;;
  check! kubeletSystemService cfg substrate
  orelse err =>
    (substrate, (Result_zero, Some (Errorf_w "generating kubelet service config, " err))) ;;
  (* deploy aws IAM authenticator *)
  check! ensureAuthenticatorConfig substrate
  orelse err =>
    (substrate, (Result_zero, Some (Errorf_w "generating authenticator config, " err))) ;;
  check! staticPodSpecForAuthenticator substrate
  orelse err =>
    (substrate, (Result_zero, Some (Errorf_w "generating authenticator config, " err))) ;;
  (* upload to s3 bucket *)
  check! uploadDirectory (bucketName substrate)
           (path_Join [ClusterCertsBasePath; bucketName substrate])
  orelse err => (substrate, (Result_zero, Some (Errorf_w "uploading to S3 " err))) ;;
  ret (set_KubeConfig
         (Some (path_Join [ClusterCertsBasePath; bucketName substrate; kubeconfigFile]))
         substrate,
       (Result_zero, None))))
  end.

Definition Delete (substrate : Substrate) : Go (Result * option error) :=
  (* delete the s3 bucket *)
  r <- call (S3_BatchDelete (discovery_Name substrate [])) ;;
  match
    match r with
    | Some err =>
        if negb (strings_Contains (awserr.Error_text err) "NoSuchBucket")
        then Some (Errorf_v "deleting objects from bucket " (ErrAws err))
        else None
    | None => None
    end
  with
  | Some err => ret (Result_zero, Some err)
  | None =>
      r <- call (S3_DeleteBucket (discovery_Name substrate [])) ;;
      match
        match r with
        | Some err =>
            if negb (String.eqb (awserr.Code err) s3_ErrCodeNoSuchBucket)
            then Some (Errorf_w "deleting S3, " (ErrAws err))
            else None
        | None => None
        end
      with
      | Some err => ret (Result_zero, Some err)
      | None =>
          r <- call (Os_RemoveAll (path_Join [ClusterCertsBasePath; bucketName substrate])) ;;
          ret (Result_zero, r)
      end
  end.

(** [errors.As(err, &aerr)] for an [awserr.Error] target. *)
Fixpoint errors_As_awserr (e : error) : option awserr.Error :=
  match e with
  | ErrAws a => Some a
  | ErrWrap _ c => errors_As_awserr c
  | _ => None
  end.

Definition ErrNoSuchBucket (err : option error) : bool :=
  match err with
  | Some err =>
      match errors_As_awserr err with
      | Some aerr => String.eqb (awserr.Code aerr) s3_ErrCodeNoSuchBucket
      | None => false
      end
  | None => false
  end.

(** *** Reading a trace *)

(** [n] calls of [Next] in a row, whatever each of them answers. *)
Fixpoint Next_times (n : nat) (d : DirectoryIterator) : Go DirectoryIterator :=
  match n with
  | 0 => ret d
  | S n' => bind (Next d) (fun '(d', _) => Next_times n' d')
  end.

(** The files that were opened, in order, each with the handle it gave or
    [None] when the open failed. *)
Definition opens (tr : list Event) : list (string * option File) :=
  omap (fun ev =>
          match ev with
          | Ev c r =>
              match c return Resp c -> option (string * option File) with
              | Os_Open p => fun r => Some (p, match r with inl f => Some f | inr _ => None end)
              | _ => fun _ => None
              end r
          end) tr.

(** The handles that were closed, in order. *)
Definition closes (tr : list Event) : list File :=
  omap (fun ev => match ev with
                  | Ev (File_Close f) _ => Some f
                  | _ => None
                  end) tr.

(** The uploads that were attempted, in order: bucket, key and body. *)
Definition uploads (tr : list Event) : list (string * string * option File) :=
  omap (fun ev => match ev with
                  | Ev (S3_Upload b k body) _ => Some (b, k, body)
                  | _ => None
                  end) tr.

(** The handles an open handed out. *)
Definition handles (os : list (string * option File)) : list File := omap snd os.

(** Remove the first occurrence of [f]. *)
Fixpoint remove_first (f : File) (hs : list File) : list File :=
  match hs with
  | [] => []
  | h :: hs' => if Nat.eqb f h then hs' else h :: remove_first f hs'
  end.

(** The handles that are open after a trace, when [hs] were open before it. *)
Definition track (hs : list File) (ev : Event) : list File :=
  match ev with
  | Ev c r =>
      match c return Resp c -> list File with
      | Os_Open _ => fun r => match r with inl f => hs ++ [f] | inr _ => hs end
      | File_Close f => fun _ => remove_first f hs
      | _ => fun _ => hs
      end r
  end.

Definition open_handles (tr : list Event) : list File := fold_left track tr [].

(** The shape of the trace of one upload of the paths [ps] to the bucket
    [b]: for each path in turn, either its open fails and nothing follows,
    or its open gives a handle, the upload of that handle under that path is
    attempted, the handle is closed, and the rest follows. *)
Fixpoint upload_trace (b : string) (ps : list string) (tr : list Event) : Prop :=
  match ps with
  | [] => tr = []
  | p :: ps' =>
      (exists e, tr = [Ev (Os_Open p) (inr e)])
      \/ (exists f uploaded closed tr',
            tr = Ev (Os_Open p) (inl f)
                 :: Ev (S3_Upload b p (Some f)) uploaded
                 :: Ev (File_Close f) closed
                 :: tr'
            /\ upload_trace b ps' tr')
  end.

Definition trace_of {A} (m : Go A) (w : World) : list Event := snd (fst (m (w, []))).
Definition value_of {A} (m : Go A) (w : World) : A := snd (m (w, [])).
Definition world_of {A} (m : Go A) (w : World) : World := fst (fst (m (w, []))).

(** The call of an event, and the calls of a trace in order. *)
Definition call_of (ev : Event) : Call :=
  match ev with
  | Ev c _ => c
  end.

Definition calls (tr : list Event) : list Call := map call_of tr.

(** The error an event carries, when the world answered its call with one. *)
Definition failed (ev : Event) : option error :=
  match ev with
  | Ev c r =>
      match c return Resp c -> option error with
      | S3_CreateBucket _ _ | S3_BatchDelete _ | S3_DeleteBucket _ =>
          fun r => match r with Some e => Some (ErrAws e) | None => None end
      | STS_GetCallerIdentity =>
          fun r => match r with inl _ => None | inr e => Some e end
      | Iamauthenticator_Config _ _ _ _ =>
          fun r => match r with inl _ => None | inr e => Some e end
      | Kubeadmutil_MarshalToYaml _ =>
          fun r => match r with inl _ => None | inr e => Some e end
      | Os_Open _ =>
          fun r => match r with inl _ => None | inr e => Some e end
      | Filepath_Walk _ => fun _ => None
      | S3_Upload _ _ _ | Certs_CertTree | Certs_CreateTree _
      | Certs_CreateServiceAccountKeyAndPublicKeyFiles _ _
      | Kubeconfig_CreateKubeConfigFile _ _ _
      | Etcd_CreateLocalEtcdStaticPodManifestFile _ _ _
      | Controlplane_CreateStaticPodFiles _ _ _
      | Os_Stat _ | Os_MkdirAll _ _ | Ioutil_WriteFile _ _ _ | Os_RemoveAll _
      | File_Close _ => fun r => r
      end r
  end.

(** The errors the world answered in a trace, in order. *)
Definition failures (tr : list Event) : list error := omap failed tr.

(** The roots that were walked, in order. *)
Definition walks (tr : list Event) : list string :=
  omap (fun ev => match ev with
                  | Ev (Filepath_Walk root) _ => Some root
                  | _ => None
                  end) tr.

(** A run of [m] only adds events to the trace, and every call it adds
    satisfies [P]. *)
Definition emits {A} (P : Call -> Prop) (m : Go A) : Prop :=
  forall (w : World) (tr0 : list Event),
    exists tr, snd (fst (m (w, tr0))) = tr0 ++ tr /\ Forall P (calls tr).

(** The calls that write the configuration: the generators of kubeadm, the
    authenticator, STS, and the writes to the staging directory. *)
Definition is_generation (c : Call) : Prop :=
  match c with
  | Certs_CertTree | Certs_CreateTree _
  | Certs_CreateServiceAccountKeyAndPublicKeyFiles _ _
  | Kubeconfig_CreateKubeConfigFile _ _ _
  | Etcd_CreateLocalEtcdStaticPodManifestFile _ _ _
  | Controlplane_CreateStaticPodFiles _ _ _
  | Iamauthenticator_Config _ _ _ _ | Kubeadmutil_MarshalToYaml _
  | STS_GetCallerIdentity
  | Os_Stat _ | Os_MkdirAll _ _ | Ioutil_WriteFile _ _ _ => True
  | _ => False
  end.

(** What the upload of the directory [dir] to the bucket [b] may call: the
    walk of [dir], opens and closes, and uploads to [b]. *)
Definition upload_may_call (b dir : string) (c : Call) : Prop :=
  match c with
  | Filepath_Walk root => root = dir
  | S3_Upload b' _ _ => b' = b
  | Os_Open _ | File_Close _ => True
  | _ => False
  end.

(** What [Create] may call for a substrate: the generation calls; the
    creation of the bucket of the substrate in the region of the client; the
    walk of the staging directory of the substrate; opens and closes; uploads
    to the bucket of the substrate.  No deletion is among them. *)
Definition Create_may_call (substrate : Substrate) (c : Call) : Prop :=
  match c with
  | S3_CreateBucket b r => b = discovery_Name substrate [] /\ r = Region
  | S3_Upload b _ _ => b = bucketName substrate
  | Filepath_Walk root => root = path_Join [ClusterCertsBasePath; bucketName substrate]
  | Os_Open _ | File_Close _ => True
  | S3_BatchDelete _ | S3_DeleteBucket _ | Os_RemoveAll _ => False
  | c => is_generation c
  end.

(** What [Delete] may call for a substrate: the deletion of the objects and
    of the bucket of the substrate, and the removal of its staging directory. *)
Definition Delete_may_call (substrate : Substrate) (c : Call) : Prop :=
  c = S3_BatchDelete (discovery_Name substrate [])
  \/ c = S3_DeleteBucket (discovery_Name substrate [])
  \/ c = Os_RemoveAll (path_Join [ClusterCertsBasePath; bucketName substrate]).

End WithEnv.

End cluster.

(* ===================================================================== *)
(** ** Package [controlplane]: the dependency composer                    *)
(* ===================================================================== *)

Module controlplane.

(** The three stages the composer holds. *)
Inductive Stage := Etcd | Master | Addons.

(** An invocation of a stage, as the trace records it. *)
Inductive Invocation :=
| InvReconcile (s : Stage)
| InvFinalize (s : Stage).

(** What the composer takes from other packages: the world the stages act
    on, the object they reconcile, and the results of package [results]. *)
Class Env := mkEnv {
  World : Type;
  ControlPlane : Type;
  results_Created : Result;
  results_Failed : Result;
  results_Terminated : Result
}.

Section WithEnv.
Context `{E : Env}.

(** The interface [controlplane.Controller] of a stage. *)
Record Controller := mkController {
  ctl_Reconcile : ControlPlane -> World -> World * option error;
  ctl_Finalize : ControlPlane -> World -> World * option error
}.

Record controlPlane := mkControlPlane {
  etcdController : Controller;
  masterController : Controller;
  addonsController : Controller
}.

Definition State : Type := World * list Invocation.

Definition Go (A : Type) : Type := M State A.

(** A call of [resource.Reconcile(ctx, object)] for the stage [s]. *)
Definition invoke_Reconcile (s : Stage) (resource : Controller) (object : ControlPlane)
  : Go (option error) :=
  fun '(w, tr) => let (w', r) := ctl_Reconcile resource object w in
                  ((w', tr ++ [InvReconcile s]), r).

(** A call of [resource.Finalize(ctx, object)] for the stage [s]. *)
Definition invoke_Finalize (s : Stage) (resource : Controller) (object : ControlPlane)
  : Go (option error) :=
  fun '(w, tr) => let (w', r) := ctl_Finalize resource object w in
                  ((w', tr ++ [InvFinalize s]), r).

(** The body of the [for ... range] of [Reconcile]. *)
Fixpoint Reconcile_range (resources : list (Stage * Controller)) (object : ControlPlane)
  : Go (option Result * option error) :=
  match resources with
  | [] => ret (Some results_Created, None)
  | (s, resource) :: resources' =>
      check! invoke_Reconcile s resource object
      orelse err => (None, Some (Errorf_w "control plane reconciling, " err)) ;;
      Reconcile_range resources' object
  end.

(** Reconcile will reconcile all the components running on the control plane. *)
Definition Reconcile (c : controlPlane) (object : ControlPlane)
  : Go (option Result * option error) :=
  Reconcile_range [(Etcd, etcdController c);
                   (Master, masterController c);
                   (Addons, addonsController c)] object.

Definition Finalize (c : controlPlane) (object : ControlPlane)
  : Go (option Result * option error) :=
  check! invoke_Finalize Master (masterController c) object
  orelse err => (Some results_Failed, Some err) ;;
  ret (Some results_Terminated, None).

(** The trace a run leaves when started with an empty one. *)
Definition trace_of {A} (m : Go A) (w : World) : list Invocation := snd (fst (m (w, []))).

(** The value a run returns. *)
Definition value_of {A} (m : Go A) (w : World) : A := snd (m (w, [])).

(** The world a run leaves. *)
Definition world_of {A} (m : Go A) (w : World) : World := fst (fst (m (w, []))).

End WithEnv.

End controlplane.

(* ===================================================================== *)
(** ** Package [master]: the endpoint of the cluster                      *)
(* ===================================================================== *)

Module master.

Record NamespacedName := mkNamespacedName {
  Namespace : string;
  Name : string
}.

Record LoadBalancerIngress := mkLoadBalancerIngress {
  IP : string;
  Hostname : string
}.

(** [v1.Service], the fields read here. *)
Record Service := mkService {
  Service_Name : string;
  Service_Namespace : string;
  Ingress : list LoadBalancerIngress   (* Status.LoadBalancer.Ingress *)
}.

(** The client of the object store, and what package [errors] of the
    operator provides. *)
Class Env := mkEnv {
  World : Type;
  (** [client.Get(ctx, key, svc)]: the service read, or the error *)
  client_Get : NamespacedName -> World -> World * (Service + error);
  (** [errors.IsNotFound] *)
  errors_IsNotFound : error -> bool;
  (** the sentinel [errors.WaitingForSubResources] *)
  WaitingForSubResources : error
}.

(** service name length needs to be <63 for DNS names *)
Definition ServiceNameFor (clusterName : string) : string := clusterName +:+ "-cp".

Definition apiserverPortName (clusterName : string) : string :=
  ServiceNameFor clusterName +:+ "-port".

Definition labelsFor (clusterName : string) : gmap string string :=
  {[ "app" := ServiceNameFor clusterName ]}.

Section WithEnv.
Context `{E : Env}.

Definition GetClusterEndpoint (nn : NamespacedName) : M World (string * option error) :=
  r <- client_Get {| Namespace := Namespace nn; Name := ServiceNameFor (Name nn) |} ;;
  match r with
  | inr err =>
      if errors_IsNotFound err
      then ret ("", Some (Errorf_w "getting control plane endpoint, " WaitingForSubResources))
      else ret ("", Some (Errorf_w "getting cluster endpoint, " err))
  | inl svc =>
      match Ingress svc with
      | ingress :: _ => ret (Hostname ingress, None)
      | [] => ret ("", Some (Errorf_w "endpoint name, " WaitingForSubResources))
      end
  end.

End WithEnv.

End master.

(* ===================================================================== *)
(** ** Package [resource]: security groups                                *)
(* ===================================================================== *)

Module resource.

(** [v1alpha1.ControlPlane], the fields read here. *)
Record ControlPlane := mkControlPlane {
  Name : string;
  Namespace : string
}.

Record SecurityGroupSpec := mkSecurityGroupSpec {
  GroupName : string;
  ClusterName : string
}.

(** The object [v1alpha1.SecurityGroup]. *)
Record SecurityGroupObject := mkSecurityGroupObject {
  Object_Name : string;        (* ObjectMeta.Name *)
  Object_Namespace : string;   (* ObjectMeta.Namespace *)
  Object_Spec : SecurityGroupSpec
}.

(** A call to the client with its answer. *)
Inductive Event :=
| EvGet (ns name : string) (r : option error)
| EvCreate (obj : SecurityGroupObject) (r : option error).

(** The client of the object store, and what the package takes from the API
    package and from its own helpers. *)
Class Env := mkEnv {
  World : Type;
  (** [KubeClient.Get(ctx, NamespacedName(ns, name), result)] *)
  KubeClient_Get : string -> string -> World -> World * option error;
  (** [KubeClient.Create(ctx, obj)] *)
  KubeClient_Create : SecurityGroupObject -> World -> World * option error;
  (** [errors.IsNotFound] of the API machinery *)
  errors_IsNotFound : error -> bool;
  (** [v1alpha1.ComponentsSupported] *)
  ComponentsSupported : list string;
  (** [ObjectName(controlPlane, component)] *)
  ObjectName : ControlPlane -> string -> string;
  (** [v1alpha1.GroupName(name, component)] *)
  v1alpha1_GroupName : string -> string -> string
}.

Section WithEnv.
Context `{E : Env}.

Definition State : Type := World * list Event.

Definition Go (A : Type) : Type := M State A.

Definition Get (ns name : string) : Go (option error) :=
  fun '(w, tr) => let (w', r) := KubeClient_Get ns name w in
                  ((w', tr ++ [EvGet ns name r]), r).

Definition Create_object (obj : SecurityGroupObject) : Go (option error) :=
  fun '(w, tr) => let (w', r) := KubeClient_Create obj w in
                  ((w', tr ++ [EvCreate obj r]), r).

(** [ObjectMeta(controlPlane, component)] with the [Spec] of [create]: the
    object handed to the client. *)
Definition desired (component : string) (controlPlane : ControlPlane) : SecurityGroupObject :=
  {| Object_Name := ObjectName controlPlane component;
     Object_Namespace := Namespace controlPlane;
     Object_Spec := {| GroupName := v1alpha1_GroupName (Name controlPlane) component;
                       ClusterName := Name controlPlane |} |}.

Definition create (component : string) (controlPlane : ControlPlane) : Go (option error) :=
  check! Create_object (desired component controlPlane)
  orelse err => Some (Errorf_w "creating security group kube object, " err) ;;
  ret None.

Definition exists_ (ns objName : string) : Go (option error) :=
  check! Get ns objName orelse err => Some err ;;
  ret None.

(** The body of the [for ... range] of [Create]. *)
Fixpoint Create_range (components : list string) (controlPlane : ControlPlane)
  : Go (option error) :=
  match components with
  | [] => ret None
  | component :: components' =>
      r <- exists_ (Namespace controlPlane) (ObjectName controlPlane component) ;;
      match r with
      | Some err =>
          if errors_IsNotFound err
          then check! create component controlPlane
               orelse err => Some (Errorf_w "creating security group kube object, " err) ;;
               Create_range components' controlPlane
          else ret (Some (Errorf_w "getting security group object, " err))
      | None => Create_range components' controlPlane
      end
  end.

Definition Create (controlPlane : ControlPlane) : Go (option error) :=
  Create_range ComponentsSupported controlPlane.

(** *** Reading a trace *)

(** The objects whose creation was requested. *)
Definition create_attempts (tr : list Event) : list SecurityGroupObject :=
  omap (fun ev => match ev with EvCreate obj _ => Some obj | _ => None end) tr.

(** The keys that were looked up. *)
Definition lookups (tr : list Event) : list (string * string) :=
  omap (fun ev => match ev with EvGet ns name _ => Some (ns, name) | _ => None end) tr.

(** The keys whose lookup answered that there is no such object. *)
Definition found_absent (tr : list Event) : list (string * string) :=
  omap (fun ev => match ev with
                  | EvGet ns name (Some err) =>
                      if errors_IsNotFound err then Some (ns, name) else None
                  | _ => None
                  end) tr.

(** The keys whose lookup answered that the object is there. *)
Definition found_present (tr : list Event) : list (string * string) :=
  omap (fun ev => match ev with EvGet ns name None => Some (ns, name) | _ => None end) tr.

(** The answers that are failures: a lookup that failed for another reason
    than absence, a creation that failed. *)
Definition failures (tr : list Event) : list error :=
  omap (fun ev => match ev with
                  | EvGet _ _ (Some err) => if errors_IsNotFound err then None else Some err
                  | EvCreate _ (Some err) => Some err
                  | _ => None
                  end) tr.

Definition trace_of {A} (m : Go A) (w : World) : list Event := snd (fst (m (w, []))).
Definition value_of {A} (m : Go A) (w : World) : A := snd (m (w, [])).
Definition world_of {A} (m : Go A) (w : World) : World := fst (fst (m (w, []))).

End WithEnv.

End resource.

(* ===================================================================== *)
(** ** Package [addons]: kube-proxy                                       *)
(* ===================================================================== *)

Module addons.

Definition kubeSystem := "kube-system".
Definition defaultStr := "default".
Definition KubeProxyDaemonSetName := "kubeproxy-daemonset".

(** Constants of the API packages. *)
Definition rbacv1_ServiceAccountKind := "ServiceAccount".
Definition v1_DNSClusterFirst := "ClusterFirst".
Definition v1_TolerationOpExists := "Exists".
Definition v1_HostPathFileOrCreate := "FileOrCreate".
Definition v1_ResourceCPU := "cpu".
Definition appsv1_RollingUpdateDaemonSetStrategyType := "RollingUpdate".

(** [v1alpha1.ControlPlane], the fields read here. *)
Record ControlPlane := mkControlPlane {
  Name : string;
  Namespace : string;
  KubernetesVersion : string   (* Spec.KubernetesVersion *)
}.

(** [v1.Secret]. *)
Record Secret := mkSecret {
  Secret_Name : string;
  Secret_Namespace : string;
  Data : gmap string string
}.

(** [v1.ServiceAccount], by its [ObjectMeta]. *)
Record ServiceAccount := mkServiceAccount {
  SA_Name : string;
  SA_Namespace : string
}.

Record RoleRef := mkRoleRef {
  RoleRef_APIGroup : string;
  RoleRef_Kind : string;
  RoleRef_Name : string
}.

Record Subject := mkSubject {
  Subject_Kind : string;
  Subject_Name : string;
  Subject_Namespace : string
}.

Record ClusterRoleBinding := mkClusterRoleBinding {
  CRB_Name : string;
  CRB_RoleRef : RoleRef;
  CRB_Subjects : list Subject
}.

(** [clientcmdapi.Context] and [clientcmdapi.AuthInfo], the fields set here. *)
Record Context := mkContext {
  Context_Cluster : string;
  Context_Namespace : string;
  Context_AuthInfo : string
}.

Record AuthInfo := mkAuthInfo {
  TokenFile : string
}.

Record authRequest := mkAuthRequest {
  name : string;
  caCert : string
}.

(** [kubeconfigs.Request]. *)
Record Request := mkRequest {
  ClusterContext : string;
  Request_ClusterName : string;
  Request_Namespace : string;
  ApiServerEndpoint : string;
  Request_Name : string;
  Request_AuthInfo : authRequest;
  Contexts : gmap string Context
}.

Record VolumeMount := mkVolumeMount {
  VM_Name : string;
  VM_MountPath : string;
  VM_ReadOnly : bool
}.

Record KeyToPath := mkKeyToPath {
  Key : string;
  Path : string
}.

Inductive VolumeSource :=
| HostPath (path : string) (type : option string)
| SecretSource (secretName : string) (defaultMode : option Z) (items : list KeyToPath).

Record Volume := mkVolume {
  Volume_Name : string;
  Volume_Source : VolumeSource
}.

Record Toleration := mkToleration {
  Toleration_Operator : string
}.

Record Container := mkContainer {
  Container_Name : string;
  Image : string;
  Requests : gmap string string;   (* the quantities by the text they are parsed from *)
  Privileged : option bool;
  Command : list string;
  Args : list string;
  VolumeMounts : list VolumeMount
}.

Record PodSpec := mkPodSpec {
  TerminationGracePeriodSeconds : option Z;
  ServiceAccountName : string;
  HostNetwork : bool;
  DNSPolicy : string;
  PriorityClassName : string;
  Tolerations : list Toleration;
  Containers : list Container;
  Volumes : list Volume
}.

Record DaemonSet := mkDaemonSet {
  DS_Name : string;
  DS_Namespace : string;
  UpdateStrategy : string;
  MatchLabels : gmap string string;     (* Spec.Selector.MatchLabels *)
  Template_Labels : gmap string string; (* Spec.Template.ObjectMeta.Labels *)
  Template_Spec : PodSpec
}.

(** The calls to the two clients and to the reconcilers built on them. *)
Inductive Call :=
| EnsurePatch_ServiceAccount (obj : ServiceAccount)          (* kubeClient *)
| EnsureCreate_ClusterRoleBinding (obj : ClusterRoleBinding) (* kubeClient *)
| GetSecretFromServer (nn : master.NamespacedName)           (* substrateCluster *)
| ReconcileConfigFor (request : Request)                     (* kubeClient, no owner *)
| EnsurePatch_DaemonSet (obj : DaemonSet)                    (* kubeClient *).

Definition Resp (c : Call) : Type :=
  match c with
  | GetSecretFromServer _ => (option Secret * option error)%type
  | _ => option error
  end.

(** A call with its answer, or a run of [master.GetClusterEndpoint] with
    what it returned. *)
Inductive Event :=
| Ev (c : Call) (r : Resp c)
| EvEndpoint (nn : master.NamespacedName) (r : string * option error).

(** The world is the one the client of package [master] reads; the rest is
    what this package takes from other packages of the operator. *)
Class Env := mkEnv {
  master_Env : master.Env;
  ext : forall c : Call, @master.World master_Env -> @master.World master_Env * Resp c;
  (** [controlPlane.ClusterName()] *)
  ClusterName : ControlPlane -> string;
  (** [master.RootCASecretNameFor] *)
  master_RootCASecretNameFor : string -> string;
  (** [object.NamespacedName(name, namespace)] *)
  object_NamespacedName : string -> string -> master.NamespacedName;
  (** [secrets.Parse]: the key and the certificate of a secret *)
  secrets_Parse : option Secret -> string * string;
  (** [imageprovider.KubeProxy] *)
  imageprovider_KubeProxy : string -> string
}.

Section WithEnv.
Context `{E : Env}.

Definition World : Type := @master.World master_Env.

Definition State : Type := World * list Event.

Definition Go (A : Type) : Type := M State A.

Definition call (c : Call) : Go (Resp c) :=
  fun '(w, tr) => let (w', r) := ext c w in ((w', tr ++ [Ev c r]), r).

(** [master.GetClusterEndpoint(ctx, k.substrateCluster, nn)]. *)
Definition GetClusterEndpoint (nn : master.NamespacedName) : Go (string * option error) :=
  fun '(w, tr) =>
    let (w', r) := @master.GetClusterEndpoint master_Env nn w in
    ((w', tr ++ [EvEndpoint nn r]), r).

(** [for _, x := range l { if err := body(x); err != nil { return err } };
    return nil]. *)
Fixpoint range_err {A} (l : list A) (body : A -> Go (option error)) : Go (option error) :=
  match l with
  | [] => ret None
  | x :: l' => check! body x orelse err => Some err ;; range_err l' body
  end.

Definition KubeProxyConfigNameFor (clusterName : string) : string :=
  clusterName +:+ "-kubeproxy-config".

Definition labelsForKubeProxy : gmap string string := {[ "k8s-app" := "kube-proxy" ]}.

Definition authRequestFor (clusterName : string) (caSecret : option Secret) : authRequest :=
  let '(_, caCert) := secrets_Parse caSecret in
  {| name := KubeProxyConfigNameFor clusterName; caCert := caCert |}.

Definition Generate (r : authRequest) : gmap string AuthInfo * option error :=
  ({[ defaultStr := {| TokenFile := "/var/run/secrets/kubernetes.io/serviceaccount/token" |} ]},
   None).

Definition CACert (r : authRequest) : string := caCert r.

Definition kubeConfigRequest (endpoint ns : string) (auth : authRequest) : Request :=
  {| ClusterContext := defaultStr;
     Request_ClusterName := defaultStr;
     Request_Namespace := ns;
     ApiServerEndpoint := endpoint;
     Request_Name := name auth;
     Request_AuthInfo := auth;
     Contexts := {[ defaultStr := {| Context_Cluster := defaultStr;
                                     Context_Namespace := defaultStr;
                                     Context_AuthInfo := defaultStr |} ]} |}.

Definition kubeProxyPodSpecFor (controlPlane : ControlPlane) : PodSpec :=
  let hostPathFileOrCreate := v1_HostPathFileOrCreate in
  {| TerminationGracePeriodSeconds := Some 1%Z;
     ServiceAccountName := "kube-proxy";
     HostNetwork := true;
     DNSPolicy := v1_DNSClusterFirst;
     PriorityClassName := "system-node-critical";
     Tolerations := [{| Toleration_Operator := v1_TolerationOpExists |}];
     Containers :=
       [{| Container_Name := "kubeproxy";
           Image := imageprovider_KubeProxy (KubernetesVersion controlPlane);
           Requests := {[ v1_ResourceCPU := "1" ]};
           Privileged := Some true;
           Command := ["kube-proxy"];
           Args := ["--kubeconfig=/var/lib/kube-proxy/kubeconfig";
                    "--iptables-min-sync-period=0s";
                    "--oom-score-adj=-998"];
           VolumeMounts :=
             [{| VM_Name := "varlog"; VM_MountPath := "/var/log"; VM_ReadOnly := false |};
              {| VM_Name := "xtables-lock"; VM_MountPath := "/run/xtables.lock";
                 VM_ReadOnly := false |};
              {| VM_Name := "lib-modules"; VM_MountPath := "/lib/modules";
                 VM_ReadOnly := true |};
              {| VM_Name := "kubeproxy-kubeconfig"; VM_MountPath := "/var/lib/kube-proxy";
                 VM_ReadOnly := true |}] |}];
     Volumes :=
       [{| Volume_Name := "varlog"; Volume_Source := HostPath "/var/log" None |};
        {| Volume_Name := "xtables-lock";
           Volume_Source := HostPath "/run/xtables.lock" (Some hostPathFileOrCreate) |};
        {| Volume_Name := "lib-modules"; Volume_Source := HostPath "/lib/modules" None |};
        {| Volume_Name := "kubeproxy-kubeconfig";
           Volume_Source :=
             SecretSource (KubeProxyConfigNameFor (ClusterName controlPlane))
               (Some 256%Z)   (* 0400 *)
               [{| Key := "config"; Path := "kubeconfig" |}] |}] |}.

(** The object [serviceAccount] hands to the client. *)
Definition kubeProxyServiceAccount : ServiceAccount :=
  {| SA_Name := "kube-proxy"; SA_Namespace := kubeSystem |}.

Definition serviceAccount (_ : ControlPlane) : Go (option error) :=
  call (EnsurePatch_ServiceAccount kubeProxyServiceAccount).

(** The object [clusterRoleBinding] hands to the client. *)
Definition kubeProxyClusterRoleBinding : ClusterRoleBinding :=
  {| CRB_Name := "kit:kube-proxy";
     CRB_RoleRef := {| RoleRef_APIGroup := "rbac.authorization.k8s.io";
                       RoleRef_Kind := "ClusterRole";
                       RoleRef_Name := "system:node-proxier" |};
     CRB_Subjects := [{| Subject_Kind := rbacv1_ServiceAccountKind;
                         Subject_Name := "kube-proxy";
                         Subject_Namespace := kubeSystem |}] |}.

Definition clusterRoleBinding (_ : ControlPlane) : Go (option error) :=
  call (EnsureCreate_ClusterRoleBinding kubeProxyClusterRoleBinding).

Definition controlPlaneCASecret (controlPlane : ControlPlane)
  : Go (option Secret * option error) :=
  call (GetSecretFromServer
          (object_NamespacedName (master_RootCASecretNameFor (ClusterName controlPlane))
             (Namespace controlPlane))).

Definition controlPlaneEndPoint (controlPlane : ControlPlane) : Go (string * option error) :=
  GetClusterEndpoint (object_NamespacedName (ClusterName controlPlane) (Namespace controlPlane)).

Definition kubeConfig (controlPlane : ControlPlane) : Go (option error) :=
  bind (controlPlaneCASecret controlPlane) (fun '(caSecret, err) =>
  check! ret err orelse err => Some (Errorf_w "getting ca certificate, " err) ;;
  bind (controlPlaneEndPoint controlPlane) (fun '(endpoint, err) =>
  check! ret err orelse err => Some (Errorf_w "getting cluster endpoint, " err) ;;
  (* controlPlane is nil as the owner for secret object is not required *)
  check! call (ReconcileConfigFor
                 (kubeConfigRequest endpoint kubeSystem
                    (authRequestFor (ClusterName controlPlane) caSecret)))
  orelse err => Some (Errorf_w "reconciling kubeconfig for kube-proxy, " err) ;;
  ret None)).

(** The object [daemonsetForKubeProxy] hands to the client. *)
Definition kubeProxyDaemonSet (controlPlane : ControlPlane) : DaemonSet :=
  let podSpec := kubeProxyPodSpecFor controlPlane in
  {| DS_Name := KubeProxyDaemonSetName;
     DS_Namespace := kubeSystem;
     UpdateStrategy := appsv1_RollingUpdateDaemonSetStrategyType;
     MatchLabels := labelsForKubeProxy;
     Template_Labels := labelsForKubeProxy;
     Template_Spec := podSpec |}.

Definition daemonsetForKubeProxy (controlPlane : ControlPlane) : Go (option error) :=
  (* TODO merge custom flags from the user *)
  call (EnsurePatch_DaemonSet (kubeProxyDaemonSet controlPlane)).

Definition Reconcile (controlPlane : ControlPlane) : Go (option error) :=
  range_err [serviceAccount; clusterRoleBinding; kubeConfig; daemonsetForKubeProxy]
    (fun reconcileResource => reconcileResource controlPlane).

Definition Finalize (_ : ControlPlane) : Go (option error) := ret None.

(** *** Reading a trace *)

(** What an event was a step of: a call, or the look-up of the endpoint. *)
Inductive Step :=
| Called (c : Call)
| Endpoint (nn : master.NamespacedName).

Definition step_of (ev : Event) : Step :=
  match ev with
  | Ev c _ => Called c
  | EvEndpoint nn _ => Endpoint nn
  end.

Definition steps (tr : list Event) : list Step := map step_of tr.

(** The error an event carries, when there is one. *)
Definition failed (ev : Event) : option error :=
  match ev with
  | Ev c r =>
      match c return Resp c -> option error with
      | GetSecretFromServer _ => fun r => snd r
      | EnsurePatch_ServiceAccount _ | EnsureCreate_ClusterRoleBinding _
      | ReconcileConfigFor _ | EnsurePatch_DaemonSet _ => fun r => r
      end r
  | EvEndpoint _ r => snd r
  end.

Definition failures (tr : list Event) : list error := omap failed tr.

End WithEnv.

End addons.

(* ===================================================================== *)
(** ** Small concrete worlds                                              *)
(* ===================================================================== *)

(** A world for the composer: the stages write what they did into a log,
    and a stage fails when it is listed as broken. *)
Module controlplane_world.
Import controlplane.

#[export] Instance env : Env :=
  {| World := list string;
     ControlPlane := string;
     results_Created := {| Requeue := false; RequeueAfter := 0 |};
     results_Failed := {| Requeue := true; RequeueAfter := 10 |};
     results_Terminated := {| Requeue := false; RequeueAfter := 0 |} |}.

(** The stage [name]; it fails in [Reconcile] or [Finalize] when asked to. *)
Definition stage (name : string) (failReconcile failFinalize : bool) : Controller :=
  {| ctl_Reconcile := fun object (w : World) =>
       if failReconcile then (w, Some (ErrText (name +:+ " is broken")))
       else (w ++ [name +:+ " reconciled for " +:+ object], None);
     ctl_Finalize := fun object (w : World) =>
       if failFinalize then (w, Some (ErrText (name +:+ " cannot be removed")))
       else (w ++ [name +:+ " finalized for " +:+ object], None) |}.

(** All three stages work. *)
Definition healthy : controlPlane :=
  {| etcdController := stage "etcd" false false;
     masterController := stage "master" false false;
     addonsController := stage "addons" false false |}.

(** The master stage is broken, the other two work. *)
Definition brokenMaster : controlPlane :=
  {| etcdController := stage "etcd" false false;
     masterController := stage "master" true true;
     addonsController := stage "addons" false false |}.

End controlplane_world.

(** A world for [GetClusterEndpoint]: the services of the object store, by
    namespace and name. *)
Module master_world.
Import master.

Definition NotFound (name : string) : error :=
  ErrStatus "NotFound" ("services " +:+ name +:+ " not found").

#[export] Instance env : Env :=
  {| World := gmap (string * string) Service;
     client_Get := fun key (w : gmap (string * string) Service) =>
       (w, match w !! (Namespace key, Name key) with
           | Some svc => inl svc
           | None => inr (NotFound (Name key))
           end);
     errors_IsNotFound := fun err =>
       match err with
       | ErrStatus reason _ => String.eqb reason "NotFound"
       | _ => false
       end;
     WaitingForSubResources := ErrText "waiting for subresources" |}.

(** The service of the cluster [c1] once its load balancer has a name. *)
Definition provisioned : gmap (string * string) Service :=
  {[ ("tenant", "c1-cp") :=
       {| Service_Name := "c1-cp"; Service_Namespace := "tenant";
          Ingress := [{| IP := ""; Hostname := "lb-1.elb.amazonaws.com" |};
                      {| IP := ""; Hostname := "lb-2.elb.amazonaws.com" |}] |} ]}.

(** The same service before the load balancer has a name. *)
Definition pending : gmap (string * string) Service :=
  {[ ("tenant", "c1-cp") :=
       {| Service_Name := "c1-cp"; Service_Namespace := "tenant"; Ingress := [] |} ]}.

End master_world.

(** A world for the security groups: the objects of the store by namespace
    and name, and whether the API server answers at all. *)
Module resource_world.
Import resource.

Record Store := mkStore {
  objects : gmap (string * string) SecurityGroupObject;
  available : bool
}.

Definition Unavailable : error := ErrStatus "ServiceUnavailable" "the server is unavailable".

#[export] Instance env : Env :=
  {| World := Store;
     KubeClient_Get := fun ns name (w : Store) =>
       if available w then
         match objects w !! (ns, name) with
         | Some _ => (w, None)
         | None => (w, Some (ErrStatus "NotFound" (name +:+ " not found")))
         end
       else (w, Some Unavailable);
     KubeClient_Create := fun obj (w : Store) =>
       if available w then
         match objects w !! (Object_Namespace obj, Object_Name obj) with
         | Some _ => (w, Some (ErrStatus "AlreadyExists" (Object_Name obj +:+ " already exists")))
         | None =>
             ({| objects := <[(Object_Namespace obj, Object_Name obj) := obj]> (objects w);
                 available := true |}, None)
         end
       else (w, Some Unavailable);
     errors_IsNotFound := fun err =>
       match err with
       | ErrStatus reason _ => String.eqb reason "NotFound"
       | _ => false
       end;
     ComponentsSupported := ["master"; "etcd"];
     ObjectName := fun cp component => Name cp +:+ "-" +:+ component;
     v1alpha1_GroupName := fun name component => name +:+ "-" +:+ component +:+ "-group" |}.

Definition cp : ControlPlane := {| Name := "c1"; Namespace := "tenant" |}.

(** The security group of the master exists already, the one of etcd does not. *)
Definition masterExists : Store :=
  {| objects := {[ ("tenant", "c1-master") := desired "master" cp ]};
     available := true |}.

(** Both security groups exist already. *)
Definition bothExist : Store :=
  {| objects := {[ ("tenant", "c1-master") := desired "master" cp;
                   ("tenant", "c1-etcd") := desired "etcd" cp ]};
     available := true |}.

(** The API server does not answer. *)
Definition down : Store := {| objects := ∅; available := false |}.

End resource_world.

(** A world for package [cluster]: the buckets of S3 with their keys, the
    files of the staging directory in the order of the walk (with whether
    they can be opened), and the handles that are open. *)
Module cluster_world.
Import cluster.

Record Disk := mkDisk {
  buckets : gmap string (list string);
  files : list (string * bool);
  fds : list File;
  next_fd : File;
  s3_denied : bool
}.

Definition set_buckets (b : gmap string (list string)) (w : Disk) : Disk :=
  {| buckets := b; files := files w; fds := fds w; next_fd := next_fd w;
     s3_denied := s3_denied w |}.

Definition set_files (fs : list (string * bool)) (w : Disk) : Disk :=
  {| buckets := buckets w; files := fs; fds := fds w; next_fd := next_fd w;
     s3_denied := s3_denied w |}.

Definition AccessDenied : awserr.Error :=
  {| awserr.Code := "AccessDenied"; awserr.Message := "Access Denied"; awserr.Detail := "" |}.

Definition NoSuchBucket : awserr.Error :=
  {| awserr.Code := "NoSuchBucket";
     awserr.Message := "The specified bucket does not exist";
     awserr.Detail := "" |}.

(** The error of a batch deletion whose listing met a missing bucket. *)
Definition BatchedDeleteIncomplete : awserr.Error :=
  {| awserr.Code := "BatchedDeleteIncomplete";
     awserr.Message := "some objects have failed to be deleted.";
     awserr.Detail := ":
failed to perform batch operation on nil to nil:
NoSuchBucket: The specified bucket does not exist" |}.

Definition AlreadyOwned : awserr.Error :=
  {| awserr.Code := "BucketAlreadyOwnedByYou";
     awserr.Message := "Your previous request to create the named bucket succeeded and you already own it.";
     awserr.Detail := "" |}.

Definition BucketNotEmpty : awserr.Error :=
  {| awserr.Code := "BucketNotEmpty";
     awserr.Message := "The bucket you tried to delete is not empty";
     awserr.Detail := "" |}.

(** Drop the slashes at the start of a string. *)
Fixpoint drop_slashes (s : string) : string :=
  match s with
  | String "/" s' => drop_slashes s'
  | _ => s
  end.

(** Drop the slashes at the end of a string. *)
Fixpoint drop_end_slashes (s : string) : string :=
  match s with
  | EmptyString => EmptyString
  | String c s' =>
      match drop_end_slashes s' with
      | EmptyString => if Ascii.eqb c "/" then EmptyString else String c EmptyString
      | t => String c t
      end
  end.

(** A join of absolute paths that is good enough for the paths below. *)
Definition join (elems : list string) : string :=
  "/" +:+ String.concat "/"
            (filter (fun e => e <> "") (map (fun e => drop_slashes (drop_end_slashes e)) elems)).

Definition readable (p : string) (fs : list (string * bool)) : bool :=
  existsb (fun f => String.eqb (fst f) p && snd f) fs.

Definition answer (c : Call) (w : Disk) : Disk * Resp c :=
  match c as c0 return Disk * Resp c0 with
  | S3_CreateBucket b _ =>
      if s3_denied w then (w, Some AccessDenied)
      else match buckets w !! aws_StringValue b with
           | Some _ => (w, Some AlreadyOwned)
           | None => (set_buckets (<[aws_StringValue b := []]> (buckets w)) w, None)
           end
  | S3_BatchDelete b =>
      if s3_denied w then (w, Some AccessDenied)
      else match buckets w !! aws_StringValue b with
           | Some _ => (set_buckets (<[aws_StringValue b := []]> (buckets w)) w, None)
           | None => (w, Some BatchedDeleteIncomplete)
           end
  | S3_DeleteBucket b =>
      if s3_denied w then (w, Some AccessDenied)
      else match buckets w !! aws_StringValue b with
           | Some [] => (set_buckets (delete (aws_StringValue b) (buckets w)) w, None)
           | Some _ => (w, Some BucketNotEmpty)
           | None => (w, Some NoSuchBucket)
           end
  | S3_Upload b k _ =>
      if s3_denied w then (w, Some (ErrAws AccessDenied))
      else match buckets w !! b with
           | Some keys => (set_buckets (<[b := keys ++ [k]]> (buckets w)) w, None)
           | None => (w, Some (ErrAws NoSuchBucket))
           end
  | STS_GetCallerIdentity => (w, inl (Some "123456789012"))
  | Iamauthenticator_Config _ _ _ _ => (w, inl {[ "config.yaml" := "clusterID: c1" ]})
  | Kubeadmutil_MarshalToYaml _ => (w, inl "kind: Pod")
  | Os_Open p =>
      if readable p (files w)
      then ({| buckets := buckets w; files := files w; fds := fds w ++ [next_fd w];
               next_fd := S (next_fd w); s3_denied := s3_denied w |}, inl (next_fd w))
      else (w, inr (ErrOs false ("open " +:+ p +:+ ": permission denied")))
  | Filepath_Walk root =>
      (w, {| we_path := root; we_IsDir := true; we_err := None |}
          :: map (fun f => {| we_path := fst f; we_IsDir := false; we_err := None |}) (files w))
  | File_Close f =>
      if existsb (Nat.eqb f) (fds w)
      then ({| buckets := buckets w; files := files w; fds := remove_first f (fds w);
               next_fd := next_fd w; s3_denied := s3_denied w |}, None)
      else (w, Some (ErrOs false "file already closed"))
  | Ioutil_WriteFile p _ _ =>
      if existsb (fun f => String.eqb (fst f) p) (files w) then (w, None)
      else (set_files (files w ++ [(p, true)]) w, None)
  | Os_RemoveAll _ => (set_files [] w, None)
  | _ => (w, None)
  end.

#[export] Instance env : Env :=
  {| World := Disk;
     ext := answer;
     Region := Some "us-west-2";
     discovery_Name := fun substrate suffixes =>
       Some (String.concat "-" (Name substrate :: suffixes));
     path_Join := join;
     kubeconfigFile := "etc/kubernetes/admin.conf";
     DefaultedStaticInitConfiguration :=
       {| KubernetesVersion := ""; ImageRepository := ""; Etcd_Local := None;
          AdvertiseAddress := ""; BindPort := 6443; ControlPlaneEndpoint := "";
          APIServer_CertSANs := []; APIServer_ExtraArgs := None;
          APIServer_ExtraVolumes := []; Scheduler_ExtraArgs := None;
          ControllerManager_ExtraArgs := None; NodeRegistration_Name := "";
          KubeletExtraArgs := None; CertificatesDir := "/etc/kubernetes/pki" |};
     iamauthenticator_PodSpec := fun opt =>
       opt {| Pod_Name := "aws-iam-authenticator"; Pod_Namespace := "";
              Pod_Volumes := []; Pod_Containers := ["aws-iam-authenticator"] |};
     os_ErrInvalid := ErrOs false "invalid argument" |}.

(** Nothing yet: no bucket, no file. *)
Definition empty : Disk :=
  {| buckets := ∅; files := []; fds := []; next_fd := 3; s3_denied := false |}.

(** Five files in the staging directory, the third of which cannot be
    opened, and the bucket of the substrate. *)
Definition fiveFiles : Disk :=
  {| buckets := {[ "s1" := [] ]};
     files := [("f1", true); ("f2", true); ("f3", false); ("f4", true); ("f5", true)];
     fds := []; next_fd := 3; s3_denied := false |}.

(** S3 refuses every request. *)
Definition denied : Disk :=
  {| buckets := ∅; files := []; fds := []; next_fd := 3; s3_denied := true |}.

(** A substrate whose load balancer has no address yet, and the same with
    an address. *)
Definition waiting : Substrate :=
  {| Name := "s1"; Namespace := "default";
     Spec := {| VPC := None; Subnets := []; InstanceType := None |};
     Status := {| Cluster := {| Address := None; KubeConfig := None |};
                  Conditions := [] |} |}.

Definition addressed : Substrate :=
  {| Name := "s1"; Namespace := "default";
     Spec := {| VPC := None; Subnets := []; InstanceType := None |};
     Status := {| Cluster := {| Address := Some "10.0.0.1"; KubeConfig := None |};
                  Conditions := [] |} |}.

(** An iterator over the five files. *)
Definition fiveIterator : DirectoryIterator :=
  {| filePaths := ["f1"; "f2"; "f3"; "f4"; "f5"]; bucket := "s1";
     next_path := ""; next_f := None; err := None |}.

End cluster_world.

(** A world for kube-proxy: the services of the substrate cluster as in
    [master_world]; the guest cluster accepts whatever it is handed, and the
    substrate cluster has the CA secret of the cluster c1 only. *)
Module addons_world.
Import addons.

Definition NotFound (what : string) : error :=
  ErrStatus "NotFound" ("secrets " +:+ what +:+ " not found").

Definition answer (c : Call) (w : gmap (string * string) master.Service)
  : gmap (string * string) master.Service * Resp c :=
  match c return gmap (string * string) master.Service * Resp c with
  | GetSecretFromServer nn =>
      if String.eqb (master.Name nn) "c1-ca"
      then (w, (Some {| Secret_Name := master.Name nn;
                        Secret_Namespace := master.Namespace nn;
                        Data := {[ "private" := "key of c1"; "public" := "cert of c1" ]} |},
                None))
      else (w, (None, Some (NotFound (master.Name nn))))
  | EnsurePatch_ServiceAccount _ | EnsureCreate_ClusterRoleBinding _
  | ReconcileConfigFor _ | EnsurePatch_DaemonSet _ => (w, None)
  end.

#[export] Instance env : Env :=
  {| master_Env := master_world.env;
     ext := answer;
     ClusterName := Name;
     master_RootCASecretNameFor := fun clusterName => clusterName +:+ "-ca";
     object_NamespacedName := fun name namespace =>
       {| master.Namespace := namespace; master.Name := name |};
     secrets_Parse := fun secret =>
       match secret with
       | Some s => (default "" (Data s !! "private"), default "" (Data s !! "public"))
       | None => ("", "")
       end;
     imageprovider_KubeProxy := fun version => "kube-proxy:" +:+ version |}.

Definition c1 : ControlPlane :=
  {| Name := "c1"; Namespace := "tenant"; KubernetesVersion := "1.21" |}.

End addons_world.

(* ===================================================================== *)
(** * Part II: properties                                                 *)
(* ===================================================================== *)

Module controlplane_facts.
Import controlplane.

Section WithEnv.
Context `{E : Env}.

Lemma invoke_Reconcile_eq s resource object w tr :
  invoke_Reconcile s resource object (w, tr) =
  ((fst (ctl_Reconcile resource object w), tr ++ [InvReconcile s]),
   snd (ctl_Reconcile resource object w)).
Proof. unfold invoke_Reconcile. now destruct (ctl_Reconcile resource object w). Qed.

Lemma invoke_Finalize_eq s resource object w tr :
  invoke_Finalize s resource object (w, tr) =
  ((fst (ctl_Finalize resource object w), tr ++ [InvFinalize s]),
   snd (ctl_Finalize resource object w)).
Proof. unfold invoke_Finalize. now destruct (ctl_Finalize resource object w). Qed.

(** One turn of the loop of [Reconcile]: a failing stage ends the loop with
    the wrapped error, a successful one hands over to the rest. *)
Lemma Reconcile_range_cons s resource resources object w tr :
  Reconcile_range ((s, resource) :: resources) object (w, tr) =
  match snd (ctl_Reconcile resource object w) with
  | Some err =>
      ((fst (ctl_Reconcile resource object w), tr ++ [InvReconcile s]),
       (None, Some (ErrWrap "control plane reconciling, " err)))
  | None =>
      Reconcile_range resources object
        (fst (ctl_Reconcile resource object w), tr ++ [InvReconcile s])
  end.
Proof.
  cbn [Reconcile_range]. unfold on_err, bind.
  rewrite invoke_Reconcile_eq.
  now destruct (snd (ctl_Reconcile resource object w)).
Qed.

(** Whatever the stages do, the loop invokes a prefix of its list, in the
    order of the list, and nothing else. *)
Lemma Reconcile_range_trace resources object w tr :
  exists n,
    snd (fst (Reconcile_range resources object (w, tr))) =
    tr ++ map (fun r => InvReconcile (fst r)) (take n resources).
Proof.
  revert w tr; induction resources as [|[s resource] resources IH]; intros w tr.
  - exists 0. cbn. now rewrite app_nil_r.
  - rewrite Reconcile_range_cons.
    destruct (snd (ctl_Reconcile resource object w)).
    + exists 1. reflexivity.
    + destruct (IH (fst (ctl_Reconcile resource object w)) (tr ++ [InvReconcile s])) as [n Hn].
      exists (S n). rewrite Hn. cbn. now rewrite <- app_assoc.
Qed.

(** C2. [Reconcile] invokes the stages etcd, master, addons in this order.
    The first stage that fails ends the call: the result is nil with the
    error of that stage wrapped (control plane reconciling), the world is the
    one that stage left, and no later stage is invoked.  When no stage fails
    all three have been invoked and the result is [results.Created]. *)
Theorem Reconcile_forward_until_first_error (c : controlPlane) (object : ControlPlane)
    (w : World) (tr : list Invocation) :
  let r1 := ctl_Reconcile (etcdController c) object w in
  let r2 := ctl_Reconcile (masterController c) object (fst r1) in
  let r3 := ctl_Reconcile (addonsController c) object (fst r2) in
  let wrapped err := ErrWrap "control plane reconciling, " err in
  Reconcile c object (w, tr) =
  match snd r1, snd r2, snd r3 with
  | Some err, _, _ =>
      ((fst r1, tr ++ [InvReconcile Etcd]), (None, Some (wrapped err)))
  | None, Some err, _ =>
      ((fst r2, tr ++ [InvReconcile Etcd; InvReconcile Master]), (None, Some (wrapped err)))
  | None, None, Some err =>
      ((fst r3, tr ++ [InvReconcile Etcd; InvReconcile Master; InvReconcile Addons]),
       (None, Some (wrapped err)))
  | None, None, None =>
      ((fst r3, tr ++ [InvReconcile Etcd; InvReconcile Master; InvReconcile Addons]),
       (Some results_Created, None))
  end.
Proof.
  intros r1 r2 r3 wrapped. unfold Reconcile.
  rewrite Reconcile_range_cons. fold r1.
  destruct (snd r1) as [e1|]; [reflexivity|].
  rewrite Reconcile_range_cons. fold r2.
  destruct (snd r2) as [e2|]; [now rewrite <- app_assoc|].
  rewrite Reconcile_range_cons. fold r3.
  destruct (snd r3) as [e3|]; cbn; now rewrite <- !app_assoc.
Qed.

(** C1, as the code has it. [Finalize] invokes the [Finalize] of the master
    stage and of no other stage: the world it leaves is the one the master
    stage left.  An error of the master stage is returned as it is, with
    [results.Failed]; otherwise the result is [results.Terminated]. *)
Theorem Finalize_invokes_master_only (c : controlPlane) (object : ControlPlane)
    (w : World) (tr : list Invocation) :
  let r := ctl_Finalize (masterController c) object w in
  Finalize c object (w, tr) =
  ((fst r, tr ++ [InvFinalize Master]),
   match snd r with
   | Some err => (Some results_Failed, Some err)
   | None => (Some results_Terminated, None)
   end).
Proof.
  intros r. unfold Finalize, on_err, bind. rewrite invoke_Finalize_eq. fold r.
  now destruct (snd r).
Qed.

End WithEnv.

Import controlplane_world.

(** C2 on the world where the master stage is broken: etcd has been
    reconciled, the error of master comes back wrapped, addons was never
    invoked. *)
Lemma Reconcile_brokenMaster :
  Reconcile brokenMaster "cp" ([], []) =
  ((["etcd reconciled for cp"], [InvReconcile Etcd; InvReconcile Master]),
   (None, Some (ErrWrap "control plane reconciling, " (ErrText "master is broken")))).
Proof. exact (Reconcile_forward_until_first_error brokenMaster "cp" [] []). Defined.

(** C1 fails as stated. With three stages that all succeed, [Finalize]
    invokes the master stage alone: the trace is not addons, master, etcd, and
    the world shows that neither addons nor etcd was finalized. *)
Lemma Finalize_not_in_reverse_order :
  trace_of (Finalize healthy "cp") [] = [InvFinalize Master]
  /\ trace_of (Finalize healthy "cp") []
     <> [InvFinalize Addons; InvFinalize Master; InvFinalize Etcd]
  /\ world_of (Finalize healthy "cp") [] = ["master finalized for cp"]
  /\ value_of (Finalize healthy "cp") [] = (Some results_Terminated, None).
Proof. repeat split; try reflexivity. discriminate. Qed.

(** C1 on the world where the master stage is broken: its error is
    returned as it is. *)
Lemma Finalize_brokenMaster :
  Finalize brokenMaster "cp" ([], []) =
  (([], [InvFinalize Master]),
   (Some results_Failed, Some (ErrText "master cannot be removed"))).
Proof. exact (Finalize_invokes_master_only brokenMaster "cp" [] []). Defined.

End controlplane_facts.

Module master_facts.
Import master.

Lemma errors_Is_refl (e : error) : errors_Is e e = true.
Proof.
  destruct e; cbn [errors_Is];
    match goal with |- context [error_eq_dec ?a ?b] => destruct (error_eq_dec a b) end;
    congruence.
Qed.

(** An error made with [%w] is, for [errors.Is], the error it wraps. *)
Lemma errors_Is_Errorf_w (pre : string) (e : error) : errors_Is (Errorf_w pre e) e = true.
Proof.
  unfold Errorf_w. cbn [errors_Is].
  destruct (error_eq_dec (ErrWrap pre e) e); [reflexivity | apply errors_Is_refl].
Qed.

Section WithEnv.
Context `{E : Env}.

(** C8. [GetClusterEndpoint] reads the service named after the cluster with
    the suffix -cp.  When the read succeeds and the service has an ingress
    entry, the host name of the first entry is returned with no error.  When
    the read fails with a not-found error, or the service has no ingress
    entry, the result is the empty string and an error that wraps the
    sentinel [WaitingForSubResources] (and, in the not-found case, does not
    carry the error of the read). *)
Theorem GetClusterEndpoint_ready_or_waiting (nn : NamespacedName) (w : World) :
  let r := client_Get {| Namespace := Namespace nn; Name := Name nn +:+ "-cp" |} w in
  (forall svc ingress rest,
      snd r = inl svc -> Ingress svc = ingress :: rest ->
      GetClusterEndpoint nn w = (fst r, (Hostname ingress, None)))
  /\ (forall err,
      snd r = inr err -> errors_IsNotFound err = true ->
      GetClusterEndpoint nn w =
        (fst r, ("", Some (ErrWrap "getting control plane endpoint, " WaitingForSubResources)))
      /\ errors_Is (ErrWrap "getting control plane endpoint, " WaitingForSubResources)
           WaitingForSubResources = true)
  /\ (forall svc,
      snd r = inl svc -> Ingress svc = [] ->
      GetClusterEndpoint nn w =
        (fst r, ("", Some (ErrWrap "endpoint name, " WaitingForSubResources)))
      /\ errors_Is (ErrWrap "endpoint name, " WaitingForSubResources)
           WaitingForSubResources = true).
Proof.
  intros r. unfold GetClusterEndpoint, bind, ServiceNameFor. fold r.
  destruct r as [w' [svc|err]]; cbn [fst snd].
  - split; [|split].
    + intros svc' ingress rest [= <-] ->. reflexivity.
    + intros err [=].
    + intros svc' [= <-] ->. split; [reflexivity | apply errors_Is_Errorf_w].
  - split; [|split].
    + intros svc' ingress rest [=].
    + intros err' [= <-] ->. split; [reflexivity | apply errors_Is_Errorf_w].
    + intros svc' [=].
Qed.

End WithEnv.

Import master_world.

(** C8 on concrete stores: a provisioned service gives its first host name;
    a service without ingress and a missing service give the sentinel. *)
Lemma GetClusterEndpoint_examples :
  GetClusterEndpoint {| Namespace := "tenant"; Name := "c1" |} provisioned
    = (provisioned, ("lb-1.elb.amazonaws.com", None))
  /\ GetClusterEndpoint {| Namespace := "tenant"; Name := "c1" |} pending
    = (pending, ("", Some (ErrWrap "endpoint name, " (ErrText "waiting for subresources"))))
  /\ GetClusterEndpoint {| Namespace := "tenant"; Name := "c1" |} ∅
    = (∅, ("", Some (ErrWrap "getting control plane endpoint, "
                      (ErrText "waiting for subresources")))).
Proof.
  split; [|split].
  - exact (proj1 (GetClusterEndpoint_ready_or_waiting
                    {| Namespace := "tenant"; Name := "c1" |} provisioned)
             _ _ _ eq_refl eq_refl).
  - exact (proj1 (proj2 (proj2 (GetClusterEndpoint_ready_or_waiting
                    {| Namespace := "tenant"; Name := "c1" |} pending))
             _ eq_refl eq_refl)).
  - exact (proj1 (proj1 (proj2 (GetClusterEndpoint_ready_or_waiting
                    {| Namespace := "tenant"; Name := "c1" |} ∅))
             _ eq_refl eq_refl)).
Defined.

End master_facts.

Module resource_facts.
Import resource.

Section WithEnv.
Context `{E : Env}.

Lemma Get_eq ns name w tr :
  Get ns name (w, tr) =
  ((fst (KubeClient_Get ns name w), tr ++ [EvGet ns name (snd (KubeClient_Get ns name w))]),
   snd (KubeClient_Get ns name w)).
Proof. unfold Get. now destruct (KubeClient_Get ns name w). Qed.

Lemma Create_object_eq obj w tr :
  Create_object obj (w, tr) =
  ((fst (KubeClient_Create obj w), tr ++ [EvCreate obj (snd (KubeClient_Create obj w))]),
   snd (KubeClient_Create obj w)).
Proof. unfold Create_object. now destruct (KubeClient_Create obj w). Qed.

(** One turn of the loop of [Create]. *)
Lemma Create_range_cons component components cp w tr :
  let ns := Namespace cp in
  let name := ObjectName cp component in
  let g := KubeClient_Get ns name w in
  let c := KubeClient_Create (desired component cp) (fst g) in
  Create_range (component :: components) cp (w, tr) =
  match snd g with
  | None => Create_range components cp (fst g, tr ++ [EvGet ns name None])
  | Some err =>
      if errors_IsNotFound err then
        match snd c with
        | None =>
            Create_range components cp
              (fst c, tr ++ [EvGet ns name (Some err); EvCreate (desired component cp) None])
        | Some err' =>
            ((fst c, tr ++ [EvGet ns name (Some err);
                            EvCreate (desired component cp) (Some err')]),
             Some (ErrWrap "creating security group kube object, "
                     (ErrWrap "creating security group kube object, " err')))
        end
      else ((fst g, tr ++ [EvGet ns name (Some err)]),
            Some (ErrWrap "getting security group object, " err))
  end.
Proof.
  intros ns name g c. cbn [Create_range]. unfold exists_, create, on_err, bind.
  rewrite Get_eq. fold ns name g.
  destruct (snd g) as [err|]; cbn [ret]; [|reflexivity].
  destruct (errors_IsNotFound err); [|reflexivity].
  rewrite Create_object_eq. fold c.
  destruct (snd c) as [err'|]; cbn [ret]; now rewrite <- app_assoc.
Qed.

(** What every run of the loop of [Create] looks like, whatever the client
    answers: creation is requested exactly for the objects whose lookup said
    they are absent, and always of the desired object; the loop returns nil
    exactly when no answer was a failure, and then every component was looked
    up; an error returned is the last answer, wrapped. *)
Lemma Create_range_run components cp w tr0 :
  exists tr,
    snd (fst (Create_range components cp (w, tr0))) = tr0 ++ tr
    /\ map (fun obj => (Object_Namespace obj, Object_Name obj)) (create_attempts tr)
       = found_absent tr
    /\ Forall (fun obj => exists component,
                  component ∈ components /\ obj = desired component cp)
         (create_attempts tr)
    /\ (snd (Create_range components cp (w, tr0)) = None <-> failures tr = [])
    /\ (snd (Create_range components cp (w, tr0)) = None ->
        lookups tr = map (fun component => (Namespace cp, ObjectName cp component)) components)
    /\ (forall err, snd (Create_range components cp (w, tr0)) = Some err ->
        (exists tr' ns name e,
            tr = tr' ++ [EvGet ns name (Some e)]
            /\ errors_IsNotFound e = false
            /\ err = ErrWrap "getting security group object, " e)
        \/ (exists tr' obj e,
            tr = tr' ++ [EvCreate obj (Some e)]
            /\ err = ErrWrap "creating security group kube object, "
                       (ErrWrap "creating security group kube object, " e))).
Proof.
  unfold create_attempts, found_absent, failures, lookups.
  revert w tr0; induction components as [|component components IH]; intros w tr0.
  - exists []. cbn. rewrite app_nil_r. repeat split; auto; try discriminate.
  - rewrite Create_range_cons.
    set (ns := Namespace cp). set (name := ObjectName cp component).
    set (g := KubeClient_Get ns name w).
    set (c := KubeClient_Create (desired component cp) (fst g)).
    destruct (snd g) as [e|].
    + destruct (errors_IsNotFound e) eqn:NF.
      * destruct (snd c) as [e'|].
        -- exists [EvGet ns name (Some e); EvCreate (desired component cp) (Some e')].
           cbn. rewrite NF. cbn. repeat split; try discriminate.
           ++ repeat constructor. exists component. split; [left | reflexivity].
           ++ intros err [= <-]. right.
              exists [EvGet ns name (Some e)], (desired component cp), e'. now split.
        -- destruct (IH (fst c) (tr0 ++ [EvGet ns name (Some e);
                                          EvCreate (desired component cp) None]))
             as (tr & Htr & Hkeys & Hdes & Hnil & Hlook & Herr).
           exists (EvGet ns name (Some e) :: EvCreate (desired component cp) None :: tr).
           rewrite Htr, <- app_assoc. cbn. rewrite NF. cbn.
           split; [reflexivity|]. split; [now rewrite Hkeys|]. split.
           { constructor.
             - exists component. split; [left | reflexivity].
             - eapply Forall_impl; [exact Hdes|].
               intros obj (c' & Hin & ->). exists c'. split; [now right | reflexivity]. }
           split; [exact Hnil|]. split; [intros H; now rewrite (Hlook H)|].
           intros err H. destruct (Herr err H) as [(tr' & ns' & n' & e0 & -> & ? & ->)
                                                  |(tr' & obj & e0 & -> & ->)].
           ++ left. exists (EvGet ns name (Some e) :: EvCreate (desired component cp) None :: tr'),
                ns', n', e0. now split.
           ++ right. exists (EvGet ns name (Some e) :: EvCreate (desired component cp) None :: tr'),
                obj, e0. now split.
      * exists [EvGet ns name (Some e)].
        cbn. rewrite NF. repeat split; try discriminate; auto.
        intros err [= <-]. left. exists [], ns, name, e. now split.
    + destruct (IH (fst g) (tr0 ++ [EvGet ns name None]))
        as (tr & Htr & Hkeys & Hdes & Hnil & Hlook & Herr).
      exists (EvGet ns name None :: tr).
      rewrite Htr, <- app_assoc. cbn.
      split; [reflexivity|]. split; [exact Hkeys|]. split.
      { eapply Forall_impl; [exact Hdes|].
        intros obj (c' & Hin & ->). exists c'. split; [now right | reflexivity]. }
      split; [exact Hnil|]. split; [intros H; now rewrite (Hlook H)|].
      intros err H. destruct (Herr err H) as [(tr' & ns' & n' & e0 & -> & ? & ->)
                                             |(tr' & obj & e0 & -> & ->)].
      * left. exists (EvGet ns name None :: tr'), ns', n', e0. now split.
      * right. exists (EvGet ns name None :: tr'), obj, e0. now split.
Qed.

(** When no lookup of a trace was answered with an error, none was answered
    with absence; and if moreover nothing was created, nothing failed. *)
Lemma all_found (tr : list Event) :
  (forall ns name err, EvGet ns name (Some err) ∉ tr) ->
  found_absent tr = [] /\ (create_attempts tr = [] -> failures tr = []).
Proof.
  unfold found_absent, create_attempts, failures.
  induction tr as [|ev tr IH]; intros H; [now split|].
  assert (H' : forall ns name err, EvGet ns name (Some err) ∉ tr).
  { intros ns name err Hin. apply (H ns name err). now right. }
  destruct (IH H') as [IH1 IH2].
  destruct ev as [ns name [err|] | obj r]; cbn.
  - exfalso. apply (H ns name err). left.
  - now split.
  - split; [exact IH1 | discriminate].
Qed.

(** What [SecurityGroup.Create] does, read from the trace of its run. *)
Lemma Create_run (cp : ControlPlane) (w : World) :
  let tr := trace_of (Create cp) w in
  let r := value_of (Create cp) w in
  map (fun obj => (Object_Namespace obj, Object_Name obj)) (create_attempts tr)
    = found_absent tr
  /\ Forall (fun obj => exists component,
                component ∈ ComponentsSupported /\ obj = desired component cp)
       (create_attempts tr)
  /\ (r = None <-> failures tr = [])
  /\ (r = None ->
      lookups tr = map (fun component => (Namespace cp, ObjectName cp component))
                     ComponentsSupported)
  /\ ((forall ns name err, EvGet ns name (Some err) ∉ tr) ->
      create_attempts tr = [] /\ r = None)
  /\ (forall err, r = Some err ->
      (exists tr' ns name e,
          tr = tr' ++ [EvGet ns name (Some e)]
          /\ errors_IsNotFound e = false
          /\ err = ErrWrap "getting security group object, " e)
      \/ (exists tr' obj e,
          tr = tr' ++ [EvCreate obj (Some e)]
          /\ err = ErrWrap "creating security group kube object, "
                     (ErrWrap "creating security group kube object, " e))).
Proof.
  intros tr r. subst tr r. unfold trace_of, value_of, Create.
  destruct (Create_range_run ComponentsSupported cp w [])
    as (tr & Htr & Hkeys & Hdes & Hnil & Hlook & Herr).
  rewrite Htr. cbn [app].
  split; [exact Hkeys|]. split; [exact Hdes|]. split; [exact Hnil|].
  split; [exact Hlook|]. split; [|exact Herr].
  intros Hfound. destruct (all_found tr Hfound) as [Habs Hfail].
  rewrite Habs in Hkeys. apply map_eq_nil in Hkeys.
  split; [exact Hkeys|]. apply Hnil, Hfail, Hkeys.
Qed.

End WithEnv.

End resource_facts.

Module cluster_facts.
Import cluster.

(** [strings.Contains] finds a string at the start of a longer one. *)
Lemma strings_Contains_append (s t : string) : strings_Contains (s +:+ t) s = true.
Proof.
  assert (P : String.prefix s (s +:+ t) = true).
  { induction s as [|a s IH]; simpl; [now destruct t|].
    destruct (Ascii.ascii_dec a a); [exact IH | congruence]. }
  destruct s; [now destruct t|].
  change (String a s +:+ t) with (String a (s +:+ t)) in *.
  unfold strings_Contains; fold strings_Contains. now rewrite P.
Qed.

(** The text of an AWS error starts with its code: a batch deletion tells a
    missing bucket apart by this text. *)
Lemma NoSuchBucket_code_in_text (e : awserr.Error) :
  awserr.Code e = "NoSuchBucket" ->
  strings_Contains (awserr.Error_text e) "NoSuchBucket" = true.
Proof.
  intros H. unfold awserr.Error_text. rewrite H.
  apply (strings_Contains_append "NoSuchBucket").
Qed.

Section WithEnv.
Context `{E : Env}.

Lemma call_eq (c : Call) (w : World) (tr : list Event) :
  call c (w, tr) = ((fst (ext c w), tr ++ [Ev c (snd (ext c w))]), snd (ext c w)).
Proof. unfold call. now destruct (ext c w). Qed.

(** A property of the outcome of [check! m orelse e => h e ;; k] holds when
    it holds on both branches. *)
Lemma on_err_ind {A} (Q : State * A -> Prop) (m : Go (option error)) (h : error -> A)
    (k : Go A) (s : State) :
  (forall s' e, m s = (s', Some e) -> Q (s', h e)) ->
  (forall s', m s = (s', None) -> Q (k s')) ->
  Q (on_err m h k s).
Proof.
  intros He Hk. unfold on_err, bind, ret.
  destruct (m s) as [s' [e|]]; [now apply He | now apply Hk].
Qed.


Lemma bind_run {A B} (m : Go A) (k : A -> Go B) (s : State) :
  bind m k s = k (snd (m s)) (fst (m s)).
Proof. unfold bind. now destruct (m s). Qed.

(** [ensureBucket] asks S3 once to create the bucket; the answer that the
    bucket is already owned counts as success, any other error comes back
    wrapped. *)
Lemma ensureBucket_eq (substrate : Substrate) (w : World) (tr : list Event) :
  let c := S3_CreateBucket (discovery_Name substrate []) Region in
  ensureBucket substrate (w, tr) =
  ((fst (ext c w), tr ++ [Ev c (snd (ext c w))]),
   match snd (ext c w) with
   | None => None
   | Some e =>
       if String.eqb (awserr.Code e) "BucketAlreadyOwnedByYou" then None
       else Some (ErrWrap "creating S3 bucket, " (ErrAws e))
   end).
Proof.
  intros c. unfold ensureBucket, bind. rewrite call_eq. fold c.
  destruct (snd (ext c w)) as [e|]; [|reflexivity].
  unfold s3_ErrCodeBucketAlreadyOwnedByYou.
  now destruct (String.eqb (awserr.Code e) "BucketAlreadyOwnedByYou").
Qed.

(** C7. [Delete] first asks S3 to delete the objects of the bucket, then to
    delete the bucket, then removes the staging directory, in this order.  At
    the first step an error whose text names NoSuchBucket, at the second an
    error whose code is NoSuchBucket, counts as success.  Any other error of
    these two steps ends the call at once (no later step is taken) and is
    returned: its text after the first step, the error wrapped after the
    second.  The result of the call is otherwise the answer of the removal of
    the directory. *)
Theorem Delete_order_and_errors (substrate : Substrate) (w : World) (tr : list Event) :
  let b := discovery_Name substrate [] in
  let dir := path_Join ["/tmp/"; aws_StringValue b] in
  let a1 := ext (S3_BatchDelete b) w in
  let a2 := ext (S3_DeleteBucket b) (fst a1) in
  let a3 := ext (Os_RemoveAll dir) (fst a2) in
  let ev1 := Ev (S3_BatchDelete b) (snd a1) in
  let ev2 := Ev (S3_DeleteBucket b) (snd a2) in
  let ev3 := Ev (Os_RemoveAll dir) (snd a3) in
  let gone1 := match snd a1 with
               | None => true
               | Some e => strings_Contains (awserr.Error_text e) "NoSuchBucket"
               end in
  let gone2 := match snd a2 with
               | None => true
               | Some e => String.eqb (awserr.Code e) "NoSuchBucket"
               end in
  (forall e, snd a1 = Some e -> gone1 = false ->
     Delete substrate (w, tr) =
       ((fst a1, tr ++ [ev1]),
        (Result_zero,
         Some (ErrText ("deleting objects from bucket " +:+ awserr.Error_text e)))))
  /\ (forall e, gone1 = true -> snd a2 = Some e -> gone2 = false ->
     Delete substrate (w, tr) =
       ((fst a2, tr ++ [ev1; ev2]),
        (Result_zero, Some (ErrWrap "deleting S3, " (ErrAws e)))))
  /\ (gone1 = true -> gone2 = true ->
     Delete substrate (w, tr) = ((fst a3, tr ++ [ev1; ev2; ev3]), (Result_zero, snd a3)))
  /\ (forall e, snd a1 = Some e -> awserr.Code e = "NoSuchBucket" -> gone1 = true).
Proof.
  intros b dir a1 a2 a3 ev1 ev2 ev3 gone1 gone2.
  assert (EQ : Delete substrate (w, tr) =
    if negb gone1 then
      ((fst a1, tr ++ [ev1]),
       (Result_zero,
        match snd a1 with
        | Some e => Some (ErrText ("deleting objects from bucket " +:+ awserr.Error_text e))
        | None => None
        end))
    else if negb gone2 then
      ((fst a2, tr ++ [ev1; ev2]),
       (Result_zero,
        match snd a2 with
        | Some e => Some (ErrWrap "deleting S3, " (ErrAws e))
        | None => None
        end))
    else ((fst a3, tr ++ [ev1; ev2; ev3]), (Result_zero, snd a3))).
  { unfold Delete, bind, bucketName, ClusterCertsBasePath, s3_ErrCodeNoSuchBucket.
    rewrite call_eq. fold b a1 ev1. subst gone1.
    assert (forall s : State,
      (let (s', a) := call (S3_DeleteBucket b) s in
       match
         match a with
         | Some err =>
             if negb (String.eqb (awserr.Code err) "NoSuchBucket")
             then Some (Errorf_w "deleting S3, " (ErrAws err))
             else None
         | None => None
         end
       with
       | Some err => ret (Result_zero, Some err)
       | None =>
           fun s0 : State =>
             let (s'0, a0) := call (Os_RemoveAll (path_Join ["/tmp/"; aws_StringValue b])) s0 in
             ret (Result_zero, a0) s'0
       end s') =
      let x2 := ext (S3_DeleteBucket b) (fst s) in
      let x3 := ext (Os_RemoveAll dir) (fst x2) in
      if negb match snd x2 with
              | None => true
              | Some e => String.eqb (awserr.Code e) "NoSuchBucket"
              end
      then ((fst x2, snd s ++ [Ev (S3_DeleteBucket b) (snd x2)]),
            (Result_zero,
             match snd x2 with
             | Some e => Some (ErrWrap "deleting S3, " (ErrAws e))
             | None => None
             end))
      else ((fst x3, snd s ++ [Ev (S3_DeleteBucket b) (snd x2); Ev (Os_RemoveAll dir) (snd x3)]),
            (Result_zero, snd x3))) as Step.
    { intros [w0 tr0]. rewrite call_eq. cbn [fst snd]. fold dir.
      destruct (snd (ext (S3_DeleteBucket b) w0)) as [e2|].
      - destruct (String.eqb (awserr.Code e2) "NoSuchBucket"); cbn [negb].
        + rewrite call_eq. cbn [ret]. now rewrite <- app_assoc.
        + reflexivity.
      - cbn [negb]. rewrite call_eq. cbn [ret]. now rewrite <- app_assoc. }
    destruct (snd a1) as [e1|].
    - destruct (strings_Contains (awserr.Error_text e1) "NoSuchBucket"); cbn [negb].
      + rewrite Step. cbn [fst snd]. fold a2 a3 ev2 ev3. subst gone2.
        destruct (negb _); now rewrite <- ?app_assoc.
      + reflexivity.
    - cbn [negb]. rewrite Step. cbn [fst snd]. fold a2 a3 ev2 ev3. subst gone2.
      destruct (negb _); now rewrite <- ?app_assoc. }
  split; [|split; [|split]].
  - intros e H1 G1. rewrite EQ, G1, H1. reflexivity.
  - intros e G1 H2 G2. rewrite EQ, G1, G2, H2. reflexivity.
  - intros G1 G2. rewrite EQ, G1, G2. reflexivity.
  - intros e H1 HC. subst gone1. rewrite H1. now apply NoSuchBucket_code_in_text.
Qed.

(** C5. While the address of the cluster is nil, [Create] returns a result
    with [Requeue] set and no error, and makes no call at all: the world and
    the trace are the ones it started with (no bucket ensured, no file
    generated, nothing uploaded), and the substrate is unchanged. *)
Theorem Create_requeues_without_address (substrate : Substrate) (w : World) (tr : list Event) :
  Address (Cluster (Status substrate)) = None ->
  Create substrate (w, tr) =
  ((w, tr), (substrate, ({| Requeue := true; RequeueAfter := 0 |}, None))).
Proof. intros H. unfold Create. now rewrite H. Qed.


(** *** The directory iterator *)

(** [Next] on an exhausted iterator: no call is made, the answer is false. *)
Lemma Next_nil (d : DirectoryIterator) (s : State) :
  filePaths d = [] ->
  Next d s =
  (s, ({| filePaths := []; bucket := bucket d; next_path := next_path d;
          next_f := None; err := err d |}, false)).
Proof. intros H. unfold Next. now rewrite H. Qed.

(** [Next] on an iterator with paths left: the head is opened, recorded as
    the current path and dropped from the list, whatever the open answers;
    the answer is true exactly when the open gave a handle. *)
Lemma Next_cons (d : DirectoryIterator) (p : string) (rest : list string)
    (w : World) (tr : list Event) :
  filePaths d = p :: rest ->
  let a := ext (Os_Open p) w in
  Next d (w, tr) =
  ((fst a, tr ++ [Ev (Os_Open p) (snd a)]),
   ({| filePaths := rest; bucket := bucket d; next_path := p;
       next_f := match snd a with inl f => Some f | inr _ => None end;
       err := match snd a with inl _ => None | inr e => Some e end |},
    match snd a with inl _ => true | inr _ => false end)).
Proof.
  intros H a. unfold Next. rewrite H. unfold bind. rewrite call_eq. fold a.
  unfold ret, Err. cbn [err]. now destruct (snd a).
Qed.

Lemma opens_app (tr1 tr2 : list Event) : opens (tr1 ++ tr2) = opens tr1 ++ opens tr2.
Proof. apply omap_app. Qed.

Lemma closes_app (tr1 tr2 : list Event) : closes (tr1 ++ tr2) = closes tr1 ++ closes tr2.
Proof. apply omap_app. Qed.

Lemma uploads_app (tr1 tr2 : list Event) : uploads (tr1 ++ tr2) = uploads tr1 ++ uploads tr2.
Proof. apply omap_app. Qed.

(** The loop of the upload over a directory iterator, with more fuel than
    there are paths: it finishes, and the events it adds to the trace have
    the shape [upload_trace]. *)
Lemma UploadWithIterator_loop_finishes (ps : list string) :
  forall (d : DirectoryIterator) (fuel : nat) (w : World) (tr0 : list Event)
         (errs : list error),
    filePaths d = ps -> length ps < fuel ->
    exists w' tr d' errs',
      UploadWithIterator_loop fuel d errs (w, tr0) = ((w', tr0 ++ tr), Some (d', errs'))
      /\ upload_trace (bucket d) ps tr.
Proof.
  induction ps as [|p ps IH]; intros d fuel w tr0 errs Hd Hfuel;
    destruct fuel as [|fuel]; try (cbn in Hfuel; lia);
    cbn [UploadWithIterator_loop iter_Next DirectoryIterator_BatchUploadIterator].
  - rewrite bind_run, (Next_nil _ _ Hd). cbn [fst snd ret].
    eexists w, [], _, errs. rewrite app_nil_r. split; reflexivity.
  - rewrite bind_run, (Next_cons _ _ _ _ _ Hd).
    set (a := ext (Os_Open p) w). cbn [fst snd].
    destruct (snd a) as [f|e] eqn:Ha.
    + cbn [iter_UploadObject DirectoryIterator_BatchUploadIterator UploadObject
             Object After Bucket Key Body bucket next_path next_f Close].
      rewrite bind_run, call_eq. cbn [fst snd].
      set (u := ext (S3_Upload (bucket d) p (Some f)) (fst a)).
      rewrite bind_run, call_eq. cbn [fst snd].
      set (c := ext (File_Close f) (fst u)).
      match goal with
      | |- context [UploadWithIterator_loop fuel ?d' ?errs' (?w', ?tr')] =>
          destruct (IH d' fuel w' tr' errs' eq_refl ltac:(cbn in Hfuel; lia))
            as (w'' & tr & d'' & errs'' & Hrun & Htr)
      end.
      rewrite Hrun. eexists w'', _, d'', errs''. split.
      * rewrite <- !app_assoc. reflexivity.
      * cbn. right. exists f, (snd u), (snd c), tr. split; [reflexivity | exact Htr].
    + cbn [ret]. eexists (fst a), _, _, errs. split; [reflexivity|].
      cbn. left. now exists e.
Qed.

(** The whole upload: with one more unit of fuel than there are paths it
    finishes, and it adds nothing to the trace of its loop. *)
Lemma UploadWithIterator_finishes (d : DirectoryIterator) (w : World) (tr0 : list Event) :
  exists w' tr d' err,
    UploadWithIterator (S (length (filePaths d))) d (w, tr0)
    = ((w', tr0 ++ tr), Some (d', err))
    /\ upload_trace (bucket d) (filePaths d) tr.
Proof.
  destruct (UploadWithIterator_loop_finishes (filePaths d) d (S (length (filePaths d)))
              w tr0 [] eq_refl ltac:(lia)) as (w' & tr & d' & errs & Hrun & Htr).
  unfold UploadWithIterator. rewrite bind_run, Hrun. cbn [fst snd].
  destruct errs; eexists w', tr, d', _; (split; [reflexivity | exact Htr]).
Qed.

(** In a trace of that shape the handles closed are the handles opened, one
    close for each, in the same order. *)
Lemma upload_trace_closes (b : string) (ps : list string) :
  forall tr, upload_trace b ps tr -> closes tr = handles (opens tr).
Proof.
  induction ps as [|p ps IH]; intros tr; cbn [upload_trace].
  - now intros ->.
  - intros [[e ->] | (f & u & c & tr' & -> & H)]; [reflexivity|].
    cbn. f_equal. apply (IH _ H).
Qed.

(** In a trace of that shape one upload is attempted for each handle opened,
    of that handle under the path it was opened from. *)
Lemma upload_trace_uploads (b : string) (ps : list string) :
  forall tr, upload_trace b ps tr ->
    uploads tr =
    omap (fun o => match snd o with
                   | Some f => Some (b, fst o, Some f)
                   | None => None
                   end) (opens tr).
Proof.
  induction ps as [|p ps IH]; intros tr; cbn [upload_trace].
  - now intros ->.
  - intros [[e ->] | (f & u & c & tr' & -> & H)]; [reflexivity|].
    cbn. f_equal. apply (IH _ H).
Qed.

(** In a trace of that shape no handle stays open. *)
Lemma upload_trace_no_leak (b : string) (ps : list string) :
  forall tr, upload_trace b ps tr -> open_handles tr = [].
Proof.
  unfold open_handles.
  induction ps as [|p ps IH]; intros tr; cbn [upload_trace].
  - now intros ->.
  - intros [[e ->] | (f & u & c & tr' & -> & H)]; [reflexivity|].
    cbn. rewrite Nat.eqb_refl. apply (IH _ H).
Qed.

(** In a trace of that shape the paths opened are a prefix of the paths of
    the iterator; an open that failed is the last one, so that the paths
    after it were not opened; when no open failed every path was opened. *)
Lemma upload_trace_opens (b : string) (ps : list string) :
  forall tr, upload_trace b ps tr ->
    (exists k, map fst (opens tr) = take k ps)
    /\ (forall i p, opens tr !! i = Some (p, None) -> map fst (opens tr) = take (S i) ps)
    /\ ((forall o, o ∈ opens tr -> snd o <> None) -> map fst (opens tr) = ps).
Proof.
  induction ps as [|p ps IH]; intros tr; cbn [upload_trace].
  - intros ->. cbn. repeat split; auto. now exists 0.
  - intros [[e ->] | (f & u & c & tr' & -> & H)].
    + cbn. split; [now exists 1|]. split.
      * intros [|i] q; cbn; [intros _; now rewrite take_0 | discriminate].
      * intros Hall. exfalso. apply (Hall (p, None)); [left | reflexivity].
    + destruct (IH _ H) as ((k & Hk) & Hfail & Hall).
      change (opens (Ev (Os_Open p) (inl f) :: Ev (S3_Upload b p (Some f)) u
                       :: Ev (File_Close f) c :: tr'))
        with ((p, Some f) :: opens tr').
      cbn [map fst]. split; [exists (S k); cbn; now rewrite Hk|]. split.
      * intros [|i] q; cbn; [discriminate|]. intros Hi. f_equal. now apply (Hfail i q).
      * intros Hno. f_equal. apply Hall. intros o Ho. apply Hno. now right.
Qed.

(** [n] calls of [Next]: the first [n] paths have been opened, once each and
    in order, and dropped from the list, and nothing else was done. *)
Lemma Next_times_run (n : nat) :
  forall (d : DirectoryIterator) (w : World) (tr0 : list Event),
    exists w' tr d',
      Next_times n d (w, tr0) = ((w', tr0 ++ tr), d')
      /\ filePaths d' = drop n (filePaths d)
      /\ map fst (opens tr) = take n (filePaths d)
      /\ length tr = length (take n (filePaths d)).
Proof.
  induction n as [|n IH]; intros d w tr0.
  - exists w, [], d. cbn. rewrite app_nil_r, take_0, drop_0. repeat split.
  - cbn [Next_times]. rewrite bind_run.
    destruct (filePaths d) as [|p ps] eqn:Hd.
    + rewrite (Next_nil _ _ Hd). cbn [fst snd].
      match goal with
      | |- context [Next_times n ?d' _] =>
          destruct (IH d' w tr0) as (w' & tr & d'' & Hrun & Hps & Hop & Hlen)
      end.
      cbn [filePaths] in *. rewrite take_nil, drop_nil in *.
      exists w', tr, d''. now rewrite Hrun.
    + rewrite (Next_cons _ _ _ _ _ Hd). cbn [fst snd].
      set (a := ext (Os_Open p) w).
      match goal with
      | |- context [Next_times n ?d' (?w', ?tr')] =>
          destruct (IH d' w' tr') as (w'' & tr & d'' & Hrun & Hps & Hop & Hlen)
      end.
      cbn [filePaths] in *.
      exists w'', (Ev (Os_Open p) (snd a) :: tr), d''.
      rewrite Hrun, <- app_assoc. cbn [app drop take length].
      change (opens (Ev (Os_Open p) (snd a) :: tr))
        with ((p, match snd a with inl f => Some f | inr _ => None end) :: opens tr).
      cbn [map fst]. rewrite Hop, Hlen. repeat split. exact Hps.
Qed.


(** C3. [Next] answers false exactly when the list of paths was exhausted
    or an open error is recorded in the iterator it leaves; on an exhausted
    list it opens nothing; the error recorded is the error of the open of
    this call.  In an iteration (the upload asks [Next] until it answers
    false, and it does finish) the paths opened are a prefix of the paths
    walked, and an open that fails is the last one: if the open of the file
    at index [i] fails, the files opened are the first [i + 1] and no file
    after it is ever attempted; if no open fails, every file is opened. *)
Theorem Next_stops_when_exhausted_or_failed (d : DirectoryIterator)
    (w : World) (tr0 : list Event) :
  let run := Next d (w, tr0) in
  let d' := fst (snd run) in
  (snd (snd run) = false <-> filePaths d = [] \/ Err d' <> None)
  /\ (filePaths d = [] -> fst run = (w, tr0))
  /\ (forall p rest, filePaths d = p :: rest ->
      Err d' = match snd (ext (Os_Open p) w) with inr e => Some e | inl _ => None end)
  /\ (let it := UploadWithIterator (S (length (filePaths d))) d (w, tr0) in
      exists tr,
        snd (fst it) = tr0 ++ tr
        /\ snd it <> None
        /\ (exists k, map fst (opens tr) = take k (filePaths d))
        /\ (forall i p, opens tr !! i = Some (p, None) ->
            map fst (opens tr) = take (S i) (filePaths d))
        /\ ((forall o, o ∈ opens tr -> snd o <> None) ->
            map fst (opens tr) = filePaths d)).
Proof.
  intros run d'. subst d' run. split; [|split; [|split]].
  - destruct (filePaths d) as [|p rest] eqn:Hd.
    + rewrite (Next_nil _ _ Hd). cbn. split; auto.
    + rewrite (Next_cons _ _ _ _ _ Hd). cbn [fst snd Err err].
      destruct (snd (ext (Os_Open p) w)); split; try congruence; auto.
      intros [?|?]; congruence.
  - intros Hd. now rewrite (Next_nil _ _ Hd).
  - intros p rest Hd. now rewrite (Next_cons _ _ _ _ _ Hd).
  - cbv zeta.
    destruct (UploadWithIterator_finishes d w tr0) as (w' & tr & d' & err & Hrun & Htr).
    rewrite Hrun. exists tr. split; [reflexivity|]. split; [discriminate|].
    exact (upload_trace_opens _ _ _ Htr).
Qed.

(** C4. The unit that [UploadObject] returns has the current file as its
    body, under the current path, and the close of that same file as what to
    run after the upload; after a [Next] whose open gave the handle [f] this
    is the upload of [f] and the close of [f].  In the upload of a directory
    (which does finish) the trace has the shape [upload_trace]: each file
    that was opened is uploaded and then closed, whatever the upload
    answered, and a failed open is followed by nothing.  So the handles
    closed are the handles opened, one close for each; one upload is
    attempted for each; and no handle is left open, also when an open fails
    in the middle of the walk. *)
Theorem UploadObject_closes_after_upload (d : DirectoryIterator)
    (w : World) (tr0 : list Event) :
  UploadObject d =
    {| Object := {| Bucket := bucket d; Key := next_path d; Body := next_f d |};
       After := Some (Close (next_f d)) |}
  /\ (forall p rest f,
      filePaths d = p :: rest -> snd (ext (Os_Open p) w) = inl f ->
      let run := Next d (w, tr0) in
      snd (snd run) = true
      /\ Body (Object (UploadObject (fst (snd run)))) = Some f
      /\ Key (Object (UploadObject (fst (snd run)))) = p
      /\ After (UploadObject (fst (snd run))) = Some (call (File_Close f)))
  /\ (let it := UploadWithIterator (S (length (filePaths d))) d (w, tr0) in
      exists tr,
        snd (fst it) = tr0 ++ tr
        /\ snd it <> None
        /\ upload_trace (bucket d) (filePaths d) tr
        /\ closes tr = handles (opens tr)
        /\ uploads tr = omap (fun o => match snd o with
                                       | Some f => Some (bucket d, fst o, Some f)
                                       | None => None
                                       end) (opens tr)
        /\ open_handles tr = []).
Proof.
  split; [reflexivity|]. split.
  - intros p rest f Hd Hf run. subst run.
    rewrite (Next_cons _ _ _ _ _ Hd). cbn [fst snd]. rewrite Hf.
    repeat split.
  - cbv zeta.
    destruct (UploadWithIterator_finishes d w tr0) as (w' & tr & d' & err & Hrun & Htr).
    rewrite Hrun. exists tr. split; [reflexivity|]. split; [discriminate|].
    split; [exact Htr|]. split; [exact (upload_trace_closes _ _ _ Htr)|].
    split; [exact (upload_trace_uploads _ _ _ Htr) | exact (upload_trace_no_leak _ _ _ Htr)].
Qed.

(** C10. A call of [Next] with paths left opens the head of the list, this
    one file and nothing else, and drops it from the list, whatever the open
    answers.  So after [n] calls the paths opened are the first [n] paths
    walked, each opened once and in order (a path whose open failed is not
    opened again), and the list holds the rest.  After as many calls as there
    were paths the list is empty, and from then on [Next] answers false and
    opens nothing: the iteration is over.  The upload of the directory
    finishes on one more unit of fuel than there are paths (a unit is a call
    of [Next]; the last one is the call that answers false), and it opens at
    most as many files as there were paths. *)
Theorem Next_consumes_the_head (d : DirectoryIterator) (w : World) (tr0 : list Event) :
  (forall p rest, filePaths d = p :: rest ->
     let run := Next d (w, tr0) in
     filePaths (fst (snd run)) = rest
     /\ snd (fst run) = tr0 ++ [Ev (Os_Open p) (snd (ext (Os_Open p) w))])
  /\ (forall n,
     let run := Next_times n d (w, tr0) in
     exists tr,
       snd (fst run) = tr0 ++ tr
       /\ filePaths (snd run) = drop n (filePaths d)
       /\ map fst (opens tr) = take n (filePaths d)
       /\ length tr = length (take n (filePaths d)))
  /\ (forall n, length (filePaths d) <= n ->
     let d' := snd (Next_times n d (w, tr0)) in
     filePaths d' = []
     /\ forall s, fst (Next d' s) = s /\ snd (snd (Next d' s)) = false)
  /\ (let it := UploadWithIterator (S (length (filePaths d))) d (w, tr0) in
      snd it <> None
      /\ exists tr, snd (fst it) = tr0 ++ tr /\ length (opens tr) <= length (filePaths d)).
Proof.
  split; [|split; [|split]].
  - intros p rest Hd run. subst run. now rewrite (Next_cons _ _ _ _ _ Hd).
  - intros n run. subst run.
    destruct (Next_times_run n d w tr0) as (w' & tr & d' & Hrun & Hps & Hop & Hlen).
    rewrite Hrun. now exists tr.
  - intros n Hn d'. subst d'.
    destruct (Next_times_run n d w tr0) as (w' & tr & d' & Hrun & Hps & _).
    rewrite Hrun. cbn [snd]. rewrite drop_ge in Hps by exact Hn.
    split; [exact Hps|]. intros s. now rewrite (Next_nil _ _ Hps).
  - cbv zeta.
    destruct (UploadWithIterator_finishes d w tr0) as (w' & tr & d' & err & Hrun & Htr).
    rewrite Hrun. split; [discriminate|]. exists tr. split; [reflexivity|].
    destruct (proj1 (upload_trace_opens _ _ _ Htr)) as [k Hk].
    rewrite <- (length_map fst), Hk, length_take. lia.
Qed.

(** C6. Creation where the resource may exist already.  [ensureBucket]
    asks S3 once to create the bucket; when S3 answers that the bucket is
    already owned by the caller the result is nil, as it is when the bucket
    was created, and any other error comes back wrapped.
    [SecurityGroup.Create] requests the creation of exactly those objects
    whose lookup answered that they are absent, always of the desired object
    of a supported component; when every lookup finds its object nothing is
    created and the result is nil; the result is nil exactly when no lookup
    failed for another reason than absence and no creation failed, and then
    every supported component was looked up; an error returned is the failed
    answer, wrapped. *)
Theorem create_or_adopt `{R : resource.Env} (substrate : Substrate) (w : World)
    (tr0 : list Event) (cp : resource.ControlPlane) (wr : resource.World) :
  (let c := S3_CreateBucket (discovery_Name substrate []) Region in
   let run := ensureBucket substrate (w, tr0) in
   fst run = (fst (ext c w), tr0 ++ [Ev c (snd (ext c w))])
   /\ (snd (ext c w) = None -> snd run = None)
   /\ (forall e, snd (ext c w) = Some e ->
       awserr.Code e = "BucketAlreadyOwnedByYou" -> snd run = None)
   /\ (forall e, snd (ext c w) = Some e ->
       awserr.Code e <> "BucketAlreadyOwnedByYou" ->
       snd run = Some (ErrWrap "creating S3 bucket, " (ErrAws e))))
  /\ (let tr := resource.trace_of (resource.Create cp) wr in
      let r := resource.value_of (resource.Create cp) wr in
      map (fun obj => (resource.Object_Namespace obj, resource.Object_Name obj))
        (resource.create_attempts tr) = resource.found_absent tr
      /\ Forall (fun obj => exists component,
                    component ∈ resource.ComponentsSupported
                    /\ obj = resource.desired component cp)
           (resource.create_attempts tr)
      /\ (r = None <-> resource.failures tr = [])
      /\ (r = None ->
          resource.lookups tr
          = map (fun component =>
                   (resource.Namespace cp, resource.ObjectName cp component))
              resource.ComponentsSupported)
      /\ ((forall ns name err, resource.EvGet ns name (Some err) ∉ tr) ->
          resource.create_attempts tr = [] /\ r = None)
      /\ (forall err, r = Some err ->
          (exists tr' ns name e,
              tr = tr' ++ [resource.EvGet ns name (Some e)]
              /\ resource.errors_IsNotFound e = false
              /\ err = ErrWrap "getting security group object, " e)
          \/ (exists tr' obj e,
              tr = tr' ++ [resource.EvCreate obj (Some e)]
              /\ err = ErrWrap "creating security group kube object, "
                         (ErrWrap "creating security group kube object, " e)))).
Proof.
  split.
  - cbv zeta. rewrite ensureBucket_eq. cbn [fst snd].
    set (a := snd (ext (S3_CreateBucket (discovery_Name substrate []) Region) w)).
    split; [reflexivity|]. split; [now intros ->|]. split.
    + intros e -> He. now rewrite He.
    + intros e -> He. apply String.eqb_neq in He. now rewrite He.
  - exact (resource_facts.Create_run cp wr).
Qed.

End WithEnv.

Import cluster_world.

(** C5 on a substrate without address: nothing is touched. *)
Lemma Create_waiting :
  Create (E := env) waiting (empty, []) =
  ((empty, []), (waiting, ({| Requeue := true; RequeueAfter := 0 |}, None))).
Proof. exact (Create_requeues_without_address (E := env) waiting empty [] eq_refl). Defined.


(** C7 on two worlds: where the bucket was never created both steps meet
    NoSuchBucket and the call succeeds after three calls in order; where S3
    refuses, the call ends after the first step with its error. *)
Lemma Delete_examples :
  Delete (E := env) addressed (empty, []) =
    ((empty, [Ev (S3_BatchDelete (Some "s1")) (Some BatchedDeleteIncomplete);
              Ev (S3_DeleteBucket (Some "s1")) (Some NoSuchBucket);
              Ev (Os_RemoveAll "/tmp/s1") None]),
     (Result_zero, None))
  /\ Delete (E := env) addressed (denied, []) =
    ((denied, [Ev (S3_BatchDelete (Some "s1")) (Some AccessDenied)]),
     (Result_zero,
      Some (ErrText "deleting objects from bucket AccessDenied: Access Denied"))).
Proof.
  split.
  - exact (proj1 (proj2 (proj2 (Delete_order_and_errors (E := env) addressed empty [])))
             eq_refl eq_refl).
  - exact (proj1 (Delete_order_and_errors (E := env) addressed denied []) AccessDenied eq_refl eq_refl).
Defined.

(** C3 on the five files of which the third cannot be opened: the upload
    opens the first three and never the last two. *)
Lemma five_files_opened :
  map fst (opens (trace_of (E := env) (UploadWithIterator 6 fiveIterator) fiveFiles))
  = ["f1"; "f2"; "f3"].
Proof.
  destruct (proj2 (proj2 (proj2
              (Next_stops_when_exhausted_or_failed (E := env) fiveIterator fiveFiles []))))
    as (tr & Htr & _ & _ & Hfail & _).
  cbn [app] in Htr. unfold trace_of. cbn [filePaths fiveIterator length] in Htr.
  rewrite Htr. exact (Hfail 2 "f3" (eq_ind_r (fun t => opens t !! 2 = _) eq_refl
                                      (eq_sym Htr))).
Defined.

(** C4 on the same five files: the two handles that were opened were
    uploaded and closed, once each, and none is left open although the third
    open failed. *)
Lemma five_files_closed :
  closes (trace_of (E := env) (UploadWithIterator 6 fiveIterator) fiveFiles) = [3; 4]
  /\ uploads (trace_of (E := env) (UploadWithIterator 6 fiveIterator) fiveFiles)
     = [("s1", "f1", Some 3); ("s1", "f2", Some 4)]
  /\ open_handles (trace_of (E := env) (UploadWithIterator 6 fiveIterator) fiveFiles) = [].
Proof.
  destruct (proj2 (proj2 (UploadObject_closes_after_upload (E := env) fiveIterator fiveFiles [])))
    as (tr & Htr & _ & _ & Hclose & Hup & Hleak).
  cbn [app filePaths fiveIterator length] in Htr. unfold trace_of. rewrite Htr.
  split; [|split].
  - rewrite Hclose, <- Htr. reflexivity.
  - rewrite Hup, <- Htr. reflexivity.
  - exact Hleak.
Defined.

(** C10 on the same five files: four calls of [Next] open the first four
    paths, the third without success and only once, and leave the fifth;
    after five calls the list is empty and [Next] answers false. *)
Lemma five_files_consumed :
  filePaths (snd (Next_times (E := env) 4 fiveIterator (fiveFiles, []))) = ["f5"]
  /\ filePaths (snd (Next_times (E := env) 5 fiveIterator (fiveFiles, []))) = []
  /\ snd (snd (Next (E := env) (snd (Next_times 5 fiveIterator (fiveFiles, [])))
                 (fiveFiles, [])))
     = false.
Proof.
  split; [|split].
  - destruct (proj1 (proj2 (Next_consumes_the_head (E := env) fiveIterator fiveFiles [])) 4)
      as (tr & _ & Hps & _).
    exact Hps.
  - exact (proj1 (proj1 (proj2 (proj2
             (Next_consumes_the_head (E := env) fiveIterator fiveFiles []))) 5
             (le_n 5))).
  - exact (proj2 (proj2 (proj1 (proj2 (proj2
             (Next_consumes_the_head (E := env) fiveIterator fiveFiles []))) 5
             (le_n 5)) (fiveFiles, []))).
Defined.

(** Outside an iteration: [Next] does not look at the error recorded by an
    earlier call.  A caller that asks again after the answer false has the
    next path opened (and the error replaced); the upload never does so
    (lemma [UploadWithIterator_finishes]). *)
Remark Next_again_after_false :
  opens (trace_of (E := env) (Next_times 4 fiveIterator) fiveFiles)
  = [("f1", Some 3); ("f2", Some 4); ("f3", None); ("f4", Some 5)].
Proof. reflexivity. Qed.

Import resource_world.

(** C6 on concrete stores: the bucket that exists already is adopted; of
    the two security groups only the absent one is created; when both exist
    nothing is created; and when the server is down the error of the lookup
    comes back. *)
Lemma create_or_adopt_examples :
  snd (ensureBucket (E := cluster_world.env) addressed (fiveFiles, [])) = None
  /\ map (fun obj => (resource.Object_Namespace obj, resource.Object_Name obj))
       (resource.create_attempts
          (resource.trace_of (resource.Create resource_world.cp) masterExists))
     = [("tenant", "c1-etcd")]
  /\ resource.create_attempts
       (resource.trace_of (resource.Create resource_world.cp) bothExist) = []
  /\ resource.value_of (resource.Create resource_world.cp) bothExist = None.
Proof.
  split; [|split].
  - exact (proj1 (proj2 (proj2 (proj1
             (create_or_adopt (E := cluster_world.env) (R := resource_world.env)
                addressed fiveFiles [] resource_world.cp masterExists))))
             AlreadyOwned eq_refl eq_refl).
  - exact (proj1 (proj2
             (create_or_adopt (E := cluster_world.env) (R := resource_world.env)
                addressed fiveFiles [] resource_world.cp masterExists))).
  - apply (proj1 (proj2 (proj2 (proj2 (proj2 (proj2
             (create_or_adopt (E := cluster_world.env) (R := resource_world.env)
                addressed fiveFiles [] resource_world.cp bothExist))))))).
    intros ns name err H.
    change (resource.EvGet ns name (Some err) ∈
              [resource.EvGet "tenant" "c1-master" None;
               resource.EvGet "tenant" "c1-etcd" None]) in H.
    apply elem_of_cons in H as [H|H]; [discriminate|].
    apply elem_of_cons in H as [H|H]; [discriminate|].
    now apply elem_of_nil in H.
Defined.

End cluster_facts.

(* ===================================================================== *)
(** ** More of package [cluster]: the steps of [Create]                   *)
(* ===================================================================== *)

Module cluster_steps.
Import cluster.

Section WithEnv.
Context `{E : Env}.

Lemma calls_app (tr1 tr2 : list Event) : calls (tr1 ++ tr2) = calls tr1 ++ calls tr2.
Proof. apply map_app. Qed.

Lemma on_err_run {A} (m : Go (option error)) (h : error -> A) (k : Go A) (s : State) :
  on_err m h k s =
  match snd (m s) with
  | Some e => (fst (m s), h e)
  | None => k (fst (m s))
  end.
Proof. unfold on_err, bind, ret. destruct (m s) as [s' [e|]]; reflexivity. Qed.

(** *** Rules for [emits] *)

Lemma emits_ret {A} (P : Call -> Prop) (a : A) : emits P (ret a).
Proof. intros w tr0. exists []. cbn. now rewrite app_nil_r. Qed.

Lemma emits_call (P : Call -> Prop) (c : Call) : P c -> emits P (call c).
Proof.
  intros H w tr0. exists [Ev c (snd (ext c w))].
  rewrite cluster_facts.call_eq. cbn. split; [reflexivity | now constructor].
Qed.

Lemma emits_bind {A B} (P : Call -> Prop) (m : Go A) (k : A -> Go B) :
  emits P m -> (forall a, emits P (k a)) -> emits P (bind m k).
Proof.
  intros Hm Hk w tr0. rewrite cluster_facts.bind_run.
  destruct (Hm w tr0) as (tr1 & E1 & F1).
  destruct (m (w, tr0)) as [[w1 t1] a]. cbn [fst snd] in *. subst t1.
  destruct (Hk a w1 (tr0 ++ tr1)) as (tr2 & E2 & F2).
  exists (tr1 ++ tr2). rewrite E2, app_assoc, calls_app. split; [reflexivity|].
  now apply Forall_app.
Qed.

Lemma emits_on_err {A} (P : Call -> Prop) (m : Go (option error)) (h : error -> A)
    (k : Go A) :
  emits P m -> emits P k -> emits P (on_err m h k).
Proof.
  intros Hm Hk. unfold on_err. apply emits_bind; [exact Hm|].
  intros [e|]; [apply emits_ret | exact Hk].
Qed.

Lemma emits_range_err {A} (P : Call -> Prop) (l : list A) (body : A -> Go (option error)) :
  (forall x, emits P (body x)) -> emits P (range_err l body).
Proof.
  intros H. induction l as [|x l IH]; cbn [range_err]; [apply emits_ret|].
  apply emits_on_err; [apply H | exact IH].
Qed.

Lemma emits_weaken {A} (P Q : Call -> Prop) (m : Go A) :
  (forall c, P c -> Q c) -> emits P m -> emits Q m.
Proof.
  intros H Hm w tr0. destruct (Hm w tr0) as (tr & E1 & F1).
  exists tr. split; [exact E1|]. eapply Forall_impl; [exact F1 | exact H].
Qed.

(** What a run that is known to emit only [P] leaves in the trace. *)
Lemma emits_run {A} (P : Call -> Prop) (m : Go A) (w : World) (tr0 : list Event)
    (s' : State) (a : A) :
  emits P m -> m (w, tr0) = (s', a) ->
  exists tr, snd s' = tr0 ++ tr /\ Forall P (calls tr).
Proof. intros Hm H. destruct (Hm w tr0) as (tr & E1 & F1). rewrite H in E1. eauto. Qed.


(** The same for a check that is not itself inside a check. *)
Ltac checked_call1 :=
  rewrite on_err_run, cluster_facts.call_eq; cbn [fst snd ret];
  match goal with
  | |- context [match snd (ext ?c ?w) with _ => _ end] =>
      let e := fresh "e" in
      let A := fresh "A" in
      destruct (snd (ext c w)) as [e|] eqn:A; cbn [fst snd ret]
  end.

Ltac trace_eq := rewrite <- ?app_assoc; cbn [app]; reflexivity.


(** Take one step whose answer is matched on by the code itself. *)
Ltac bound_call :=
  rewrite cluster_facts.bind_run, cluster_facts.call_eq; cbn [fst snd ret];
  match goal with
  | |- context [match snd (ext ?c ?w) with _ => _ end] =>
      let e := fresh "e" in
      let A := fresh "A" in
      destruct (snd (ext c w)) as [e|] eqn:A; cbn [fst snd ret]
  end.

(** [generateCerts] generates everything under the directory
    /etc/kubernetes/pki of the staging directory: it hands on the
    configuration with this directory as [CertificatesDir], builds the
    certificate tree with it, and writes the service account keys into the
    same directory.  The three calls are made in this order and the first
    failure ends the function; a failure of the tree comes back wrapped, the
    two others as they are. *)
Theorem generateCerts_under_staging_pki (cfg : InitConfiguration) (substrate : Substrate)
    (w : World) (tr0 : list Event) :
  let pki := path_Join ["/tmp/"; bucketName substrate; "/etc/kubernetes/pki"] in
  let cfg' := set_CertificatesDir pki cfg in
  let run := generateCerts cfg substrate (w, tr0) in
  fst (snd run) = cfg'
  /\ exists tr n,
      snd (fst run) = tr0 ++ tr
      /\ calls tr = take n [Certs_CertTree; Certs_CreateTree cfg';
                            Certs_CreateServiceAccountKeyAndPublicKeyFiles pki cfg']
      /\ (snd (snd run) = None -> n = 3 /\ failures tr = [])
      /\ (forall err, snd (snd run) = Some err ->
          exists e, failures tr = [e]
                    /\ err = if Nat.eqb n 2 then ErrWrap "error creating cert tree, " e
                             else e).
Proof.
  intros pki cfg' run. subst run.
  unfold generateCerts, ClusterCertsBasePath, certPKIPath. fold pki cfg'.
  bound_call.
  { split; [reflexivity|]. eexists _, 1. split; [trace_eq|]. split; [reflexivity|].
    split; [discriminate|]. intros err [= <-]. eexists. cbn. now split. }
  bound_call.
  { split; [reflexivity|]. eexists _, 2. split; [trace_eq|]. split; [reflexivity|].
    split; [discriminate|]. intros err [= <-]. eexists. cbn. now split. }
  rewrite cluster_facts.bind_run, cluster_facts.call_eq. cbn [fst snd ret].
  split; [reflexivity|]. eexists _, 3. split; [trace_eq|]. split; [reflexivity|].
  cbn. split.
  - intros ->. now split.
  - intros err ->. now eexists.
Qed.



(** [strings.Contains] finds a string in the middle of a longer one. *)
Lemma strings_Contains_middle (a b c : string) :
  strings_Contains (a +:+ b +:+ c) b = true.
Proof.
  induction a as [|x a IH].
  - change ("" +:+ b +:+ c) with (b +:+ c).
    apply cluster_facts.strings_Contains_append.
  - change (String x a +:+ b +:+ c) with (String x (a +:+ b +:+ c)).
    unfold strings_Contains; fold strings_Contains.
    now destruct (String.prefix b (String x (a +:+ b +:+ c))).
Qed.

(** [kubeletSystemService] looks at the systemd directory of the staging
    directory first.  When the directory is there, it writes the unit file
    into it and creates nothing; when the answer is that it does not exist,
    it creates it (mode 0777) and writes the unit file only if that worked;
    any other answer ends the function with that error and nothing is
    created or written.  An error of the look-up or of the creation comes
    back as it is, an error of the write wrapped.  The unit file is
    kubelet.service (mode 0644) and runs the kubelet with the name of the
    substrate as host name. *)
Theorem kubeletSystemService_creates_missing_directory (cfg : InitConfiguration)
    (substrate : Substrate) (w : World) (tr0 : list Event) :
  let dir := path_Join ["/tmp/"; bucketName substrate; "/etc/systemd/system"] in
  let write := Ioutil_WriteFile (path_Join [dir; "kubelet.service"])
                 (kubeletService (Name substrate)) 420 in
  let wrapped (r : option error) :=
    match r with
    | Some e => Some (ErrWrap "writing kubelet configuration, " e)
    | None => None
    end in
  let run := kubeletSystemService cfg substrate (w, tr0) in
  let s0 := ext (Os_Stat dir) w in
  (snd s0 = None ->
     let s1 := ext write (fst s0) in
     run = ((fst s1, tr0 ++ [Ev (Os_Stat dir) None; Ev write (snd s1)]), wrapped (snd s1)))
  /\ (forall e, snd s0 = Some e -> os_IsNotExist e = false ->
     run = ((fst s0, tr0 ++ [Ev (Os_Stat dir) (Some e)]), Some e))
  /\ (forall e, snd s0 = Some e -> os_IsNotExist e = true ->
     let s1 := ext (Os_MkdirAll dir 511) (fst s0) in
     let s2 := ext write (fst s1) in
     (forall e', snd s1 = Some e' ->
        run = ((fst s1, tr0 ++ [Ev (Os_Stat dir) (Some e);
                                Ev (Os_MkdirAll dir 511) (Some e')]), Some e'))
     /\ (snd s1 = None ->
        run = ((fst s2, tr0 ++ [Ev (Os_Stat dir) (Some e); Ev (Os_MkdirAll dir 511) None;
                                Ev write (snd s2)]), wrapped (snd s2))))
  /\ strings_Contains (kubeletService (Name substrate))
       ("--hostname-override=" +:+ Name substrate) = true.
Proof.
  intros dir write wrapped run s0. subst run.
  unfold kubeletSystemService, ClusterCertsBasePath, kubeletSystemdPath.
  fold dir write. rewrite cluster_facts.bind_run, cluster_facts.call_eq.
  cbn [fst snd]. fold s0.
  assert (W : forall s : State,
    on_err (call write) (fun err => Some (Errorf_w "writing kubelet configuration, " err))
      (ret None) s
    = ((fst (ext write (fst s)), snd s ++ [Ev write (snd (ext write (fst s)))]),
       wrapped (snd (ext write (fst s))))).
  { intros [w1 tr1]. rewrite on_err_run, cluster_facts.call_eq. cbn [fst snd].
    now destruct (snd (ext write w1)). }
  split; [|split; [|split]].
  - intros H. cbv zeta. rewrite H, W. cbn [fst snd]. now rewrite <- app_assoc.
  - intros e H NE. rewrite H, NE. reflexivity.
  - intros e H NE. cbv zeta. rewrite H, NE. cbn [negb].
    rewrite on_err_run, cluster_facts.call_eq. cbn [fst snd]. split.
    + intros e' H1. rewrite H1. now rewrite <- app_assoc.
    + intros H1. rewrite H1, W. cbn [fst snd]. now rewrite <- !app_assoc.
  - unfold kubeletService.
    match goal with
    | |- strings_Contains (?l1 ++ ?n ++ ?l2) _ = true =>
        set (rest := l2)
    end.
    apply (strings_Contains_middle
             "[Unit]
After=docker.service iptables-restore.service
Requires=docker.service

[Service]
ExecStart=/usr/bin/kubelet " ("--hostname-override=" +:+ Name substrate) rest).
Qed.

(** [ensureAuthenticatorConfig] asks STS for the identity of the caller,
    asks for the configuration of the authenticator (for the name and
    namespace of the substrate, its tenant-controlplane-node-role, and the
    account of the caller; the empty string when the identity has none),
    creates the directory /etc/aws-iam-authenticator of the staging directory
    (mode 0700) and writes config.yaml into it (mode 0644), in this order.
    The first failure ends the function, wrapped with what was being done, so
    that nothing is created or written unless identity and configuration were
    obtained.  What is written is the entry config.yaml of the configuration;
    when the configuration has no such entry, an empty file is written and
    the function still succeeds. *)
Theorem ensureAuthenticatorConfig_in_order (substrate : Substrate)
    (w : World) (tr0 : list Event) :
  let role := aws_StringValue (discovery_Name substrate ["tenant-controlplane-node-role"]) in
  let dir := path_Join ["/tmp/"; bucketName substrate; "/etc/aws-iam-authenticator"] in
  let run := ensureAuthenticatorConfig substrate (w, tr0) in
  let s0 := ext STS_GetCallerIdentity w in
  let account := match snd s0 with inl a => a | inr _ => None end in
  let config := Iamauthenticator_Config (Name substrate) (Namespace substrate) role
                  (aws_StringValue account) in
  let s1 := ext config (fst s0) in
  let data := match snd s1 with inl d => d | inr _ => ∅ end in
  let write content := Ioutil_WriteFile (path_Join [dir; "config.yaml"]) content 420 in
  exists tr n,
    snd (fst run) = tr0 ++ tr
    /\ calls tr = take n [STS_GetCallerIdentity; config; Os_MkdirAll dir 448;
                          write (default "" (data !! "config.yaml"))]
    /\ (data !! "config.yaml" = None ->
        write (default "" (data !! "config.yaml")) = write "")
    /\ (snd run = None -> n = 4 /\ failures tr = [])
    /\ (forall err, snd run = Some err ->
        exists e pre k,
          n = S k /\ failures tr = [e] /\ err = ErrWrap pre e
          /\ ["getting caller identity, "; "creating authenticator config, ";
              "failed to create directory, "; "writing authenticator config, "] !! k
             = Some pre).
Proof.
  intros role dir run s0 account config s1 data write. subst run.
  unfold ensureAuthenticatorConfig, ClusterCertsBasePath, authenticatorConfigDir,
    tenantControlPlaneNodeRole.
  fold role dir. rewrite cluster_facts.bind_run, cluster_facts.call_eq.
  cbn [fst snd]. fold s0. subst data account config s1.
  destruct (snd s0) as [account|e0] eqn:A0; cbn [ret].
  2:{ eexists _, 1. split; [trace_eq|]. split; [reflexivity|].
      split; [now intros ->|]. split; [discriminate|].
      intros err [= <-]. eexists _, _, 0. cbn. repeat split. }
  rewrite cluster_facts.bind_run, cluster_facts.call_eq. cbn [fst snd].
  set (config := Iamauthenticator_Config (Name substrate) (Namespace substrate) role
                   (aws_StringValue account)).
  set (s1 := ext config (fst s0)).
  destruct (snd s1) as [data|e1] eqn:A1; cbn [ret].
  2:{ eexists _, 2. split; [trace_eq|]. split; [reflexivity|].
      split; [now intros ->|]. split; [discriminate|].
      intros err [= <-]. eexists _, _, 1. cbn. repeat split. }
  cbv zeta. checked_call1.
  { eexists _, 3. split; [trace_eq|]. split; [reflexivity|].
    split; [now intros ->|]. split; [discriminate|].
    intros err [= <-]. eexists _, _, 2. cbn. repeat split. }
  checked_call1.
  { eexists _, 4. split; [trace_eq|]. split; [reflexivity|].
    split; [now intros ->|]. split; [discriminate|].
    intros err [= <-]. eexists _, _, 3. cbn. repeat split. }
  eexists _, 4. split; [trace_eq|]. split; [reflexivity|].
  split; [now intros ->|]. cbn. split; [now split | discriminate].
Qed.

(** [staticPodSpecForAuthenticator], when [iamauthenticator.PodSpec] applies
    the option it is given to its template: the pod that is serialised is the
    template moved to the namespace kube-system, with the volume config (the
    host path /etc/aws-iam-authenticator) added after the volumes of the
    template, which are all kept.  The manifest is written as
    aws-iam-authenticator.yaml into the manifests directory of the staging
    directory (mode 0644); when the serialisation fails nothing is written.
    Both errors come back wrapped. *)
Theorem staticPodSpecForAuthenticator_pod (substrate : Substrate) (template : PodTemplateSpec)
    (w : World) (tr0 : list Event) :
  (forall opt, iamauthenticator_PodSpec opt = opt template) ->
  let pod := {| Pod_Name := Pod_Name template;
                Pod_Namespace := "kube-system";
                Pod_Volumes := Pod_Volumes template ++
                  [{| Volume_Name := "config";
                      Volume_HostPath := "/etc/aws-iam-authenticator" |}];
                Pod_Containers := Pod_Containers template |} in
  let file := path_Join ["/tmp/"; bucketName substrate; "/etc/kubernetes/manifests";
                         "aws-iam-authenticator.yaml"] in
  let run := staticPodSpecForAuthenticator substrate (w, tr0) in
  let s0 := ext (Kubeadmutil_MarshalToYaml pod) w in
  (forall e, snd s0 = inr e ->
     run = ((fst s0, tr0 ++ [Ev (Kubeadmutil_MarshalToYaml pod) (inr e)]),
            Some (ErrWrap "failed to marshal config map manifest, " e)))
  /\ (forall yaml, snd s0 = inl yaml ->
     let s1 := ext (Ioutil_WriteFile file yaml 420) (fst s0) in
     run = ((fst s1, tr0 ++ [Ev (Kubeadmutil_MarshalToYaml pod) (inl yaml);
                             Ev (Ioutil_WriteFile file yaml 420) (snd s1)]),
            match snd s1 with
            | Some e => Some (ErrWrap "writing authenticator pod yaml, " e)
            | None => None
            end)).
Proof.
  intros H pod file run s0. subst run.
  unfold staticPodSpecForAuthenticator, ClusterCertsBasePath, clusterManifestPath,
    authenticatorConfigDir.
  rewrite H. fold pod file.
  rewrite cluster_facts.bind_run, cluster_facts.call_eq. cbn [fst snd]. fold s0.
  split.
  - intros e ->. reflexivity.
  - intros yaml ->. cbv zeta.
    rewrite on_err_run, cluster_facts.call_eq. cbn [fst snd].
    destruct (snd (ext (Ioutil_WriteFile file yaml 420) (fst s0)));
      cbn [ret]; now rewrite <- app_assoc.
Qed.

(** [ErrNoSuchBucket]: nil is not a missing bucket; an AWS error is one
    exactly when its code is NoSuchBucket; wrapping with [%w], any number of
    times, does not hide it; an error that only carries the text of another
    ([%v]) is never one, however it is wrapped and whatever that text says.
    Every error it recognises has NoSuchBucket in its text, which is what the
    first step of [Delete] looks for; but there are AWS errors with
    NoSuchBucket in their text that it does not recognise. *)
Theorem ErrNoSuchBucket_sees_through_wrapping (pres : list string) :
  ErrNoSuchBucket None = false
  /\ (forall e, ErrNoSuchBucket (Some (foldr Errorf_w (ErrAws e) pres))
                = String.eqb (awserr.Code e) "NoSuchBucket")
  /\ (forall pre err,
        ErrNoSuchBucket (Some (foldr Errorf_w (Errorf_v pre err) pres)) = false)
  /\ (forall e, ErrNoSuchBucket (Some (foldr Errorf_w (ErrAws e) pres)) = true ->
        strings_Contains (awserr.Error_text e) "NoSuchBucket" = true)
  /\ (exists e, strings_Contains (awserr.Error_text e) "NoSuchBucket" = true
               /\ ErrNoSuchBucket (Some (ErrAws e)) = false).
Proof.
  assert (W : forall err,
             ErrNoSuchBucket (Some (foldr Errorf_w err pres)) = ErrNoSuchBucket (Some err)).
  { intros err. induction pres as [|pre l IH]; [reflexivity|]. exact IH. }
  split; [reflexivity|]. split; [intros e; now rewrite W|].
  split; [intros pre err; now rewrite W|]. split.
  - intros e. rewrite W. unfold ErrNoSuchBucket, s3_ErrCodeNoSuchBucket.
    cbn [errors_As_awserr]. intros H. apply String.eqb_eq in H.
    now apply cluster_facts.NoSuchBucket_code_in_text.
  - exists {| awserr.Code := "AccessDenied"; awserr.Message := "NoSuchBucket";
              awserr.Detail := "" |}.
    split; reflexivity.
Qed.

(** The three ways a run of [Delete] can end. *)
Lemma Delete_cases (substrate : Substrate) (w : World) (tr0 : list Event) :
  let b := discovery_Name substrate [] in
  let dir := path_Join ["/tmp/"; bucketName substrate] in
  let a1 := ext (S3_BatchDelete b) w in
  let a2 := ext (S3_DeleteBucket b) (fst a1) in
  let a3 := ext (Os_RemoveAll dir) (fst a2) in
  (exists e1,
      snd a1 = Some e1
      /\ strings_Contains (awserr.Error_text e1) "NoSuchBucket" = false
      /\ Delete substrate (w, tr0) =
         ((fst a1, tr0 ++ [Ev (S3_BatchDelete b) (snd a1)]),
          (Result_zero, Some (Errorf_v "deleting objects from bucket " (ErrAws e1)))))
  \/ (exists e2,
      snd a2 = Some e2
      /\ String.eqb (awserr.Code e2) "NoSuchBucket" = false
      /\ Delete substrate (w, tr0) =
         ((fst a2, tr0 ++ [Ev (S3_BatchDelete b) (snd a1); Ev (S3_DeleteBucket b) (snd a2)]),
          (Result_zero, Some (Errorf_w "deleting S3, " (ErrAws e2)))))
  \/ Delete substrate (w, tr0) =
       ((fst a3, tr0 ++ [Ev (S3_BatchDelete b) (snd a1); Ev (S3_DeleteBucket b) (snd a2);
                         Ev (Os_RemoveAll dir) (snd a3)]),
        (Result_zero, snd a3)).
Proof.
  intros b dir a1 a2 a3.
  unfold Delete, bucketName, ClusterCertsBasePath, s3_ErrCodeNoSuchBucket.
  rewrite cluster_facts.bind_run, cluster_facts.call_eq. cbn [fst snd]. fold b a1.
  assert (Last : forall tr,
    bind (call (Os_RemoveAll dir)) (fun r0 => ret (Result_zero, r0)) (fst a2, tr)
    = ((fst a3, tr ++ [Ev (Os_RemoveAll dir) (snd a3)]), (Result_zero, snd a3))).
  { intros tr. now rewrite cluster_facts.bind_run, cluster_facts.call_eq. }
  destruct (snd a1) as [e1|];
    [destruct (strings_Contains (awserr.Error_text e1) "NoSuchBucket") eqn:C1|];
    cbn [negb].
  2:{ left. exists e1. repeat split. exact C1. }
  all: right; rewrite cluster_facts.bind_run, cluster_facts.call_eq;
    cbn [fst snd]; fold a2 dir;
    (destruct (snd a2) as [e2|];
     [destruct (String.eqb (awserr.Code e2) "NoSuchBucket") eqn:C2|]; cbn [negb]);
    try (right; rewrite Last; rewrite <- !app_assoc; reflexivity);
    left; exists e2; (split; [reflexivity|]); (split; [exact C2|]);
    cbn [ret]; now rewrite <- app_assoc.
Qed.

(** The errors of [Delete].  When [Delete] returns an error of one of its
    two S3 steps (so that the staging directory was not removed), the error
    is never recognised by [ErrNoSuchBucket].  The error of the deletion of
    the objects carries only the text of the AWS error: the AWS error cannot
    be recovered from it.  The error of the deletion of the bucket wraps the
    AWS error, which can be recovered from it. *)
Theorem Delete_errors (substrate : Substrate) (w : World) (tr0 : list Event) :
  let b := discovery_Name substrate [] in
  let dir := path_Join ["/tmp/"; bucketName substrate] in
  let a1 := ext (S3_BatchDelete b) w in
  let a2 := ext (S3_DeleteBucket b) (fst a1) in
  let run := Delete substrate (w, tr0) in
  exists tr,
    snd (fst run) = tr0 ++ tr
    /\ forall err, snd (snd run) = Some err ->
       (Os_RemoveAll dir ∉ calls tr -> ErrNoSuchBucket (Some err) = false)
       /\ (calls tr = [S3_BatchDelete b] ->
           exists e1, snd a1 = Some e1
             /\ error_Error err = "deleting objects from bucket " +:+ awserr.Error_text e1
             /\ errors_Unwrap err = None
             /\ errors_As_awserr err = None)
       /\ (calls tr = [S3_BatchDelete b; S3_DeleteBucket b] ->
           exists e2, snd a2 = Some e2
             /\ errors_Unwrap err = Some (ErrAws e2)
             /\ errors_As_awserr err = Some e2).
Proof.
  intros b dir a1 a2 run. subst run.
  destruct (Delete_cases substrate w tr0)
    as [(e1 & A1 & C1 & ->) | [(e2 & A2 & C2 & ->) | ->]]; fold b dir a1 a2.
  - eexists. split; [reflexivity|]. cbn [fst snd]. intros err [= <-].
    split; [reflexivity|]. split.
    + intros _. exists e1. now repeat split.
    + discriminate.
  - eexists. split; [reflexivity|]. cbn [fst snd]. intros err [= <-].
    split; [|split].
    + intros _. unfold ErrNoSuchBucket, s3_ErrCodeNoSuchBucket. cbn. exact C2.
    + discriminate.
    + intros _. exists e2. now repeat split.
  - eexists. split; [reflexivity|]. cbn [fst snd]. intros err Herr.
    split; [|split]; [|discriminate..].
    intros Hnot. exfalso. apply Hnot. cbn. set_solver.
Qed.

(** *** What the steps of [Create] call *)

Lemma emits_ensureBucket (substrate : Substrate) :
  emits (fun c => c = S3_CreateBucket (discovery_Name substrate []) Region)
    (ensureBucket substrate).
Proof.
  unfold ensureBucket.
  apply emits_bind;
    [now apply (emits_call _ (S3_CreateBucket (discovery_Name substrate []) Region))|].
  intros [e|]; [|apply emits_ret].
  destruct (negb _); apply emits_ret.
Qed.

(** Break a step down into its calls. *)
Ltac emits_generation :=
  repeat first
    [ apply emits_ret
    | match goal with
      | |- emits _ (call ?c) => apply (emits_call _ c); exact I
      end
    | apply emits_on_err
    | apply emits_range_err; intros ?
    | apply emits_bind; [|intros ?]
    | match goal with
      | |- emits _ (match ?x with _ => _ end) => destruct x
      | |- emits _ (if ?x then _ else _) => destruct x
      end
    | progress cbv zeta ].

Lemma emits_generateCerts cfg substrate : emits is_generation (generateCerts cfg substrate).
Proof. unfold generateCerts. emits_generation. Qed.

Lemma emits_kubeConfigs cfg substrate : emits is_generation (kubeConfigs cfg substrate).
Proof. unfold kubeConfigs. emits_generation. Qed.

Lemma emits_generateStaticPodManifests cfg substrate :
  emits is_generation (generateStaticPodManifests cfg substrate).
Proof. unfold generateStaticPodManifests. emits_generation. Qed.

Lemma emits_kubeletSystemService cfg substrate :
  emits is_generation (kubeletSystemService cfg substrate).
Proof. unfold kubeletSystemService. emits_generation. Qed.

Lemma emits_ensureAuthenticatorConfig substrate :
  emits is_generation (ensureAuthenticatorConfig substrate).
Proof. unfold ensureAuthenticatorConfig. emits_generation. Qed.

Lemma emits_staticPodSpecForAuthenticator substrate :
  emits is_generation (staticPodSpecForAuthenticator substrate).
Proof. unfold staticPodSpecForAuthenticator. emits_generation. Qed.

(** *** The walk and the upload of the staging directory *)

Lemma walk_app_no_error (pre rest : list WalkEntry) (acc : list string) :
  Forall (fun x => we_err x = None) pre ->
  walk (pre ++ rest) acc
  = walk rest (acc ++ map we_path (List.filter (fun x => negb (we_IsDir x)) pre)).
Proof.
  revert acc; induction pre as [|x pre IH]; intros acc H.
  - cbn. now rewrite app_nil_r.
  - apply Forall_cons in H as [Hx H]. cbn [app walk]. unfold walkFn. rewrite Hx.
    cbn [List.filter]. destruct (negb (we_IsDir x)); rewrite (IH _ H); [|reflexivity].
    cbn [map]. now rewrite <- app_assoc.
Qed.

(** The walk of [NewDirectoryIterator] records the paths of the entries that
    are not directories, in the order of the walk.  It stops at the first
    entry that comes with an error: the paths found before it are kept, that
    entry and every entry after it are left out, and the error is dropped:
    the iterator that is built holds the paths of the walk and no error,
    whatever the walk met. *)
Theorem walk_skips_directories_and_stops_at_error (entries : list WalkEntry) :
  (Forall (fun x => we_err x = None) entries ->
     walk entries [] = map we_path (List.filter (fun x => negb (we_IsDir x)) entries))
  /\ (forall pre e post err,
      entries = pre ++ e :: post ->
      Forall (fun x => we_err x = None) pre -> we_err e = Some err ->
      walk entries [] = map we_path (List.filter (fun x => negb (we_IsDir x)) pre))
  /\ (forall b dir w tr0,
      snd (ext (Filepath_Walk dir) w) = entries ->
      let d := snd (NewDirectoryIterator b dir (w, tr0)) in
      filePaths d = walk entries [] /\ Err d = None).
Proof.
  split; [|split].
  - intros H. rewrite <- (app_nil_r entries) at 1.
    now rewrite (walk_app_no_error entries [] [] H).
  - intros pre e post err -> H He.
    rewrite (walk_app_no_error pre (e :: post) [] H). cbn [walk app]. unfold walkFn.
    now rewrite He.
  - intros b dir w tr0 H. unfold NewDirectoryIterator.
    rewrite cluster_facts.bind_run, cluster_facts.call_eq. cbn [fst snd ret].
    now rewrite H.
Qed.

Lemma upload_trace_calls (b dir : string) (ps : list string) :
  forall tr, upload_trace b ps tr -> Forall (upload_may_call b dir) (calls tr).
Proof.
  induction ps as [|p ps IH]; intros tr; cbn [upload_trace].
  - intros ->. constructor.
  - intros [[e ->] | (f & u & c & tr' & -> & H)].
    + repeat constructor.
    + cbn. repeat constructor. apply (IH _ H).
Qed.

(** The upload of a directory as [Create] runs it.  Building the iterator
    walks the directory and opens nothing.  The upload then opens a prefix of
    the paths walked, uploads each file it could open to the bucket, under
    the path of the file as its key, and closes it; it always finishes; and
    when the walk found no file it makes no further call and succeeds. *)
Theorem uploadDirectory_walks_then_uploads (b dir : string) (w : World)
    (tr0 : list Event) :
  let a := ext (Filepath_Walk dir) w in
  let paths := walk (snd a) [] in
  let run := uploadDirectory b dir (w, tr0) in
  NewDirectoryIterator b dir (w, tr0)
  = ((fst a, tr0 ++ [Ev (Filepath_Walk dir) (snd a)]),
     {| filePaths := paths; bucket := b; next_path := ""; next_f := None; err := None |})
  /\ exists tr,
      snd (fst run) = tr0 ++ Ev (Filepath_Walk dir) (snd a) :: tr
      /\ upload_trace b paths tr
      /\ (exists k, map fst (opens tr) = take k paths)
      /\ uploads tr = omap (fun o => match snd o with
                                     | Some f => Some (b, fst o, Some f)
                                     | None => None
                                     end) (opens tr)
      /\ Forall (upload_may_call b dir) (calls tr)
      /\ snd run <> Some (ErrText "upload did not finish")
      /\ (paths = [] -> tr = [] /\ snd run = None).
Proof.
  intros a paths run. subst run.
  assert (N : NewDirectoryIterator b dir (w, tr0)
              = ((fst a, tr0 ++ [Ev (Filepath_Walk dir) (snd a)]),
                 {| filePaths := paths; bucket := b; next_path := ""; next_f := None;
                    err := None |})).
  { unfold NewDirectoryIterator. now rewrite cluster_facts.bind_run, cluster_facts.call_eq. }
  split; [exact N|].
  unfold uploadDirectory. rewrite cluster_facts.bind_run, N. cbn [fst snd].
  set (iter := {| filePaths := paths; bucket := b; next_path := ""; next_f := None;
                  err := None |}).
  rewrite cluster_facts.bind_run.
  destruct (cluster_facts.UploadWithIterator_finishes iter (fst a)
              (tr0 ++ [Ev (Filepath_Walk dir) (snd a)]))
    as (w' & tr & d' & e & Hrun & Htr).
  cbn [filePaths iter bucket] in Hrun, Htr. cbn [filePaths iter]. rewrite Hrun.
  cbn [fst snd ret]. exists tr.
  split; [now rewrite <- app_assoc|]. split; [exact Htr|].
  split; [exact (proj1 (cluster_facts.upload_trace_opens _ _ _ Htr))|].
  split; [exact (cluster_facts.upload_trace_uploads _ _ _ Htr)|].
  split; [exact (upload_trace_calls _ dir _ _ Htr)|].
  split.
  - intros H. assert (F : failures tr <> [] -> True) by auto.
    destruct e as [e|]; [|discriminate].
    revert H. unfold UploadWithIterator in Hrun.
    rewrite cluster_facts.bind_run in Hrun.
    destruct (snd (UploadWithIterator_loop (S (length paths)) iter []
                     (fst a, tr0 ++ [Ev (Filepath_Walk dir) (snd a)])))
      as [[it [|x errs]]|]; cbn in Hrun; inversion Hrun; discriminate.
  - intros Hp. subst paths. rewrite Hp in *. cbn [upload_trace] in Htr. subst tr.
    split; [reflexivity|].
    unfold UploadWithIterator in Hrun. rewrite cluster_facts.bind_run in Hrun.
    cbn [length UploadWithIterator_loop iter_Next DirectoryIterator_BatchUploadIterator]
      in Hrun.
    rewrite cluster_facts.bind_run, (cluster_facts.Next_nil iter _ Hp) in Hrun.
    cbn in Hrun. now inversion Hrun.
Qed.

Lemma uploadDirectory_trace (b dir : string) (w : World) (tr0 : list Event) :
  exists tr,
    snd (fst (uploadDirectory b dir (w, tr0)))
    = tr0 ++ Ev (Filepath_Walk dir) (snd (ext (Filepath_Walk dir) w)) :: tr
    /\ Forall (upload_may_call b dir) (calls tr).
Proof.
  unfold uploadDirectory, NewDirectoryIterator.
  rewrite !cluster_facts.bind_run, cluster_facts.call_eq. cbn [fst snd ret].
  match goal with
  | |- context [UploadWithIterator _ ?it (?w1, ?t1)] =>
      destruct (cluster_facts.UploadWithIterator_finishes it w1 t1)
        as (w' & tr & d' & e & Hrun & Htr)
  end.
  rewrite Hrun. cbn [fst snd ret filePaths bucket] in *. exists tr.
  split; [now rewrite <- app_assoc|]. exact (upload_trace_calls _ dir _ _ Htr).
Qed.

Lemma emits_uploadDirectory (b dir : string) :
  emits (upload_may_call b dir) (uploadDirectory b dir).
Proof.
  intros w tr0. destruct (uploadDirectory_trace b dir w tr0) as (tr & E1 & F).
  exists (Ev (Filepath_Walk dir) (snd (ext (Filepath_Walk dir) w)) :: tr).
  split; [exact E1|]. cbn. constructor; [reflexivity | exact F].
Qed.

(** *** [Create] and [Delete] as a whole *)

Lemma emits_Delete (substrate : Substrate) :
  emits (Delete_may_call substrate) (Delete substrate).
Proof.
  unfold Delete, Delete_may_call.
  apply emits_bind; [apply (emits_call _ (S3_BatchDelete _)); auto|]. intros r1.
  destruct (match r1 with Some _ => _ | None => _ end); [apply emits_ret|].
  apply emits_bind; [apply (emits_call _ (S3_DeleteBucket _)); auto|]. intros r2.
  destruct (match r2 with Some _ => _ | None => _ end); [apply emits_ret|].
  apply emits_bind; [apply (emits_call _ (Os_RemoveAll _)); auto|]. intros r3.
  apply emits_ret.
Qed.

Lemma generation_may_call (substrate : Substrate) (c : Call) :
  is_generation c -> Create_may_call substrate c.
Proof. destruct c; cbn; tauto. Qed.

Lemma emits_Create (substrate : Substrate) :
  emits (Create_may_call substrate) (Create substrate).
Proof.
  pose proof (generation_may_call substrate) as G.
  unfold Create. destruct (Address _); [|apply emits_ret].
  apply emits_on_err.
  { eapply emits_weaken; [|apply emits_ensureBucket]. intros c ->. now cbn. }
  cbv zeta. apply emits_bind.
  { eapply emits_weaken; [exact G | apply emits_generateCerts]. }
  intros [cfg1 r1]. apply emits_on_err; [apply emits_ret|].
  apply emits_on_err.
  { eapply emits_weaken; [exact G | apply emits_kubeConfigs]. }
  apply emits_bind.
  { eapply emits_weaken; [exact G | apply emits_generateStaticPodManifests]. }
  intros [cfg2 r2]. apply emits_on_err; [apply emits_ret|].
  apply emits_on_err.
  { eapply emits_weaken; [exact G | apply emits_kubeletSystemService]. }
  apply emits_on_err.
  { eapply emits_weaken; [exact G | apply emits_ensureAuthenticatorConfig]. }
  apply emits_on_err.
  { eapply emits_weaken; [exact G | apply emits_staticPodSpecForAuthenticator]. }
  apply emits_on_err; [|apply emits_ret].
  eapply emits_weaken; [|apply emits_uploadDirectory].
  intros c. destruct c; cbn; tauto.
Qed.

(** [Create] and [Delete] keep to their own substrate and to their own side.
    Every call of [Create] is a generation call, the creation of the bucket
    named after the substrate, the walk of the staging directory of the
    substrate, an open or a close, or an upload to that bucket; every call of
    [Delete] deletes the objects of that bucket, deletes that bucket, or
    removes that staging directory; and no call is allowed to both. *)
Theorem Create_and_Delete_keep_to_their_substrate (substrate : Substrate) :
  emits (Create_may_call substrate) (Create substrate)
  /\ emits (Delete_may_call substrate) (Delete substrate)
  /\ (forall c, Create_may_call substrate c -> ~ Delete_may_call substrate c).
Proof.
  split; [apply emits_Create|]. split; [apply emits_Delete|].
  intros c Hc [-> | [-> | ->]]; exact Hc.
Qed.

Section Invariant.
Variable G : Call -> Prop.
Variable tr0 : list Event.

Lemma on_err_gen {A} (Q : State * A -> Prop) (m : Go (option error)) (h : error -> A)
    (k : Go A) :
  emits G m ->
  (forall w pre e, Forall G (calls pre) -> Q ((w, tr0 ++ pre), h e)) ->
  (forall w pre, Forall G (calls pre) -> Q (k (w, tr0 ++ pre))) ->
  forall w pre, Forall G (calls pre) -> Q (on_err m h k (w, tr0 ++ pre)).
Proof.
  intros Hm He Hk w pre F. apply cluster_facts.on_err_ind.
  - intros [w' t'] e H. destruct (emits_run _ _ _ _ _ _ Hm H) as (tr & E1 & F1).
    cbn [snd] in E1. subst t'. rewrite <- app_assoc. apply He.
    rewrite calls_app. now apply Forall_app.
  - intros [w' t'] H. destruct (emits_run _ _ _ _ _ _ Hm H) as (tr & E1 & F1).
    cbn [snd] in E1. subst t'. rewrite <- app_assoc. apply Hk.
    rewrite calls_app. now apply Forall_app.
Qed.

Lemma bind_gen {A B} (Q : State * B -> Prop) (m : Go A) (k : A -> Go B) :
  emits G m ->
  (forall a w pre, Forall G (calls pre) -> Q (k a (w, tr0 ++ pre))) ->
  forall w pre, Forall G (calls pre) -> Q (bind m k (w, tr0 ++ pre)).
Proof.
  intros Hm Hk w pre F. rewrite cluster_facts.bind_run.
  destruct (m (w, tr0 ++ pre)) as [[w' t'] a] eqn:H.
  destruct (emits_run _ _ _ _ _ _ Hm H) as (tr & E1 & F1).
  cbn [fst snd] in *. subst t'. rewrite <- app_assoc. apply Hk.
  rewrite calls_app. now apply Forall_app.
Qed.

End Invariant.

(** [Create] uploads last.  The trace of a run splits into a first part with
    the creation of the bucket and generation calls only, and a second part
    that is empty or starts with the walk of the staging directory and holds
    the upload.  When [Create] reports a failure of any step before the
    upload, the second part is empty: nothing was walked, opened or uploaded,
    so a failed generation never leaves a partly written bucket. *)
Theorem Create_uploads_last (substrate : Substrate) (w : World) (tr0 : list Event) :
  let run := Create substrate (w, tr0) in
  let out := snd (snd (snd run)) in
  let dir := path_Join [ClusterCertsBasePath; bucketName substrate] in
  exists pre up,
    snd (fst run) = tr0 ++ pre ++ up
    /\ Forall (fun c => c = S3_CreateBucket (discovery_Name substrate []) Region
                       \/ is_generation c) (calls pre)
    /\ (up = [] \/ exists entries rest,
          up = Ev (Filepath_Walk dir) entries :: rest
          /\ Forall (upload_may_call (bucketName substrate) dir) (calls rest))
    /\ (out = None
        \/ (exists err, out = Some (Errorf_w "uploading to S3 " err))
        \/ (up = [] /\ exists p err,
              out = Some (Errorf_w p err)
              /\ In p ["ensuring S3 bucket, "; "generating certs, ";
                       "generating kube config, "; "generating manifests, ";
                       "generating kubelet service config, ";
                       "generating authenticator config, "])).
Proof.
  intros run out dir. subst run out.
  set (G := fun c => c = S3_CreateBucket (discovery_Name substrate []) Region
                     \/ is_generation c).
  set (Q := fun R : State * (Substrate * (Result * option error)) =>
    exists pre up,
      snd (fst R) = tr0 ++ pre ++ up
      /\ Forall G (calls pre)
      /\ (up = [] \/ exists entries rest,
            up = Ev (Filepath_Walk dir) entries :: rest
            /\ Forall (upload_may_call (bucketName substrate) dir) (calls rest))
      /\ (snd (snd (snd R)) = None
          \/ (exists err, snd (snd (snd R)) = Some (Errorf_w "uploading to S3 " err))
          \/ (up = [] /\ exists p err,
                snd (snd (snd R)) = Some (Errorf_w p err)
                /\ In p ["ensuring S3 bucket, "; "generating certs, ";
                         "generating kube config, "; "generating manifests, ";
                         "generating kubelet service config, ";
                         "generating authenticator config, "]))).
  change (Q (Create substrate (w, tr0))).
  assert (Fail : forall w pre p e,
             In p ["ensuring S3 bucket, "; "generating certs, ";
                   "generating kube config, "; "generating manifests, ";
                   "generating kubelet service config, ";
                   "generating authenticator config, "] ->
             Forall G (calls pre) ->
             Q ((w, tr0 ++ pre), (substrate, (Result_zero, Some (Errorf_w p e))))).
  { intros w1 pre p e Hp F. exists pre, []. cbn [fst snd]. rewrite app_nil_r.
    split; [reflexivity|]. split; [exact F|]. split; [now left|].
    right; right. split; [reflexivity|]. now exists p, e. }
  assert (Gen : forall A (m : Go A), emits is_generation m -> emits G m).
  { intros A m. apply emits_weaken. intros c Hc. now right. }
  unfold Create. destruct (Address _).
  2:{ exists [], []. cbn. rewrite app_nil_r. repeat split; auto. }
  rewrite <- (app_nil_r tr0) at 1.
  assert (F0 : Forall G (calls [])) by constructor.
  revert F0. generalize (@nil Event). revert w.
  apply on_err_gen.
  { eapply emits_weaken; [|apply emits_ensureBucket]. intros c ->. now left. }
  { intros; apply Fail; cbn; auto 10. }
  cbv zeta. apply bind_gen; [apply Gen, emits_generateCerts|]. intros [cfg1 r1].
  apply on_err_gen; [apply emits_ret | intros; apply Fail; cbn; auto 10 |].
  apply on_err_gen;
    [apply Gen, emits_kubeConfigs | intros; apply Fail; cbn; auto 10 |].
  apply bind_gen; [apply Gen, emits_generateStaticPodManifests|]. intros [cfg2 r2].
  apply on_err_gen; [apply emits_ret | intros; apply Fail; cbn; auto 10 |].
  apply on_err_gen;
    [apply Gen, emits_kubeletSystemService | intros; apply Fail; cbn; auto 10 |].
  apply on_err_gen;
    [apply Gen, emits_ensureAuthenticatorConfig | intros; apply Fail; cbn; auto 10 |].
  apply on_err_gen;
    [apply Gen, emits_staticPodSpecForAuthenticator
    | intros; apply Fail; cbn; auto 10 |].
  intros w1 pre F. rewrite on_err_run.
  destruct (uploadDirectory_trace (bucketName substrate) dir w1 (tr0 ++ pre))
    as (rest & E1 & F1).
  fold dir.
  destruct (uploadDirectory (bucketName substrate) dir (w1, tr0 ++ pre))
    as [[w2 t2] [e|]]; cbn [fst snd ret] in *; subst t2.
  - exists pre, (Ev (Filepath_Walk dir) (snd (ext (Filepath_Walk dir) w1)) :: rest).
    cbn [fst snd]. rewrite <- app_assoc. split; [reflexivity|]. split; [exact F|].
    split; [right; eauto|]. right; left. now exists e.
  - exists pre, (Ev (Filepath_Walk dir) (snd (ext (Filepath_Walk dir) w1)) :: rest).
    cbn [fst snd]. rewrite <- app_assoc. split; [reflexivity|]. split; [exact F|].
    split; [right; eauto|]. now left.
Qed.

(** *** [DefaultClusterConfig] *)

(** The configuration [DefaultClusterConfig] builds agrees with itself,
    whatever the substrate and the defaults of kubeadm.  The address the API
    server advertises is the address of the cluster (the empty string when
    there is none): it is the advertise address of the local endpoint, the
    value of the flag advertise-address, the host of the control plane
    endpoint, whose port is the bind port and the flag secure-port, and it is
    among the names of the certificate, as is the name of the substrate.
    The node and the etcd member are both named after the substrate, and the
    member is the only one of its initial cluster, at the peer URL it
    advertises and listens on.  The file the flag of the webhook names is
    mounted, read-only, at the same path.  No map of extra arguments is left
    nil, the arguments the defaults had for the scheduler and the controller
    manager are kept, and so is the certificates directory of the defaults. *)
Theorem DefaultClusterConfig_agrees_with_itself (substrate : Substrate) :
  let cfg := DefaultClusterConfig substrate in
  let ip := aws_StringValue (Address (Cluster (Status substrate))) in
  (AdvertiseAddress cfg = ip
   /\ (Address (Cluster (Status substrate)) = None -> ControlPlaneEndpoint cfg = ":443")
   /\ ControlPlaneEndpoint cfg = AdvertiseAddress cfg +:+ ":443"
   /\ BindPort cfg = 443%Z
   /\ (exists args, APIServer_ExtraArgs cfg = Some args
         /\ args !! "advertise-address" = Some (AdvertiseAddress cfg)
         /\ args !! "secure-port" = Some "443"
         /\ exists file, args !! "authentication-token-webhook-config-file" = Some file
              /\ Forall (fun m => HostPath m = file /\ MountPath m = file
                                  /\ ReadOnly m = true)
                   (APIServer_ExtraVolumes cfg)
              /\ length (APIServer_ExtraVolumes cfg) = 1)
   /\ AdvertiseAddress cfg ∈ APIServer_CertSANs cfg
   /\ Name substrate ∈ APIServer_CertSANs cfg)
  /\ (NodeRegistration_Name cfg = Name substrate
      /\ exists etcd peer, Etcd_Local cfg = Some etcd
           /\ Etcd_ExtraArgs etcd !! "name" = Some (Name substrate)
           /\ Etcd_ExtraArgs etcd !! "initial-advertise-peer-urls" = Some peer
           /\ Etcd_ExtraArgs etcd !! "listen-peer-urls" = Some peer
           /\ Etcd_ExtraArgs etcd !! "initial-cluster"
              = Some (Name substrate +:+ "=" +:+ peer)
           /\ Etcd_ExtraArgs etcd !! "listen-client-urls"
              = Etcd_ExtraArgs etcd !! "advertise-client-urls"
           /\ ServerCertSANs etcd = PeerCertSANs etcd)
  /\ (is_Some (Scheduler_ExtraArgs cfg)
      /\ is_Some (ControllerManager_ExtraArgs cfg)
      /\ is_Some (KubeletExtraArgs cfg)
      /\ (forall m, Scheduler_ExtraArgs DefaultedStaticInitConfiguration = Some m ->
           Scheduler_ExtraArgs cfg = Some m)
      /\ (forall m, ControllerManager_ExtraArgs DefaultedStaticInitConfiguration = Some m ->
           ControllerManager_ExtraArgs cfg = Some m)
      /\ CertificatesDir cfg = CertificatesDir DefaultedStaticInitConfiguration).
Proof.
  intros cfg ip. subst cfg ip. unfold DefaultClusterConfig. cbv zeta.
  cbn [AdvertiseAddress ControlPlaneEndpoint BindPort APIServer_ExtraArgs
       APIServer_ExtraVolumes APIServer_CertSANs NodeRegistration_Name Etcd_Local
       Scheduler_ExtraArgs ControllerManager_ExtraArgs KubeletExtraArgs CertificatesDir].
  split; [|split].
  - split; [reflexivity|]. split; [now intros ->|]. split; [reflexivity|].
    split; [reflexivity|]. split.
    + eexists. split; [reflexivity|]. split; [reflexivity|]. split; [reflexivity|].
      eexists. split; [reflexivity|]. split; [|reflexivity].
      repeat constructor.
    + split; [left | right; left].
  - split; [reflexivity|]. eexists _, "https://127.0.0.1:2380".
    split; [reflexivity|]. cbn [Etcd_ExtraArgs ServerCertSANs PeerCertSANs].
    repeat split.
  - repeat split.
    + destruct (Scheduler_ExtraArgs DefaultedStaticInitConfiguration); eauto.
    + destruct (ControllerManager_ExtraArgs DefaultedStaticInitConfiguration); eauto.
    + eauto.
    + now intros m ->.
    + now intros m ->.
Qed.

End WithEnv.

Import cluster_world.

(** A walk that meets a directory, a file, an entry it cannot read and one
    more file: only the first file is recorded. *)
Lemma walk_stops_at_unreadable_entry :
  walk [{| we_path := "/tmp/s1/etc"; we_IsDir := true; we_err := None |};
        {| we_path := "/tmp/s1/etc/a"; we_IsDir := false; we_err := None |};
        {| we_path := "/tmp/s1/var"; we_IsDir := false;
           we_err := Some (ErrOs false "permission denied") |};
        {| we_path := "/tmp/s1/z"; we_IsDir := false; we_err := None |}] []
  = ["/tmp/s1/etc/a"].
Proof.
  exact (proj1 (proj2 (walk_skips_directories_and_stops_at_error (E := env) _))
           [{| we_path := "/tmp/s1/etc"; we_IsDir := true; we_err := None |};
            {| we_path := "/tmp/s1/etc/a"; we_IsDir := false; we_err := None |}]
           {| we_path := "/tmp/s1/var"; we_IsDir := false;
              we_err := Some (ErrOs false "permission denied") |}
           [{| we_path := "/tmp/s1/z"; we_IsDir := false; we_err := None |}]
           (ErrOs false "permission denied") eq_refl
           ltac:(repeat constructor) eq_refl).
Defined.

(** On the world whose authenticator has the pod aws-iam-authenticator as
    its template: the pod is moved to kube-system, gets the volume config,
    and is written into the manifests directory of the substrate s1. *)
Lemma staticPodSpecForAuthenticator_pod_addressed :
  staticPodSpecForAuthenticator (E := env) addressed (empty, []) =
  (({| buckets := ∅;
       files := [("/tmp/s1/etc/kubernetes/manifests/aws-iam-authenticator.yaml", true)];
       fds := []; next_fd := 3; s3_denied := false |},
    [Ev (Kubeadmutil_MarshalToYaml
           {| Pod_Name := "aws-iam-authenticator"; Pod_Namespace := "kube-system";
              Pod_Volumes := [{| Volume_Name := "config";
                                 Volume_HostPath := "/etc/aws-iam-authenticator" |}];
              Pod_Containers := ["aws-iam-authenticator"] |})
        (inl "kind: Pod");
     Ev (Ioutil_WriteFile "/tmp/s1/etc/kubernetes/manifests/aws-iam-authenticator.yaml"
           "kind: Pod" 420) None]),
   None).
Proof.
  exact (proj2 (staticPodSpecForAuthenticator_pod (E := env) addressed
                  {| Pod_Name := "aws-iam-authenticator"; Pod_Namespace := "";
                     Pod_Volumes := []; Pod_Containers := ["aws-iam-authenticator"] |}
                  empty [] (fun opt => eq_refl))
           "kind: Pod" eq_refl).
Defined.

End cluster_steps.

(* ===================================================================== *)
(** ** More on the composer, the endpoint and the security groups         *)
(* ===================================================================== *)

Module controlplane_steps.
Import controlplane.

(** Wrapping with [%w] keeps every target of [errors.Is]. *)
Lemma errors_Is_wrap (pre : string) (e target : error) :
  errors_Is e target = true -> errors_Is (Errorf_w pre e) target = true.
Proof.
  intros H. unfold Errorf_w. cbn [errors_Is].
  match goal with |- context [error_eq_dec ?a ?b] => destruct (error_eq_dec a b) end;
    [reflexivity | exact H].
Qed.

Section WithEnv.
Context `{E : Env}.

Lemma Reconcile_range_error resources object w tr err :
  snd (snd (Reconcile_range resources object (w, tr))) = Some err ->
  fst (snd (Reconcile_range resources object (w, tr))) = None
  /\ exists s resource w' cause tr',
      (s, resource) ∈ resources
      /\ ctl_Reconcile resource object w'
         = (fst (fst (Reconcile_range resources object (w, tr))), Some cause)
      /\ snd (fst (Reconcile_range resources object (w, tr))) = tr' ++ [InvReconcile s]
      /\ err = ErrWrap "control plane reconciling, " cause.
Proof.
  revert w tr; induction resources as [|[s resource] resources IH]; intros w tr.
  - discriminate.
  - rewrite controlplane_facts.Reconcile_range_cons.
    destruct (ctl_Reconcile resource object w) as [w1 [cause|]] eqn:R; cbn [fst snd].
    + intros [= <-]. split; [reflexivity|].
      exists s, resource, w, cause, tr. repeat split; [left | exact R].
    + intros H. destruct (IH _ _ H) as (Hnil & s' & r' & w' & cause & tr' & Hin & Hr & Ht & ->).
      split; [exact Hnil|]. exists s', r', w', cause, tr'.
      repeat split; [now right | exact Hr | exact Ht].
Qed.

(** An error of [Reconcile] keeps its cause.  The error is the error of the
    stage that was invoked last, wrapped once: [errors.Unwrap] gives the
    error of the stage back, the text is the text of the stage after the
    words of the composer, and every target that [errors.Is] finds in the
    error of the stage it finds in the error of the composer, so that a
    stage that is only waiting can still be told from one that failed.  The
    result that goes with an error is nil, and the world is the one the
    failing stage left. *)
Theorem Reconcile_error_keeps_the_cause (c : controlPlane) (object : ControlPlane)
    (w : World) (tr : list Invocation) (err : error) :
  snd (snd (Reconcile c object (w, tr))) = Some err ->
  fst (snd (Reconcile c object (w, tr))) = None
  /\ exists s resource w' cause tr',
      (s, resource) ∈ [(Etcd, etcdController c); (Master, masterController c);
                       (Addons, addonsController c)]
      /\ ctl_Reconcile resource object w'
         = (fst (fst (Reconcile c object (w, tr))), Some cause)
      /\ snd (fst (Reconcile c object (w, tr))) = tr' ++ [InvReconcile s]
      /\ errors_Unwrap err = Some cause
      /\ error_Error err = "control plane reconciling, " +:+ error_Error cause
      /\ (forall target, errors_Is cause target = true -> errors_Is err target = true).
Proof.
  unfold Reconcile. intros H.
  destruct (Reconcile_range_error _ _ _ _ _ H)
    as (Hnil & s & r & w' & cause & tr' & Hin & Hr & Ht & ->).
  split; [exact Hnil|]. exists s, r, w', cause, tr'.
  split; [exact Hin|]. split; [exact Hr|]. split; [exact Ht|].
  split; [reflexivity|]. split; [reflexivity|].
  intros target. apply errors_Is_wrap.
Qed.

End WithEnv.

Import controlplane_world.

(** On the world where the master stage is broken: the error of the composer
    unwraps to the error of the master stage. *)
Lemma Reconcile_error_keeps_the_cause_brokenMaster :
  fst (snd (Reconcile brokenMaster "cp" ([], []))) = None
  /\ exists s resource w' cause tr',
      (s, resource) ∈ [(Etcd, etcdController brokenMaster);
                       (Master, masterController brokenMaster);
                       (Addons, addonsController brokenMaster)]
      /\ ctl_Reconcile resource "cp" w'
         = (fst (fst (Reconcile brokenMaster "cp" ([], []))), Some cause)
      /\ snd (fst (Reconcile brokenMaster "cp" ([], []))) = tr' ++ [InvReconcile s]
      /\ errors_Unwrap (ErrWrap "control plane reconciling, " (ErrText "master is broken"))
         = Some cause
      /\ error_Error (ErrWrap "control plane reconciling, " (ErrText "master is broken"))
         = "control plane reconciling, " +:+ error_Error cause
      /\ (forall target, errors_Is cause target = true ->
          errors_Is (ErrWrap "control plane reconciling, " (ErrText "master is broken"))
            target = true).
Proof.
  exact (Reconcile_error_keeps_the_cause (E := env) brokenMaster "cp" [] []
           (ErrWrap "control plane reconciling, " (ErrText "master is broken")) eq_refl).
Defined.

End controlplane_steps.

Module master_steps.
Import master.

Lemma length_append (a b : string) :
  String.length (a +:+ b) = String.length a + String.length b.
Proof.
  induction a as [|x a IH]; [reflexivity|].
  change (String x a +:+ b) with (String x (a +:+ b)). cbn [String.length].
  now rewrite IH.
Qed.

Lemma append_cancel_r (a b s : string) : a +:+ s = b +:+ s -> a = b.
Proof.
  revert b; induction a as [|x a IH]; intros [|y b] H.
  - reflexivity.
  - exfalso. apply (f_equal String.length) in H.
    rewrite !length_append in H. cbn [String.length] in H. lia.
  - exfalso. apply (f_equal String.length) in H.
    rewrite !length_append in H. cbn [String.length] in H. lia.
  - change (String x a +:+ s) with (String x (a +:+ s)) in H.
    change (String y b +:+ s) with (String y (b +:+ s)) in H.
    injection H as -> H. f_equal. now apply IH.
Qed.

(** The names made from the name of a cluster.  Different clusters get
    different services, port names and labels.  The name of the service is
    three characters longer than the name of the cluster and is never
    shortened: it is shorter than 63 characters, as a DNS name must be,
    exactly when the name of the cluster is shorter than 60.  The port is
    named after the service, and the label app carries the name of the
    service. *)
Theorem ServiceNameFor_one_service_per_cluster :
  (forall a b, ServiceNameFor a = ServiceNameFor b -> a = b)
  /\ (forall a b, apiserverPortName a = apiserverPortName b -> a = b)
  /\ (forall a b, labelsFor a = labelsFor b -> a = b)
  /\ (forall c, String.length (ServiceNameFor c) = String.length c + 3)
  /\ (forall c, String.length (ServiceNameFor c) < 63 <-> String.length c < 60)
  /\ (forall c, String.length (apiserverPortName c) = String.length c + 8)
  /\ (forall c, labelsFor c !! "app" = Some (ServiceNameFor c)
                /\ dom (labelsFor c) = {[ "app" ]}).
Proof.
  assert (I1 : forall a b, ServiceNameFor a = ServiceNameFor b -> a = b).
  { intros a b. apply append_cancel_r. }
  assert (L : forall c, String.length (ServiceNameFor c) = String.length c + 3).
  { intros c. unfold ServiceNameFor. now rewrite length_append. }
  split; [exact I1|]. split.
  { intros a b H. apply append_cancel_r in H. now apply I1. }
  split.
  { intros a b H. apply I1.
    assert (H' : labelsFor a !! "app" = labelsFor b !! "app") by now rewrite H.
    unfold labelsFor in H'. rewrite !lookup_singleton_eq in H'. congruence. }
  split; [exact L|]. split.
  { intros c. rewrite L. lia. }
  split.
  { intros c. unfold apiserverPortName. rewrite length_append, L. cbn. lia. }
  intros c. unfold labelsFor. split; [apply lookup_singleton_eq | apply dom_singleton_L].
Qed.

End master_steps.

Module resource_steps.
Import resource.

Section WithEnv.
Context `{E : Env}.

Lemma Create_range_in_order components cp w tr0 :
  exists tr n cs,
    snd (fst (Create_range components cp (w, tr0))) = tr0 ++ tr
    /\ lookups tr = map (fun component => (Namespace cp, ObjectName cp component))
                      (take n components)
    /\ sublist cs (take n components)
    /\ create_attempts tr = map (fun component => desired component cp) cs
    /\ length (failures tr) <= 1
    /\ (forall e, failures tr = [e] ->
        exists err, snd (Create_range components cp (w, tr0)) = Some err
                    /\ errors_Is err e = true
                    /\ exists tr' ev, tr = tr' ++ [ev] /\ failures [ev] = [e]).
Proof.
  unfold lookups, create_attempts, failures.
  revert w tr0; induction components as [|component components IH]; intros w tr0.
  - exists [], 0, []. cbn. rewrite app_nil_r.
    split; [reflexivity|]. split; [reflexivity|]. split; [apply sublist_nil_l|].
    split; [reflexivity|]. split; [lia | discriminate].
  - rewrite resource_facts.Create_range_cons.
    set (ns := Namespace cp). set (name := ObjectName cp component).
    set (g := KubeClient_Get ns name w).
    set (c := KubeClient_Create (desired component cp) (fst g)).
    destruct (snd g) as [e|].
    + destruct (errors_IsNotFound e) eqn:NF.
      * destruct (snd c) as [e'|].
        -- exists [EvGet ns name (Some e); EvCreate (desired component cp) (Some e')],
             1, [component].
           cbn. rewrite NF. cbn.
           split; [reflexivity|]. split; [now rewrite take_0|].
           split; [rewrite take_0; apply sublist_skip, sublist_nil_l|].
           split; [reflexivity|]. split; [lia|].
           intros e0 [= <-]. eexists. split; [reflexivity|]. split.
              ** apply controlplane_steps.errors_Is_wrap,
                   controlplane_steps.errors_Is_wrap, master_facts.errors_Is_refl.
              ** now exists [EvGet ns name (Some e)],
                   (EvCreate (desired component cp) (Some e')).
        -- destruct (IH (fst c) (tr0 ++ [EvGet ns name (Some e);
                                          EvCreate (desired component cp) None]))
             as (tr & n & cs & Htr & Hl & Hs & Hc & Hf & He).
           exists (EvGet ns name (Some e) :: EvCreate (desired component cp) None :: tr),
             (S n), (component :: cs).
           rewrite Htr, <- app_assoc. cbn. rewrite NF. cbn.
           split; [reflexivity|]. split; [now rewrite Hl|].
           split; [now constructor|]. split; [now rewrite Hc|]. split; [exact Hf|].
           intros e0 H0. destruct (He e0 H0) as (err & Hr & Hi & tr' & ev & -> & Hev).
           exists err. split; [exact Hr|]. split; [exact Hi|].
           now exists (EvGet ns name (Some e) :: EvCreate (desired component cp) None :: tr'),
             ev.
      * exists [EvGet ns name (Some e)], 1, [].
        cbn. rewrite NF.
        split; [reflexivity|]. split; [now rewrite take_0|].
        split; [apply sublist_nil_l|]. split; [reflexivity|]. split; [cbn; lia|].
        intros e0 [= <-]. eexists. split; [reflexivity|]. split.
           ** apply controlplane_steps.errors_Is_wrap, master_facts.errors_Is_refl.
           ** exists [], (EvGet ns name (Some e)). cbn. now rewrite NF.
    + destruct (IH (fst g) (tr0 ++ [EvGet ns name None]))
        as (tr & n & cs & Htr & Hl & Hs & Hc & Hf & He).
      exists (EvGet ns name None :: tr), (S n), cs.
      rewrite Htr, <- app_assoc. cbn.
      split; [reflexivity|]. split; [now rewrite Hl|].
      split; [now constructor|]. split; [exact Hc|]. split; [exact Hf|].
      intros e0 H0. destruct (He e0 H0) as (err & Hr & Hi & tr' & ev & -> & Hev).
      exists err. split; [exact Hr|]. split; [exact Hi|].
      now exists (EvGet ns name None :: tr'), ev.
Qed.

(** [SecurityGroup.Create] goes through the components in their order and
    stops at the first failure.  The keys it looks up are those of the first
    components of the list, each once and in the order of the list; the
    objects it asks to create are the desired objects of some of these
    components, again each once and in the order of the list.  At most one
    answer in a run is a failure; it is then the last answer of the run, and
    it can be found in the error returned with [errors.Is]. *)
Theorem Create_in_order_until_first_failure (cp : ControlPlane) (w : World) :
  let tr := trace_of (Create cp) w in
  let r := value_of (Create cp) w in
  exists n cs,
    lookups tr = map (fun component => (Namespace cp, ObjectName cp component))
                   (take n ComponentsSupported)
    /\ sublist cs (take n ComponentsSupported)
    /\ create_attempts tr = map (fun component => desired component cp) cs
    /\ length (failures tr) <= 1
    /\ (forall e, failures tr = [e] ->
        exists err, r = Some err
                    /\ errors_Is err e = true
                    /\ exists tr' ev, tr = tr' ++ [ev] /\ failures [ev] = [e]).
Proof.
  intros tr r. subst tr r. unfold trace_of, value_of, Create.
  destruct (Create_range_in_order ComponentsSupported cp w [])
    as (tr & n & cs & Htr & H).
  rewrite Htr. cbn [app]. now exists n, cs.
Qed.

End WithEnv.

End resource_steps.

(* ===================================================================== *)
(** ** Package [addons]: kube-proxy                                       *)
(* ===================================================================== *)

Module addons_facts.
Import addons.

Section WithEnv.
Context `{E : Env}.

Lemma addons_call_eq (c : Call) (w : World) (tr : list Event) :
  call c (w, tr) = ((fst (ext c w), tr ++ [Ev c (snd (ext c w))]), snd (ext c w)).
Proof. unfold call. now destruct (ext c w). Qed.

Lemma GetClusterEndpoint_eq (nn : master.NamespacedName) (w : World) (tr : list Event) :
  GetClusterEndpoint nn (w, tr) =
  ((fst (@master.GetClusterEndpoint master_Env nn w),
    tr ++ [EvEndpoint nn (snd (@master.GetClusterEndpoint master_Env nn w))]),
   snd (@master.GetClusterEndpoint master_Env nn w)).
Proof.
  unfold GetClusterEndpoint. now destruct (@master.GetClusterEndpoint master_Env nn w).
Qed.

(** The six ways a run of [Reconcile] can end. *)
Lemma Reconcile_cases (cp : ControlPlane) (w : World) (tr0 : list Event) :
  let sa := EnsurePatch_ServiceAccount kubeProxyServiceAccount in
  let crb := EnsureCreate_ClusterRoleBinding kubeProxyClusterRoleBinding in
  let secret := GetSecretFromServer
                  (object_NamespacedName (master_RootCASecretNameFor (ClusterName cp))
                     (Namespace cp)) in
  let nn := object_NamespacedName (ClusterName cp) (Namespace cp) in
  let a1 := ext sa w in
  let a2 := ext crb (fst a1) in
  let a3 := ext secret (fst a2) in
  let a4 := @master.GetClusterEndpoint master_Env nn (fst a3) in
  let config := ReconcileConfigFor
                  (kubeConfigRequest (fst (snd a4)) kubeSystem
                     (authRequestFor (ClusterName cp) (fst (snd a3)))) in
  let a5 := ext config (fst a4) in
  let ds := EnsurePatch_DaemonSet (kubeProxyDaemonSet cp) in
  let a6 := ext ds (fst a5) in
  let t1 := [Ev sa (snd a1)] in
  let t2 := t1 ++ [Ev crb (snd a2)] in
  let t3 := t2 ++ [Ev secret (snd a3)] in
  let t4 := t3 ++ [EvEndpoint nn (snd a4)] in
  let t5 := t4 ++ [Ev config (snd a5)] in
  let t6 := t5 ++ [Ev ds (snd a6)] in
  Reconcile cp (w, tr0) =
  match snd a1 with
  | Some e => ((fst a1, tr0 ++ t1), Some e)
  | None =>
  match snd a2 with
  | Some e => ((fst a2, tr0 ++ t2), Some e)
  | None =>
  match snd (snd a3) with
  | Some e => ((fst a3, tr0 ++ t3), Some (ErrWrap "getting ca certificate, " e))
  | None =>
  match snd (snd a4) with
  | Some e => ((fst a4, tr0 ++ t4), Some (ErrWrap "getting cluster endpoint, " e))
  | None =>
  match snd a5 with
  | Some e =>
      ((fst a5, tr0 ++ t5), Some (ErrWrap "reconciling kubeconfig for kube-proxy, " e))
  | None => ((fst a6, tr0 ++ t6), snd a6)
  end end end end end.
Proof.
  intros sa crb secret nn a1 a2 a3 a4 config a5 ds a6 t1 t2 t3 t4 t5 t6.
  subst t6 t5 t4 t3 t2 t1 a6 ds a5 config.
  unfold Reconcile. cbn [range_err].
  unfold serviceAccount, clusterRoleBinding, daemonsetForKubeProxy, kubeConfig,
    controlPlaneCASecret, controlPlaneEndPoint, on_err, bind.
  rewrite addons_call_eq. fold sa a1.
  destruct (snd a1) as [e1|]; cbn [ret]; [reflexivity|].
  rewrite addons_call_eq. fold crb a2.
  destruct (snd a2) as [e2|]; cbn [ret]; [now rewrite <- app_assoc|].
  rewrite addons_call_eq. fold secret a3.
  destruct (snd a3) as [caSecret [e3|]]; cbn [ret fst snd];
    [now rewrite <- !app_assoc|].
  rewrite GetClusterEndpoint_eq. fold nn a4.
  destruct (snd a4) as [endpoint [e4|]]; cbn [ret fst snd];
    [now rewrite <- !app_assoc|].
  rewrite addons_call_eq. cbn [fst snd].
  match goal with
  | |- context [ext ?c (fst a4)] => destruct (ext c (fst a4)) as [w5 [e5|]]
  end; cbn [ret fst snd]; [unfold ret; now rewrite <- !app_assoc|].
  rewrite addons_call_eq.
  destruct (snd (ext (EnsurePatch_DaemonSet (kubeProxyDaemonSet cp)) w5));
    unfold ret; now rewrite <- !app_assoc.
Qed.

(** [KubeProxy.Reconcile] works through the service account, the cluster
    role binding, the CA secret, the endpoint, the kubeconfig and the daemon
    set in this order, and stops at the first step that fails: the steps of a
    run are the first [n] of these six.  The secret is the root CA secret of
    the cluster in the namespace of the control plane, the endpoint is the
    one of the cluster in the same namespace, and the kubeconfig is asked for
    with the endpoint that was read and the certificate of the secret that
    was fetched.  A run returns nil only after all six steps, none of which
    failed.  An error returned is the one failure of the run: as it is for
    the service account, the cluster role binding and the daemon set, wrapped
    with what was being done for the three steps of the kubeconfig.
    [Finalize] touches nothing and returns nil. *)
Theorem KubeProxy_Reconcile_in_order_until_first_error (cp : ControlPlane) (w : World)
    (tr0 : list Event) :
  let sa := EnsurePatch_ServiceAccount kubeProxyServiceAccount in
  let crb := EnsureCreate_ClusterRoleBinding kubeProxyClusterRoleBinding in
  let secret := GetSecretFromServer
                  (object_NamespacedName (master_RootCASecretNameFor (ClusterName cp))
                     (Namespace cp)) in
  let nn := object_NamespacedName (ClusterName cp) (Namespace cp) in
  let a3 := ext secret (fst (ext crb (fst (ext sa w)))) in
  let a4 := @master.GetClusterEndpoint master_Env nn (fst a3) in
  let ds := EnsurePatch_DaemonSet (kubeProxyDaemonSet cp) in
  let run := Reconcile cp (w, tr0) in
  (exists tr n req,
    snd (fst run) = tr0 ++ tr
    /\ steps tr = take n [Called sa; Called crb; Called secret; Endpoint nn;
                          Called (ReconcileConfigFor req); Called ds]
    /\ ApiServerEndpoint req = fst (snd a4)
    /\ CACert (Request_AuthInfo req) = snd (secrets_Parse (fst (snd a3)))
    /\ (snd run = None -> n = 6 /\ failures tr = [])
    /\ (forall err, snd run = Some err ->
        exists e k,
          n = S k /\ failures tr = [e]
          /\ err = match k with
                   | 2 => ErrWrap "getting ca certificate, " e
                   | 3 => ErrWrap "getting cluster endpoint, " e
                   | 4 => ErrWrap "reconciling kubeconfig for kube-proxy, " e
                   | _ => e
                   end))
  /\ Finalize cp (w, tr0) = ((w, tr0), None).
Proof.
  intros sa crb secret nn a3 a4 ds run. split; [|reflexivity].
  subst run. rewrite Reconcile_cases. fold sa crb secret nn. fold a3. fold a4.
  set (req := kubeConfigRequest (fst (snd a4)) kubeSystem
                (authRequestFor (ClusterName cp) (fst (snd a3)))).
  assert (CA : CACert (Request_AuthInfo req) = snd (secrets_Parse (fst (snd a3)))).
  { unfold req, kubeConfigRequest, authRequestFor, CACert. cbn [Request_AuthInfo].
    now destruct (secrets_Parse (fst (snd a3))). }
  fold ds.
  destruct (snd (ext sa w)) as [e1|] eqn:A1.
  { eexists _, 1, req. cbn [fst snd]. split; [reflexivity|]. split; [reflexivity|].
    split; [reflexivity|]. split; [exact CA|]. split; [discriminate|].
    intros err [= <-]. exists e1, 0. now repeat split. }
  destruct (snd (ext crb (fst (ext sa w)))) as [e2|] eqn:A2.
  { eexists _, 2, req. cbn [fst snd]. split; [reflexivity|]. split; [reflexivity|].
    split; [reflexivity|]. split; [exact CA|]. split; [discriminate|].
    intros err [= <-]. exists e2, 1. now repeat split. }
  destruct (snd (snd a3)) as [e3|] eqn:A3.
  { eexists _, 3, req. cbn [fst snd]. split; [reflexivity|]. split; [reflexivity|].
    split; [reflexivity|]. split; [exact CA|]. split; [discriminate|].
    intros err [= <-]. exists e3, 2. repeat split.
    change (match snd (snd a3) with Some y => [y] | None => [] end = [e3]).
    now rewrite A3. }
  destruct (snd (snd a4)) as [e4|] eqn:A4.
  { eexists _, 4, req. cbn [fst snd]. split; [reflexivity|]. split; [reflexivity|].
    split; [reflexivity|]. split; [exact CA|]. split; [discriminate|].
    intros err [= <-]. exists e4, 3. repeat split.
    change (match snd (snd a3) with
            | Some y => y :: match snd (snd a4) with Some y => [y] | None => [] end
            | None => match snd (snd a4) with Some y => [y] | None => [] end
            end = [e4]).
    now rewrite A3, A4. }
  fold req.
  destruct (snd (ext (ReconcileConfigFor req) (fst a4))) as [e5|] eqn:A5.
  { eexists _, 5, req. cbn [fst snd]. split; [reflexivity|]. split; [reflexivity|].
    split; [reflexivity|]. split; [exact CA|]. split; [discriminate|].
    intros err [= <-]. exists e5, 4. repeat split.
    change (match snd (snd a3) with
            | Some y => y :: match snd (snd a4) with Some y => [y; e5] | None => [e5] end
            | None => match snd (snd a4) with Some y => [y; e5] | None => [e5] end
            end = [e5]).
    now rewrite A3, A4. }
  eexists _, 6, req. cbn [fst snd]. split; [reflexivity|]. split; [reflexivity|].
  split; [reflexivity|]. split; [exact CA|].
  destruct (snd (ext ds (fst (ext (ReconcileConfigFor req) (fst a4))))) as [e6|].
  - split; [discriminate|]. intros err [= <-]. exists e6, 5. repeat split.
    change (match snd (snd a3) with
            | Some y => y :: match snd (snd a4) with Some y => [y; e6] | None => [e6] end
            | None => match snd (snd a4) with Some y => [y; e6] | None => [e6] end
            end = [e6]).
    now rewrite A3, A4.
  - split; [|discriminate]. intros _. split; [reflexivity|].
    change (match snd (snd a3) with
            | Some y => y :: match snd (snd a4) with Some y => [y] | None => [] end
            | None => match snd (snd a4) with Some y => [y] | None => [] end
            end = []).
    now rewrite A3, A4.
Qed.

(** While the service of the control plane is missing or has no address yet,
    [KubeProxy.Reconcile] waits.  When the service account, the cluster role
    binding and the CA secret are in order, and the look-up of the service of
    the cluster says that it is not found or gives a service without ingress,
    the run stops at the endpoint: neither the kubeconfig nor the daemon set
    is asked for, and the error returned is recognised by [errors.Is] as
    [WaitingForSubResources], through both wrappings. *)
Theorem KubeProxy_Reconcile_waits_for_the_endpoint (cp : ControlPlane) (w : World)
    (tr0 : list Event) :
  let sa := EnsurePatch_ServiceAccount kubeProxyServiceAccount in
  let crb := EnsureCreate_ClusterRoleBinding kubeProxyClusterRoleBinding in
  let secret := GetSecretFromServer
                  (object_NamespacedName (master_RootCASecretNameFor (ClusterName cp))
                     (Namespace cp)) in
  let nn := object_NamespacedName (ClusterName cp) (Namespace cp) in
  let a1 := ext sa w in
  let a2 := ext crb (fst a1) in
  let a3 := ext secret (fst a2) in
  let key := {| master.Namespace := master.Namespace nn;
                master.Name := master.ServiceNameFor (master.Name nn) |} in
  let g := @master.client_Get master_Env key (fst a3) in
  let run := Reconcile cp (w, tr0) in
  snd a1 = None -> snd a2 = None -> snd (snd a3) = None ->
  match snd g with
  | inr e => @master.errors_IsNotFound master_Env e = true
  | inl svc => master.Ingress svc = []
  end ->
  exists err,
    snd run = Some err
    /\ errors_Is err (@master.WaitingForSubResources master_Env) = true
    /\ fst run = (fst g, tr0 ++ [Ev sa None; Ev crb None; Ev secret (snd a3);
                                 EvEndpoint nn ("", errors_Unwrap err)]).
Proof.
  intros sa crb secret nn a1 a2 a3 key g run H1 H2 H3 H4. subst run.
  rewrite Reconcile_cases. fold sa crb secret nn. fold a1. fold a2. fold a3.
  rewrite H1, H2, H3.
  assert (G : exists pre,
             @master.GetClusterEndpoint master_Env nn (fst a3)
             = (fst g, ("", Some (ErrWrap pre (@master.WaitingForSubResources master_Env))))).
  { unfold master.GetClusterEndpoint, bind. fold key. fold g.
    destruct g as [w' [svc|e]]; cbn [fst snd] in *.
    - rewrite H4. now eexists.
    - rewrite H4. now eexists. }
  destruct G as [pre G]. rewrite G. cbn [fst snd].
  eexists. split; [reflexivity|]. split.
  - apply controlplane_steps.errors_Is_wrap, controlplane_steps.errors_Is_wrap,
      master_facts.errors_Is_refl.
  - cbn [errors_Unwrap]. rewrite <- !app_assoc. reflexivity.
Qed.

(** The objects that the steps of [KubeProxy.Reconcile] hand to the client
    fit together, for every control plane.  The daemon set selects the pods
    of its own template.  Its pods run under the service account that
    [serviceAccount] ensures, in the namespace of that account, and the
    cluster role binding has exactly this account as its subject.  Every
    volume a container mounts is a volume of the pod, and no volume name and
    no mount path is used twice.  The kubeconfig that [kubeConfig] asks for,
    whatever the endpoint and the secret, is asked for in the namespace of
    the daemon set under the name of the secret that the pod mounts, and the
    flag --kubeconfig of kube-proxy points at the file this secret provides
    in the mounted directory.  The context the request selects exists, names
    the cluster of the request, and refers to the credentials the request
    generates. *)
Theorem kubeProxy_objects_fit_together (cp : ControlPlane) (endpoint : string)
    (caSecret : option Secret) :
  let d := kubeProxyDaemonSet cp in
  let spec := Template_Spec d in
  let account := kubeProxyServiceAccount in
  let req := kubeConfigRequest endpoint kubeSystem
               (authRequestFor (ClusterName cp) caSecret) in
  (MatchLabels d = Template_Labels d /\ MatchLabels d <> ∅)
  /\ (ServiceAccountName spec = SA_Name account
      /\ DS_Namespace d = SA_Namespace account
      /\ CRB_Subjects kubeProxyClusterRoleBinding
         = [{| Subject_Kind := "ServiceAccount";
               Subject_Name := SA_Name account;
               Subject_Namespace := SA_Namespace account |}])
  /\ (Forall (fun c => Forall (fun m => VM_Name m ∈ map Volume_Name (Volumes spec))
                         (VolumeMounts c)
                       /\ NoDup (map VM_MountPath (VolumeMounts c)))
        (Containers spec)
      /\ NoDup (map Volume_Name (Volumes spec)))
  /\ (Request_Namespace req = DS_Namespace d
      /\ exists mode items c m item,
          {| Volume_Name := VM_Name m;
             Volume_Source := SecretSource (Request_Name req) mode items |} ∈ Volumes spec
          /\ c ∈ Containers spec /\ m ∈ VolumeMounts c /\ item ∈ items
          /\ ("--kubeconfig=" +:+ VM_MountPath m +:+ "/" +:+ Path item) ∈ Args c)
  /\ (exists ctx, Contexts req !! ClusterContext req = Some ctx
        /\ Context_Cluster ctx = Request_ClusterName req
        /\ is_Some (fst (Generate (Request_AuthInfo req)) !! Context_AuthInfo ctx)).
Proof.
  intros d spec account req.
  assert (N : Request_Name req = KubeProxyConfigNameFor (ClusterName cp)).
  { unfold req, kubeConfigRequest, authRequestFor. cbn [Request_Name].
    now destruct (secrets_Parse caSecret). }
  split; [|split; [|split; [|split]]].
  - split; [reflexivity|]. cbn. unfold labelsForKubeProxy.
    apply (map_non_empty_singleton (M := gmap string)).
  - now repeat split.
  - split.
    + constructor; [|constructor]. split.
      * cbn. repeat constructor.
      * apply (bool_decide_unpack _). vm_compute. exact I.
    + apply (bool_decide_unpack _). vm_compute. exact I.
  - split; [reflexivity|]. rewrite N.
    eexists _, _, _, {| VM_Name := "kubeproxy-kubeconfig";
                        VM_MountPath := "/var/lib/kube-proxy"; VM_ReadOnly := true |}, _.
    cbn. split; [do 3 right; left|]. split; [left|]. split; [do 3 right; left|].
    split; left.
  - eexists. unfold req, kubeConfigRequest, Generate.
    cbn [Contexts ClusterContext Request_ClusterName fst].
    split; [apply lookup_singleton_eq|]. split; [reflexivity|].
    cbn [Context_AuthInfo]. rewrite lookup_singleton_eq. eauto.
Qed.

End WithEnv.

Import addons_world.

(** On the world where the service of c1 has no address yet: the run stops
    at the endpoint and the error wraps the sentinel twice. *)
Lemma KubeProxy_Reconcile_waits_pending :
  exists err,
    snd (Reconcile c1 (master_world.pending, [])) = Some err
    /\ errors_Is err (ErrText "waiting for subresources") = true
    /\ fst (Reconcile c1 (master_world.pending, []))
       = (master_world.pending,
          [Ev (EnsurePatch_ServiceAccount kubeProxyServiceAccount) None;
           Ev (EnsureCreate_ClusterRoleBinding kubeProxyClusterRoleBinding) None;
           Ev (GetSecretFromServer {| master.Namespace := "tenant"; master.Name := "c1-ca" |})
              (Some {| Secret_Name := "c1-ca"; Secret_Namespace := "tenant";
                       Data := {[ "private" := "key of c1"; "public" := "cert of c1" ]} |},
               None);
           EvEndpoint {| master.Namespace := "tenant"; master.Name := "c1" |}
             ("", errors_Unwrap err)]).
Proof.
  exact (KubeProxy_Reconcile_waits_for_the_endpoint (E := env) c1 master_world.pending []
           eq_refl eq_refl eq_refl eq_refl).
Defined.

End addons_facts.
